(** * ocean.js: the Assets submodule (src/ocean/Assets.ts)

    A shallow embedding of the asset workflows of [Assets.ts]: publishing
    ([create]), the service lookups, [order], [download], [creator] and
    [updateComputePrivacy], followed by the properties that the
    specification states about them.

    The workflows talk to collaborators reached through [this.ocean]: the
    ledger ([datatokens]), the provider, the metadata store, the on-chain
    metadata store and the signature utilities.  None of them is part of the
    embedded file, so every collaborator operation is a field of a record
    of handlers over an arbitrary collaborator state; a run of a workflow
    yields its outcome, the final collaborator state and the trace of
    what it did (collaborator calls with their answers, log lines and
    progress notifications, in program order). *)

From Stdlib Require Import List String Ascii ZArith QArith Bool Lia.
From Stdlib Require Import DecimalString.
Import ListNotations.

Local Open Scope string_scope.
Local Open Scope list_scope.
Local Open Scope Z_scope.

Set Implicit Arguments.

(* ------------------------------------------------------------------ *)
(** ** JavaScript values the code relies on *)

(** [x: string | undefined | null] is an [option string]; such a value is
    truthy when it is a non-empty string. *)
Definition truthy (v : option string) : bool :=
  match v with
  | Some (String _ _) => true
  | _ => false
  end.

(** String coercion of a possibly undefined string, as done by
    [RegExp.prototype.test] and by template literals. *)
Definition toString (v : option string) : string :=
  match v with
  | Some s => s
  | None => "undefined"
  end.

(** [Number.prototype.toString] on an integer. *)
Definition Z_toString (z : Z) : string :=
  NilZero.string_of_int (Z.to_int z).

(** Errors that can be thrown. *)
Inductive exn : Type :=
| TypeError (what : string)     (* property access on undefined / null *)
| Error (message : string)      (* [new Error(message)] *)
| Thrown (reason : string).     (* anything thrown by a collaborator *)

(** The result of evaluating code that may throw. *)
Inductive outcome (A : Type) : Type :=
| Ok (a : A)
| Raise (e : exn).
Arguments Ok {A} a.
Arguments Raise {A} e.

(* ------------------------------------------------------------------ *)
(** ** Data model (ddo/interfaces, used through their fields) *)

Record File : Type := mkFile {
  file_url : option string;
  file_index : option Z;
  file_contentType : string
}.

Record Curation : Type := mkCuration {
  rating : Z;
  numVotes : Z
}.

Record ServiceComputePrivacy : Type := mkPrivacy {
  allowRawAlgorithm : bool;
  allowNetworkAccess : bool;
  trustedAlgorithms : list string
}.

(** [attributes.main] of a service; also [metadata.main].  A field that a
    given kind of service does not carry is [None] (undefined). *)
Record Main : Type := mkMain {
  main_name : option string;
  main_creator : option string;
  main_datePublished : option string;
  main_cost : option string;
  main_timeout : option Z;
  main_files : option (list File);
  main_privacy : option ServiceComputePrivacy
}.

(** [Metadata], and the [attributes] of a service. *)
Record Attributes : Type := mkAttributes {
  main : Main;
  encryptedFiles : option string;
  curation : option Curation;
  additionalInformation : option string
}.

Definition Metadata : Type := Attributes.

Record Service : Type := mkService {
  type : string;
  index : Z;
  serviceEndpoint : option string;
  attributes : Attributes
}.

Record Authentication : Type := mkAuthentication {
  auth_type : string;
  auth_publicKey : string
}.

Record PublicKey : Type := mkPublicKey {
  pk_id : string;
  pk_type : string;
  pk_owner : string
}.

Record ProofRecord : Type := mkProof {
  proof_checksum : string;
  proof_creator : string;
  signatureValue : string
}.

Record DDO : Type := mkDDO {
  id : string;
  dataToken : string;
  authentication : list Authentication;
  publicKey : list PublicKey;
  service : list Service;
  proof : option ProofRecord
}.

Record Account : Type := mkAccount {
  getId : string;
  getPassword : option string
}.

(* ------------------------------------------------------------------ *)
(** ** Service list of a new DDO ([create], lines 138-173) *)

(** [Array.prototype.findIndex]: position of the first element satisfying
    [p], or -1. *)
Fixpoint findIndex_from (A : Type) (p : A -> bool) (l : list A) (i : Z) : Z :=
  match l with
  | [] => -1
  | x :: r => if p x then i else findIndex_from p r (i + 1)
  end.

Definition findIndex (A : Type) (p : A -> bool) (l : list A) : Z :=
  findIndex_from p l 0.

(** [Array.prototype.filter] with the three-argument callback
    [(element, i, list)]. *)
Fixpoint filter_from (A : Type) (p : A -> Z -> list A -> bool)
    (whole l : list A) (i : Z) : list A :=
  match l with
  | [] => []
  | x :: r =>
      if p x i whole then x :: filter_from p whole r (i + 1)
      else filter_from p whole r (i + 1)
  end.

Definition filter_indexed (A : Type) (p : A -> Z -> list A -> bool)
    (l : list A) : list A :=
  filter_from p l l 0.

(** [// Remove duplications]:
    [.reverse().filter(({type}, i, list) =>
        list.findIndex(({type: t}) => t === type) === i).reverse()]. *)
Definition removeDuplications (l : list Service) : list Service :=
  rev
    (filter_indexed
       (fun s i list =>
          findIndex (fun t => String.eqb (type t) (type s)) list =? i)
       (rev l)).

(** [// Adding index]: [.map((_) => ({ ..._, index: indexCount++ }))]. *)
Definition withIndex (s : Service) (i : Z) : Service :=
  {| type := type s;
     index := i;
     serviceEndpoint := serviceEndpoint s;
     attributes := attributes s |}.

Fixpoint addIndex (l : list Service) (indexCount : Z) : list Service :=
  match l with
  | [] => []
  | s :: r => withIndex s indexCount :: addIndex r (indexCount + 1)
  end.

(** The default values of the metadata service, [curation]. *)
Definition defaultCuration : Curation := {| rating := 0; numVotes := 0 |}.

(** [files.map((file, index) => ({ ...file, index, url: undefined }))]. *)
Fixpoint cleanFiles (files : list File) (index : Z) : list File :=
  match files with
  | [] => []
  | f :: r =>
      {| file_url := None;
         file_index := Some index;
         file_contentType := file_contentType f |}
      :: cleanFiles r (index + 1)
  end.

(** The attributes of the metadata service: the defaults, overwritten by
    [...metadata], then [encryptedFiles] and the cleaned [main]. *)
Definition metadataAttributes (metadata : Metadata) (encrypted : string)
    (files : list File) : Attributes :=
  {| main :=
       {| main_name := main_name (main metadata);
          main_creator := main_creator (main metadata);
          main_datePublished := main_datePublished (main metadata);
          main_cost := main_cost (main metadata);
          main_timeout := main_timeout (main metadata);
          main_files := Some (cleanFiles files 0);
          main_privacy := main_privacy (main metadata) |};
     encryptedFiles := Some encrypted;
     curation :=
       match curation metadata with
       | Some c => Some c
       | None => Some defaultCuration
       end;
     additionalInformation := additionalInformation metadata |}.

(** The first entry of the candidate list.  The object literal has no
    [index] yet; every entry receives one from [addIndex], so the field
    is filled with 0 until then. *)
Definition metadataService (a : Attributes) : Service :=
  {| type := "metadata";
     index := 0;
     serviceEndpoint := None;
     attributes := a |}.

(** The [service] field handed to [new DDO]. *)
Definition buildServices (metadataSvc : Service) (services : list Service)
    : list Service :=
  addIndex (removeDuplications (metadataSvc :: services)) 0.

(* ------------------------------------------------------------------ *)
(** ** Progress steps, log lines and collaborator calls *)

Inductive CreateProgressStep : Type :=
| CreatingDataToken
| DataTokenCreated
| EncryptingFiles
| FilesEncrypted
| GeneratingProof
| ProofGenerated
| StoringDdo
| DdoStored.

(** [{ t: 1, url: metadataStoreURI }], handed to the ledger through
    [JSON.stringify]. *)
Record JsonBlob : Type := mkBlob {
  blob_t : Z;
  blob_url : string
}.

(** What [JSON.parse] yields for the provider's answer to [initialize]. *)
Record ProviderData : Type := mkProviderData {
  pd_dataToken : string;
  numTokens : Z
}.

Record TransactionReceipt : Type := mkReceipt {
  transactionHash : string
}.

Inductive LogLevel : Type :=
| LoggerLog        (* this.logger.log *)
| LoggerWarn       (* this.logger.warn *)
| LoggerError      (* this.logger.error *)
| ConsoleError.    (* console.error *)

(** The lines the workflows log, with the values they interpolate. *)
Inductive LogLine : Type :=
| PassedAddressNotValid (dtAddress : option string)
| CreatingAsset
| NoServices
| CreatingDatatoken
| CreatedAddressNotValid (dtAddress : option string)
| DataTokenCreatedLine (dtAddress : string)
| EncryptingFilesLine
| FilesEncryptedLine
| GeneratingProofLine
| ProofGeneratedLine
| StoringDDOLine
| DDOStoredLine (ddoId : string)
| OwnerDoesNotMatch (ddoId creator signer : string)
| NotEnoughFunds (totalCost balance : Q)
| Caught (e : exn)
| ConsumingFiles.

(** One entry of a trace.  A collaborator call carries its arguments and
    the answer the collaborator gave. *)
Inductive Event : Type :=
| EvLog (level : LogLevel) (line : LogLine)
| EvProgress (step : CreateProgressStep)
| EvRetrieveDDO (did : string) (r : outcome (option DDO))
| EvDatatokensCreate (blob : JsonBlob) (publisher : string)
    (cap name symbol : option string) (r : outcome (option string))
| EvGetPreviousValidOrders (dataToken : string) (amount : Z) (did : string)
    (serviceIndex : Z) (timeout : option Z) (consumer : string)
    (r : outcome (option string))
| EvBalance (dataToken account : string) (r : outcome Q)
| EvStartOrder (dataToken : string) (amount : Q) (did : string)
    (serviceIndex : Z) (mpAddress : option string) (consumer : string)
    (r : outcome (option TransactionReceipt))
| EvEncrypt (did : string) (files : option (list File)) (publisher : Account)
    (r : outcome string)
| EvInitialize (did : string) (serviceIndex : Z) (serviceType consumer : string)
    (r : outcome (option string))
| EvDownload (did txId tokenAddress serviceType serviceIndex : string)
    (destination : option string) (consumer : Account)
    (files : option (list File)) (r : outcome unit)
| EvPublish (did : string) (ddo : DDO) (owner : string) (r : outcome bool)
| EvUpdate (did : string) (ddo : DDO) (owner : string) (r : outcome bool)
| EvSignText (checksum publicKey : string) (password : option string)
    (r : outcome string)
| EvVerifyText (checksum signature : string) (r : outcome string).

(** The collaborator calls of a trace, as opposed to log lines and
    progress notifications. *)
Definition is_call (e : Event) : bool :=
  match e with
  | EvLog _ _ | EvProgress _ => false
  | _ => true
  end.

Definition calls (t : list Event) : list Event := filter is_call t.

(** The progress notifications of a trace, in the order of emission. *)
Fixpoint progress (t : list Event) : list CreateProgressStep :=
  match t with
  | [] => []
  | EvProgress s :: r => s :: progress r
  | _ :: r => progress r
  end.

(** What the creation of a token leaves in a trace: the call to the
    ledger and the two progress steps around it. *)
Definition is_tokenCreation (e : Event) : bool :=
  match e with
  | EvDatatokensCreate _ _ _ _ _ _ => true
  | EvProgress CreatingDataToken => true
  | EvProgress DataTokenCreated => true
  | _ => false
  end.

(** The ledger payment calls of a trace. *)
Definition is_startOrder (e : Event) : bool :=
  match e with
  | EvStartOrder _ _ _ _ _ _ _ => true
  | _ => false
  end.

(** The provider download calls of a trace. *)
Definition is_download (e : Event) : bool :=
  match e with
  | EvDownload _ _ _ _ _ _ _ _ _ => true
  | _ => false
  end.

(** The metadata-index update calls of a trace. *)
Definition is_update (e : Event) : bool :=
  match e with
  | EvUpdate _ _ _ _ => true
  | _ => false
  end.

(** Calls to the ledger ([this.ocean.datatokens]). *)
Definition is_ledger (e : Event) : bool :=
  match e with
  | EvDatatokensCreate _ _ _ _ _ _
  | EvGetPreviousValidOrders _ _ _ _ _ _ _
  | EvBalance _ _ _
  | EvStartOrder _ _ _ _ _ _ _ => true
  | _ => false
  end.

(** The error a collaborator answered a call with, if it threw. *)
Definition thrown (e : Event) : option exn :=
  match e with
  | EvRetrieveDDO _ (Raise x)
  | EvDatatokensCreate _ _ _ _ _ (Raise x)
  | EvGetPreviousValidOrders _ _ _ _ _ _ (Raise x)
  | EvBalance _ _ (Raise x)
  | EvStartOrder _ _ _ _ _ _ (Raise x)
  | EvEncrypt _ _ _ (Raise x)
  | EvInitialize _ _ _ _ (Raise x)
  | EvDownload _ _ _ _ _ _ _ _ (Raise x)
  | EvPublish _ _ _ (Raise x)
  | EvUpdate _ _ _ (Raise x)
  | EvSignText _ _ _ (Raise x)
  | EvVerifyText _ _ (Raise x) => Some x
  | _ => None
  end.

(* ------------------------------------------------------------------ *)
(** ** The collaborators *)

(** Everything [Assets] reaches through [this.ocean], [this.web3] and its
    imports.  [W] is the joint state of the collaborators (ledger,
    provider, metadata index); an operation answers with a value or
    throws, and may change that state.  The last fields are the pure
    helpers: they are declared outside [Assets.ts]. *)
Record Ocean (W : Type) : Type := mkOcean {
  (* this.ocean.metadatastore *)
  metadatastore_getURI : string;
  metadatastore_retrieveDDO : string -> W -> outcome (option DDO) * W;
  (* this.ocean.datatokens *)
  datatokens_create :
    JsonBlob -> string -> option string -> option string -> option string ->
    W -> outcome (option string) * W;
  datatokens_getPreviousValidOrders :
    string -> Z -> string -> Z -> option Z -> string ->
    W -> outcome (option string) * W;
  datatokens_balance : string -> string -> W -> outcome Q * W;
  datatokens_startOrder :
    string -> Q -> string -> Z -> option string -> string ->
    W -> outcome (option TransactionReceipt) * W;
  (* this.ocean.provider *)
  provider_encrypt :
    string -> option (list File) -> Account -> W -> outcome string * W;
  provider_initialize :
    string -> Z -> string -> string -> W -> outcome (option string) * W;
  provider_download :
    string -> string -> string -> string -> string -> option string ->
    Account -> option (list File) -> W -> outcome unit * W;
  (* this.ocean.OnChainMetadataStore *)
  onchain_publish : string -> DDO -> string -> W -> outcome bool * W;
  onchain_update : string -> DDO -> string -> W -> outcome bool * W;
  (* this.ocean.utils.signature *)
  signature_signText :
    string -> string -> option string -> W -> outcome string * W;
  signature_verifyText : string -> string -> W -> outcome string * W;
  (* web3-utils: the checksum test isAddress falls back on *)
  checkAddressChecksum : string -> bool;
  (* DID.generate(dtAddress), then getId() and getDid() *)
  DID_getId : string -> string;
  DID_getDid : string -> string;
  (* utils *)
  didZeroX : string -> string;
  (* JSON.parse of the provider's answer; None is a falsy value *)
  JSON_parse : string -> outcome (option ProviderData);
  (* DDO methods *)
  DDO_getChecksum : DDO -> string;
  DDO_shortId : DDO -> string
}.

(* ------------------------------------------------------------------ *)
(** ** The monad of the workflows *)

(** A computation reads and updates the collaborators' state, appends to
    the trace, and returns a value or throws.  What was done before a
    throw stays done. *)
Definition M (W A : Type) : Type := W -> outcome A * W * list Event.

Definition ret {W A : Type} (a : A) : M W A :=
  fun w => (Ok a, w, []).

Definition raise {W A : Type} (e : exn) : M W A :=
  fun w => (Raise e, w, []).

Definition bind {W A B : Type} (m : M W A) (f : A -> M W B) : M W B :=
  fun w =>
    match m w with
    | (Ok a, w1, t1) =>
        match f a w1 with
        | (r, w2, t2) => (r, w2, t1 ++ t2)
        end
    | (Raise e, w1, t1) => (Raise e, w1, t1)
    end.

(** [try { m } catch (e) { h e }]. *)
Definition try_catch {W A : Type} (m : M W A) (h : exn -> M W A) : M W A :=
  fun w =>
    match m w with
    | (Ok a, w1, t1) => (Ok a, w1, t1)
    | (Raise e, w1, t1) =>
        match h e w1 with
        | (r, w2, t2) => (r, w2, t1 ++ t2)
        end
    end.

(** Appending one entry to the trace. *)
Definition emit {W : Type} (e : Event) : M W unit :=
  fun w => (Ok tt, w, [e]).

(** Calling a collaborator: the call and its answer enter the trace, a
    thrown error is rethrown by [await]. *)
Definition call {W A : Type} (op : W -> outcome A * W)
    (ev : outcome A -> Event) : M W A :=
  fun w =>
    match op w with
    | (r, w1) => (r, w1, [ev r])
    end.

(** Reading a property of a value that may be undefined or null. *)
Definition deref {W A : Type} (what : string) (v : option A) : M W A :=
  match v with
  | Some a => ret a
  | None => raise (TypeError what)
  end.

Declare Scope workflow_scope.
Delimit Scope workflow_scope with workflow.
Notation "x <- m ;; k" := (bind m (fun x => k))
  (at level 61, m at next level, right associativity) : workflow_scope.
Notation "m ;; k" := (bind m (fun _ => k))
  (at level 61, right associativity) : workflow_scope.
Local Open Scope workflow_scope.

(* ------------------------------------------------------------------ *)
(** ** Strings: address syntax and lower-casing *)

Definition is_digit (c : ascii) : bool :=
  (48 <=? nat_of_ascii c)%nat && (nat_of_ascii c <=? 57)%nat.

Definition is_lower_hex (c : ascii) : bool :=
  is_digit c || ((97 <=? nat_of_ascii c)%nat && (nat_of_ascii c <=? 102)%nat).

Definition is_upper_hex (c : ascii) : bool :=
  is_digit c || ((65 <=? nat_of_ascii c)%nat && (nat_of_ascii c <=? 70)%nat).

Definition is_hex (c : ascii) : bool := is_lower_hex c || is_upper_hex c.

Fixpoint all_chars (p : ascii -> bool) (s : string) : bool :=
  match s with
  | EmptyString => true
  | String c r => p c && all_chars p r
  end.

(** The optional prefix [(0x|0X)?] of the address patterns. *)
Definition strip_0x (s : string) : string :=
  match s with
  | String "0" (String "x" r) => r
  | String "0" (String "X" r) => r
  | _ => s
  end.

(** [/^(0x|0X)?[...]{40}$/] for a class of digits. *)
Definition address_shape (digit : ascii -> bool) (s : string) : bool :=
  (String.length (strip_0x s) =? 40)%nat && all_chars digit (strip_0x s).

(** Modelled from the spec: [isAddress] is imported from web3-utils and is
    not among the sources; the spec asks for "a syntactically valid
    address".  The function tests its argument, coerced to a string,
    against [/^(0x)?[0-9a-f]{40}$/i]; an address all in lower case or all
    in upper case is then valid, and a mixed-case one is valid when its
    checksum is, which is left to [checksum]. *)
Definition isAddress_with (checksum : string -> bool)
    (address : option string) : bool :=
  let a := toString address in
  if negb (address_shape is_hex a) then false
  else if address_shape is_lower_hex a || address_shape is_upper_hex a
       then true
       else checksum a.

Definition lower_ascii (c : ascii) : ascii :=
  if (65 <=? nat_of_ascii c)%nat && (nat_of_ascii c <=? 90)%nat
  then ascii_of_nat (nat_of_ascii c + 32)
  else c.

(** [String.prototype.toLowerCase], on the ASCII letters. *)
Fixpoint toLowerCase (s : string) : string :=
  match s with
  | EmptyString => EmptyString
  | String c r => String (lower_ascii c) (toLowerCase r)
  end.

(** [web3.utils.fromWei] of an integer amount of wei: the decimal it
    returns, as the rational it denotes.  [BigNumber] values are the
    rationals their decimal strings denote. *)
Definition fromWei (wei : Z) : Q := wei # (10 ^ 18)%positive.

(** [Array.prototype.forEach] with a callback assigning to a variable
    declared outside it: the variable's last value. *)
Definition lastMatching (matches : Service -> bool) (services : list Service)
    : option Service :=
  fold_left (fun service serv => if matches serv then Some serv else service)
    services None.

(** [services[i]] for a number [i]. *)
Definition service_at (services : list Service) (i : Z) : option Service :=
  if i <? 0 then None else nth_error services (Z.to_nat i).

(** [services[i] = s] for an existing position [i]. *)
Fixpoint replace_at (services : list Service) (i : nat) (s : Service)
    : list Service :=
  match services, i with
  | [], _ => []
  | _ :: r, O => s :: r
  | x :: r, S j => x :: replace_at r j s
  end.

(* ------------------------------------------------------------------ *)
(** ** The workflows of [Assets] *)

Section Assets.

Context {W : Type}.
Variable ocean : Ocean W.

Definition log (level : LogLevel) (line : LogLine) : M W unit :=
  emit (EvLog level line).

(** [observer.next(step)]. *)
Definition next (step : CreateProgressStep) : M W unit :=
  emit (EvProgress step).

Definition isAddress (address : option string) : bool :=
  isAddress_with (checkAddressChecksum ocean) address.

(** Modelled from the spec: [SubscribablePromise] (utils) is not among the
    sources.  It runs the executor, which notifies the observer of each
    step, and delivers the terminal value: the value the executor returns,
    or its error as a rejection. *)
Definition SubscribablePromise {A : Type} (executor : M W A)
    : M W (outcome A) :=
  fun w =>
    match executor w with
    | (r, w1, t) => (Ok r, w1, t)
    end.

(** Modelled from the spec: [DDO.addProof] is not among the sources.  It
    computes the checksum of the document, asks the signing collaborator
    for a signature over it and attaches
    [{checksum, creator, signatureValue}]; a signing failure propagates. *)
Definition addProof (ddo : DDO) (identity : string)
    (password : option string) : M W DDO :=
  let checksum := DDO_getChecksum ocean ddo in
  signature <-
    call (signature_signText ocean checksum identity password)
         (EvSignText checksum identity password) ;;
  ret {| id := id ddo;
         dataToken := dataToken ddo;
         authentication := authentication ddo;
         publicKey := publicKey ddo;
         service := service ddo;
         proof := Some {| proof_checksum := checksum;
                          proof_creator := identity;
                          signatureValue := signature |} |}.

(** Lines 108-191 of [create]: from the token address to the stored DDO. *)
Definition create_ddo (metadata : Metadata) (publisher : Account)
    (services : list Service) (dtAddress : string) : M W (option DDO) :=
  let did_getId := DID_getId ocean dtAddress in
  let did_getDid := DID_getDid ocean dtAddress in
  log LoggerLog EncryptingFilesLine ;;
  next EncryptingFiles ;;
  encryptedFiles <-
    call (provider_encrypt ocean did_getId (main_files (main metadata))
            publisher)
         (EvEncrypt did_getId (main_files (main metadata)) publisher) ;;
  log LoggerLog FilesEncryptedLine ;;
  next FilesEncrypted ;;
  files <- deref "map" (main_files (main metadata)) ;;
  let ddo :=
    {| id := did_getDid;
       dataToken := dtAddress;
       authentication :=
         [ {| auth_type := "RsaSignatureAuthentication2018";
              auth_publicKey := did_getDid |} ];
       publicKey :=
         [ {| pk_id := did_getDid;
              pk_type := "EthereumECDSAKey";
              pk_owner := getId publisher |} ];
       service :=
         buildServices
           (metadataService (metadataAttributes metadata encryptedFiles files))
           services;
       proof := None |} in
  log LoggerLog GeneratingProofLine ;;
  next GeneratingProof ;;
  ddo <- addProof ddo (getId publisher) (getPassword publisher) ;;
  log LoggerLog ProofGeneratedLine ;;
  next ProofGenerated ;;
  log LoggerLog StoringDDOLine ;;
  next StoringDdo ;;
  storeTx <-
    call (onchain_publish ocean (id ddo) ddo (getId publisher))
         (EvPublish (id ddo) ddo (getId publisher)) ;;
  log LoggerLog (DDOStoredLine (id ddo)) ;;
  next DdoStored ;;
  if (storeTx : bool) then ret (Some ddo) else ret None.

(** The executor handed to [SubscribablePromise] (lines 78-192). *)
Definition create_executor (metadata : Metadata) (publisher : Account)
    (services : list Service) (dtAddress cap name symbol : option string)
    : M W (option DDO) :=
  (if (List.length services =? 0)%nat then log LoggerLog NoServices
   else ret tt) ;;
  if negb (truthy dtAddress) then
    log LoggerLog CreatingDatatoken ;;
    next CreatingDataToken ;;
    let metadataStoreURI := metadatastore_getURI ocean in
    let jsonBlob := {| blob_t := 1; blob_url := metadataStoreURI |} in
    dtAddress <-
      call (datatokens_create ocean jsonBlob (getId publisher) cap name symbol)
           (EvDatatokensCreate jsonBlob (getId publisher) cap name symbol) ;;
    if negb (isAddress dtAddress) then
      log LoggerError (CreatedAddressNotValid dtAddress) ;;
      ret None
    else
      log LoggerLog (DataTokenCreatedLine (toString dtAddress)) ;;
      next DataTokenCreated ;;
      create_ddo metadata publisher services (toString dtAddress)
  else
    create_ddo metadata publisher services (toString dtAddress).

(** [create] (lines 61-193).  The result is [None] when [create] returns
    [null] instead of a promise; otherwise it is the terminal value of
    the promise: [Ok (Some ddo)], [Ok None] for [null], or a rejection. *)
Definition create (metadata : Metadata) (publisher : Account)
    (services : list Service) (dtAddress cap name symbol : option string)
    : M W (option (outcome (option DDO))) :=
  if negb (isAddress dtAddress) then
    log LoggerError (PassedAddressNotValid dtAddress) ;;
    ret None
  else
    log LoggerLog CreatingAsset ;;
    terminal <-
      SubscribablePromise
        (create_executor metadata publisher services dtAddress cap name
           symbol) ;;
    ret (Some terminal).

(** [resolve] (lines 209-211). *)
Definition resolve (did : string) : M W (option DDO) :=
  call (metadatastore_retrieveDDO ocean did) (EvRetrieveDDO did).

(** [updateComputePrivacy] (lines 287-308). *)
Definition updateComputePrivacy (did : string) (serviceIndex : Z)
    (computePrivacy : ServiceComputePrivacy) (account : Account)
    : M W (option DDO) :=
  oldDdo <- call (metadatastore_retrieveDDO ocean did) (EvRetrieveDDO did) ;;
  oldDdo <- deref "service" oldDdo ;;
  serv <- deref "type" (service_at (service oldDdo) serviceIndex) ;;
  if negb (String.eqb (type serv) "compute") then ret None
  else
    _ <- deref "allowRawAlgorithm" (main_privacy (main (attributes serv))) ;;
    let newMain :=
      {| main_name := main_name (main (attributes serv));
         main_creator := main_creator (main (attributes serv));
         main_datePublished := main_datePublished (main (attributes serv));
         main_cost := main_cost (main (attributes serv));
         main_timeout := main_timeout (main (attributes serv));
         main_files := main_files (main (attributes serv));
         main_privacy :=
           Some {| allowRawAlgorithm := allowRawAlgorithm computePrivacy;
                   allowNetworkAccess := allowNetworkAccess computePrivacy;
                   trustedAlgorithms := trustedAlgorithms computePrivacy |} |} in
    let newServ :=
      {| type := type serv;
         index := index serv;
         serviceEndpoint := serviceEndpoint serv;
         attributes :=
           {| main := newMain;
              encryptedFiles := encryptedFiles (attributes serv);
              curation := curation (attributes serv);
              additionalInformation :=
                additionalInformation (attributes serv) |} |} in
    let oldDdo :=
      {| id := id oldDdo;
         dataToken := dataToken oldDdo;
         authentication := authentication oldDdo;
         publicKey := publicKey oldDdo;
         service := replace_at (service oldDdo) (Z.to_nat serviceIndex) newServ;
         proof := proof oldDdo |} in
    storeTx <-
      call (onchain_update ocean (id oldDdo) oldDdo (getId account))
           (EvUpdate (id oldDdo) oldDdo (getId account)) ;;
    if (storeTx : bool) then ret (Some oldDdo) else ret None.

(** [creator] (lines 315-328). *)
Definition creator (did : string) : M W string :=
  ddo <- resolve did ;;
  ddo <- deref "getChecksum" ddo ;;
  let checksum := DDO_getChecksum ocean ddo in
  p <- deref "creator" (proof ddo) ;;
  signer <-
    call (signature_verifyText ocean checksum (signatureValue p))
         (EvVerifyText checksum (signatureValue p)) ;;
  (if negb (String.eqb (toLowerCase signer) (toLowerCase (proof_creator p)))
   then log LoggerWarn (OwnerDoesNotMatch (id ddo) (proof_creator p) signer)
   else ret tt) ;;
  ret (proof_creator p).

(** [getServiceByType] (lines 358-370). *)
Definition getServiceByType (did serviceType : string)
    : M W (option Service) :=
  ddo <- resolve did ;;
  ddo <- deref "service" ddo ;;
  ret (lastMatching (fun serv => String.eqb (type serv) serviceType)
         (service ddo)).

(** [getServiceByIndex] (lines 372-384). *)
Definition getServiceByIndex (did : string) (serviceIndex : Z)
    : M W (option Service) :=
  ddo <- resolve did ;;
  ddo <- deref "service" ddo ;;
  ret (lastMatching (fun serv => index serv =? serviceIndex) (service ddo)).

(** [initialize] (lines 427-442). *)
Definition initialize (did serviceType consumerAddress : string)
    (serviceIndex : Z) : M W (option ProviderData) :=
  res <-
    call (provider_initialize ocean did serviceIndex serviceType
            consumerAddress)
         (EvInitialize did serviceIndex serviceType consumerAddress) ;;
  match res with
  | None => ret None
  | Some res =>
      match JSON_parse ocean res with
      | Ok providerData => ret providerData
      | Raise e => raise e
      end
  end.

(** The body of the [try] block of [order] (lines 469-509), for the
    resolved [serviceType] and [serviceIndex].  A [return] inside [try]
    leaves [order] with its value; reaching the end of the block leads to
    the final [return null] of line 513, hence [None]. *)
Definition order_try (did serviceType consumerAddress : string)
    (serviceIndex : Z) (mpAddress : option string) : M W (option string) :=
  providerData <- initialize did serviceType consumerAddress serviceIndex ;;
  match providerData with
  | None => ret None
  | Some providerData =>
      service <- getServiceByIndex did serviceIndex ;;
      service <- deref "attributes" service ;;
      previousOrder <-
        call (datatokens_getPreviousValidOrders ocean
                (pd_dataToken providerData) (numTokens providerData)
                (didZeroX ocean did) serviceIndex
                (main_timeout (main (attributes service)))
                consumerAddress)
             (EvGetPreviousValidOrders
                (pd_dataToken providerData) (numTokens providerData)
                (didZeroX ocean did) serviceIndex
                (main_timeout (main (attributes service)))
                consumerAddress) ;;
      if truthy previousOrder then ret previousOrder
      else
        balance <-
          call (datatokens_balance ocean (pd_dataToken providerData)
                  consumerAddress)
               (EvBalance (pd_dataToken providerData) consumerAddress) ;;
        let totalCost := fromWei (numTokens providerData) in
        if Qle_bool balance totalCost then
          log ConsoleError (NotEnoughFunds totalCost balance) ;;
          ret None
        else
          txid <-
            call (datatokens_startOrder ocean (pd_dataToken providerData)
                    (fromWei (numTokens providerData))
                    (didZeroX ocean did) serviceIndex mpAddress
                    consumerAddress)
                 (EvStartOrder (pd_dataToken providerData)
                    (fromWei (numTokens providerData))
                    (didZeroX ocean did) serviceIndex mpAddress
                    consumerAddress) ;;
          match txid with
          | Some receipt => ret (Some (transactionHash receipt))
          | None => ret None
          end
  end.

(** Lines 460-466 of [order]: the service is looked up by type when
    [serviceIndex] is -1 and by index otherwise; the result is the pair of
    [serviceType] and [serviceIndex] used from there on. *)
Definition order_target (did serviceType : string) (serviceIndex : Z)
    : M W (string * Z) :=
  if serviceIndex =? -1 then
    service <- getServiceByType did serviceType ;;
    service <- deref "index" service ;;
    ret (serviceType, index service)
  else
    service <- getServiceByIndex did serviceIndex ;;
    service <- deref "type" service ;;
    ret (type service, serviceIndex).

(** [order] (lines 453-514): whatever the [try] block throws is caught
    and logged, and [order] then returns null. *)
Definition order (did serviceType consumerAddress : string)
    (serviceIndex : Z) (mpAddress : option string) : M W (option string) :=
  target <- order_target did serviceType serviceIndex ;;
  try_catch
    (order_try did (fst target) consumerAddress (snd target) mpAddress)
    (fun e => log ConsoleError (Caught e) ;; ret None).

(** What the [try] block yields once the ledger has answered the
    payment call (lines 501-509). *)
Definition paymentResult (answer : outcome (option TransactionReceipt))
    : outcome (option string) :=
  match answer with
  | Ok (Some receipt) => Ok (Some (transactionHash receipt))
  | Ok None => Ok None
  | Raise e => Raise e
  end.

(** Modelled from the spec: [DDO.findServiceByType] is not among the
    sources; it "locates the [access] service" of the document, here the
    first service of the type in document order. *)
Definition findServiceByType (ddo : DDO) (serviceType : string)
    : option Service :=
  find (fun s => String.eqb (type s) serviceType) (service ddo).

(** The text of the error [download] throws. *)
Definition MissingEndpoint : exn :=
  Error
    "Consume asset failed, service definition is missing the `serviceEndpoint`.".

(** [download] (lines 517-553). *)
Definition download (did txId tokenAddress : string)
    (consumerAccount : Account) (destination : option string) : M W bool :=
  ddo <- resolve did ;;
  ddo <- deref "findServiceByType" ddo ;;
  metadataService <- deref "attributes" (findServiceByType ddo "metadata") ;;
  let service := findServiceByType ddo "access" in
  let files := main_files (main (attributes metadataService)) in
  service <- deref "serviceEndpoint" service ;;
  if negb (truthy (serviceEndpoint service)) then raise MissingEndpoint
  else
    log LoggerLog ConsumingFiles ;;
    let destination :=
      if truthy destination then
        Some (toString destination ++ "/datafile." ++ DDO_shortId ocean ddo
              ++ "." ++ Z_toString (index service) ++ "/")%string
      else None in
    call (provider_download ocean did txId tokenAddress (type service)
            (Z_toString (index service)) destination consumerAccount files)
         (EvDownload did txId tokenAddress (type service)
            (Z_toString (index service)) destination consumerAccount files) ;;
    ret true.

End Assets.

(* ------------------------------------------------------------------ *)
(** ** Reference definitions for the service list *)

Definition sameType (s t : Service) : bool := String.eqb (type t) (type s).

(** The entries that are the last of their type, in the order they have
    in the candidate list. *)
Fixpoint keepLast (l : list Service) : list Service :=
  match l with
  | [] => []
  | s :: r => if existsb (sameType s) r then keepLast r else s :: keepLast r
  end.

(** The entries that are the first of their type, given the entries
    [seen] before them. *)
Fixpoint keepFirst (seen l : list Service) : list Service :=
  match l with
  | [] => []
  | s :: r =>
      if existsb (sameType s) seen then keepFirst (seen ++ [s]) r
      else s :: keepFirst (seen ++ [s]) r
  end.

(** [s] occurs in [l] with no entry of its type after it. *)
Definition LastOfType (s : Service) (l : list Service) : Prop :=
  exists before after,
    l = before ++ s :: after /\
    forall t, In t after -> type t <> type s.

(** [l1] is [l2] with some entries left out. *)
Inductive Subseq : list Service -> list Service -> Prop :=
| Subseq_nil : Subseq [] []
| Subseq_skip : forall s l1 l2, Subseq l1 l2 -> Subseq l1 (s :: l2)
| Subseq_keep : forall s l1 l2, Subseq l1 l2 -> Subseq (s :: l1) (s :: l2).

(** The service list as the specification words it: one survivor per
    type, with the content of the last entry of the type, at the position
    of the first entry of the type. *)
Definition firstPositionLastContent (l : list Service) : list Service :=
  map (fun s =>
         match lastMatching (sameType s) l with
         | Some t => t
         | None => s
         end)
      (keepFirst [] l).

Definition specBuildServices (metadataSvc : Service) (services : list Service)
    : list Service :=
  addIndex (firstPositionLastContent (metadataSvc :: services)) 0.

(* ------------------------------------------------------------------ *)
(** ** Sample data *)

Module Sample.

Definition mainNamed (n : string) : Main :=
  {| main_name := Some n;
     main_creator := None;
     main_datePublished := None;
     main_cost := None;
     main_timeout := None;
     main_files := None;
     main_privacy := None |}.

Definition attributesNamed (n : string) : Attributes :=
  {| main := mainNamed n;
     encryptedFiles := None;
     curation := None;
     additionalInformation := None |}.

(** Two metadata entries with distinct payloads and an access entry. *)
Definition metadata0 : Service := metadataService (attributesNamed "first").

Definition metadata2 : Service := metadataService (attributesNamed "second").

Definition access : Service :=
  {| type := "access";
     index := 2;
     serviceEndpoint := Some "https://provider.example/consume";
     attributes :=
       {| main :=
            {| main_name := Some "dataAssetAccess";
               main_creator := Some "0xpublisher";
               main_datePublished := Some "2020-07-01";
               main_cost := Some "100";
               main_timeout := Some 3600;
               main_files := None;
               main_privacy := None |};
          encryptedFiles := None;
          curation := None;
          additionalInformation := None |} |}.

(** A token address: 0x and forty hexadecimal digits in lower case. *)
Definition tokenAddress : string := "0x721a45b6ef9c0367ed3e90082dbdf592b901c87c".

Definition publisher : Account :=
  {| getId := "0xpublisher"; getPassword := Some "secret" |}.

Definition consumer : Account :=
  {| getId := "0xconsumer"; getPassword := None |}.

Definition did : string := "did:op:asset".

Definition file : File :=
  {| file_url := Some "https://files.example/data.csv";
     file_index := None;
     file_contentType := "text/csv" |}.

(** The metadata handed to [create]. *)
Definition metadata : Metadata :=
  {| main :=
       {| main_name := Some "dataset";
          main_creator := None;
          main_datePublished := None;
          main_cost := None;
          main_timeout := None;
          main_files := Some [file];
          main_privacy := None |};
     encryptedFiles := None;
     curation := None;
     additionalInformation := None |}.

Definition proofBy (creator : string) : ProofRecord :=
  {| proof_checksum := "checksum";
     proof_creator := creator;
     signatureValue := "signature" |}.

(** A stored document with the given services, signed by the publisher. *)
Definition document (services : list Service) : DDO :=
  {| id := did;
     dataToken := tokenAddress;
     authentication := [];
     publicKey := [];
     service := services;
     proof := Some (proofBy "0xPublisher") |}.

(** The answers of collaborators that answer every call the same way. *)
Record Answers : Type := mkAnswers {
  ans_retrieveDDO : outcome (option DDO);
  ans_create : outcome (option string);
  ans_previousOrder : outcome (option string);
  ans_balance : outcome Q;
  ans_startOrder : outcome (option TransactionReceipt);
  ans_initialize : outcome (option string);
  ans_download : outcome unit;
  ans_publish : outcome bool;
  ans_update : outcome bool;
  ans_verifyText : outcome string
}.

(** Collaborators without state, answering as [a] says.  The quote is one
    hundred tokens: 100 * 10^18 wei. *)
Definition oceanOf (a : Answers) : Ocean unit :=
  {| metadatastore_getURI := "https://aquarius.example";
     metadatastore_retrieveDDO := fun _ w => (ans_retrieveDDO a, w);
     datatokens_create := fun _ _ _ _ _ w => (ans_create a, w);
     datatokens_getPreviousValidOrders :=
       fun _ _ _ _ _ _ w => (ans_previousOrder a, w);
     datatokens_balance := fun _ _ w => (ans_balance a, w);
     datatokens_startOrder := fun _ _ _ _ _ _ w => (ans_startOrder a, w);
     provider_encrypt := fun _ _ _ w => (Ok "encrypted", w);
     provider_initialize := fun _ _ _ _ w => (ans_initialize a, w);
     provider_download := fun _ _ _ _ _ _ _ _ w => (ans_download a, w);
     onchain_publish := fun _ _ _ w => (ans_publish a, w);
     onchain_update := fun _ _ _ w => (ans_update a, w);
     signature_signText := fun _ _ _ w => (Ok "signature", w);
     signature_verifyText := fun _ _ w => (ans_verifyText a, w);
     checkAddressChecksum := fun _ => false;
     DID_getId := fun address => strip_0x address;
     DID_getDid := fun address => ("did:op:" ++ strip_0x address)%string;
     didZeroX := fun d => ("0x" ++ d)%string;
     JSON_parse :=
       fun _ => Ok (Some {| pd_dataToken := tokenAddress;
                            numTokens := 100 * 10 ^ 18 |});
     DDO_getChecksum := fun _ => "checksum";
     DDO_shortId := fun _ => "asset" |}.

(** The document has the given services and there is no previous order;
    the balance, the answer to the payment, the answer of the index to
    publish and update, and the signer recovered from the proof are as
    given; everything else succeeds. *)
Definition answers (services : list Service) (balance : Q)
    (payment : outcome (option TransactionReceipt)) (stored : bool)
    (signer : string) : Answers :=
  {| ans_retrieveDDO := Ok (Some (document services));
     ans_create := Ok (Some tokenAddress);
     ans_previousOrder := Ok None;
     ans_balance := Ok balance;
     ans_startOrder := payment;
     ans_initialize := Ok (Some "quote");
     ans_download := Ok tt;
     ans_publish := Ok stored;
     ans_update := Ok stored;
     ans_verifyText := Ok signer |}.

Definition paid : outcome (option TransactionReceipt) :=
  Ok (Some {| transactionHash := "0xpayment" |}).

(** The services of a published asset. *)
Definition services : list Service :=
  [withIndex metadata0 0; withIndex access 1].

(** An access service without [serviceEndpoint]. *)
Definition accessWithoutEndpoint : Service :=
  {| type := "access";
     index := 1;
     serviceEndpoint := None;
     attributes := attributes access |}.

(** Collaborators for which everything succeeds, the consumer holding
    [balance] tokens. *)
Definition ocean (balance : Q) : Ocean unit :=
  oceanOf (answers services balance paid true "0xpublisher").

(** Collaborators whose ledger throws on the payment call; the consumer
    holds 101 tokens. *)
Definition oceanFailingPayment : Ocean unit :=
  oceanOf (answers services 101 (Raise (Thrown "revert")) true "0xpublisher").

End Sample.

(* ------------------------------------------------------------------ *)
(** ** A ledger that keeps the receipts of the orders *)

Module Ledger.

(** Modelled from the spec: the ledger behind [datatokens] is not among
    the sources.  An OrderReceipt records the transaction hash, the
    service index and the DID of an order, to which the model adds the
    consumer and the time of the order; "a receipt is reusable for a
    subsequent order of the same (did, serviceIndex, consumer) while
    now < orderTimestamp + timeout", the timeout being the one handed to
    the query. *)
Record OrderReceipt : Type := mkOrderReceipt {
  or_transactionHash : string;
  or_did : string;
  or_serviceIndex : Z;
  or_consumer : string;
  or_timestamp : Z
}.

(** The state of the ledger: the current time and the receipts, the most
    recent first. *)
Record State : Type := mkState {
  now : Z;
  receipts : list OrderReceipt
}.

(** Time passes between two calls of a workflow. *)
Definition tick (later : Z) (l : State) : State :=
  {| now := later; receipts := receipts l |}.

Definition reusable (did : string) (serviceIndex : Z) (consumer : string)
    (timeout : option Z) (time : Z) (o : OrderReceipt) : bool :=
  String.eqb (or_did o) did
  && (or_serviceIndex o =? serviceIndex)
  && String.eqb (or_consumer o) consumer
  && match timeout with
     | Some t => time <? or_timestamp o + t
     | None => false
     end.

(** Modelled from the spec: [getPreviousValidOrder(token, amount, did,
    serviceIndex, timeout, consumer) -> receipt | null], "null means no
    reusable order". *)
Definition getPreviousValidOrders (did : string) (serviceIndex : Z)
    (timeout : option Z) (consumer : string) (l : State) : option string :=
  option_map or_transactionHash
    (find (reusable did serviceIndex consumer timeout (now l)) (receipts l)).

(** Modelled from the spec: [startOrder(token, amount, did, serviceIndex,
    feeCollector, consumer) -> receipt], "receipt contains a transaction
    identifier"; [hash n] is the identifier of the order placed after [n]
    others. *)
Definition startOrder (hash : nat -> string) (did : string)
    (serviceIndex : Z) (consumer : string) (l : State)
    : TransactionReceipt * State :=
  let tx := hash (List.length (receipts l)) in
  ({| transactionHash := tx |},
   {| now := now l;
      receipts :=
        {| or_transactionHash := tx;
           or_did := did;
           or_serviceIndex := serviceIndex;
           or_consumer := consumer;
           or_timestamp := now l |} :: receipts l |}).

(** A collaborator without state of its own leaves the ledger as it is. *)
Definition stateless {A : Type} (answer : outcome A * unit) (l : State)
    : outcome A * State :=
  (fst answer, l).

(** The collaborators [base], which answer by their arguments alone, with
    the orders kept by the ledger above: a payment that [base] accepts is
    recorded with the current time, and the query for a previous order is
    answered from the records. *)
Definition withLedger (hash : nat -> string) (base : Ocean unit)
    : Ocean State :=
  {| metadatastore_getURI := metadatastore_getURI base;
     metadatastore_retrieveDDO :=
       fun did => stateless (metadatastore_retrieveDDO base did tt);
     datatokens_create :=
       fun blob publisher cap name symbol =>
         stateless (datatokens_create base blob publisher cap name symbol tt);
     datatokens_getPreviousValidOrders :=
       fun _ _ did serviceIndex timeout consumer l =>
         (Ok (getPreviousValidOrders did serviceIndex timeout consumer l), l);
     datatokens_balance :=
       fun token account => stateless (datatokens_balance base token account tt);
     datatokens_startOrder :=
       fun token amount did serviceIndex mpAddress consumer l =>
         match fst (datatokens_startOrder base token amount did serviceIndex
                      mpAddress consumer tt) with
         | Ok (Some _) =>
             (Ok (Some (fst (startOrder hash did serviceIndex consumer l))),
              snd (startOrder hash did serviceIndex consumer l))
         | failure => (failure, l)
         end;
     provider_encrypt :=
       fun did files publisher =>
         stateless (provider_encrypt base did files publisher tt);
     provider_initialize :=
       fun did serviceIndex serviceType consumer =>
         stateless
           (provider_initialize base did serviceIndex serviceType consumer tt);
     provider_download :=
       fun did txId token serviceType serviceIndex destination consumer files =>
         stateless
           (provider_download base did txId token serviceType serviceIndex
              destination consumer files tt);
     onchain_publish :=
       fun did ddo owner => stateless (onchain_publish base did ddo owner tt);
     onchain_update :=
       fun did ddo owner => stateless (onchain_update base did ddo owner tt);
     signature_signText :=
       fun checksum identity password =>
         stateless (signature_signText base checksum identity password tt);
     signature_verifyText :=
       fun checksum signature =>
         stateless (signature_verifyText base checksum signature tt);
     checkAddressChecksum := checkAddressChecksum base;
     DID_getId := DID_getId base;
     DID_getDid := DID_getDid base;
     didZeroX := didZeroX base;
     JSON_parse := JSON_parse base;
     DDO_getChecksum := DDO_getChecksum base;
     DDO_shortId := DDO_shortId base |}.

(** The hash of the n-th order of the sample ledger. *)
Definition sampleHash (n : nat) : string :=
  ("0xorder" ++ Z_toString (Z.of_nat n))%string.

(** A ledger without orders, at time 1000. *)
Definition empty : State := {| now := 1000; receipts := [] |}.

End Ledger.

(* ------------------------------------------------------------------ *)
(** ** More of [Assets]: editing and service attributes *)

(** [ServicePrices] of [EditableMetadata]. *)
Record ServicePrice : Type := mkServicePrice {
  sp_serviceIndex : Z;
  sp_cost : string
}.

(** [EditableMetadata]: every field is optional. *)
Record EditableMetadata : Type := mkEditableMetadata {
  em_title : option string;
  em_description : option string;
  em_links : option (list File);
  em_servicePrices : option (list ServicePrice)
}.

(** [additionalInformation] is kept in the document as an opaque value.
    [editMetadata] creates it with [Object()] and assigns its
    [description] and [links]; these three operations on the opaque value
    are taken as given. *)
Record InformationOps : Type := mkInformationOps {
  Object_new : string;
  set_description : string -> string -> string;
  set_links : string -> list File -> string
}.

(** A service with [attributes.main.name] assigned. *)
Definition withName (s : Service) (name : option string) : Service :=
  {| type := type s;
     index := index s;
     serviceEndpoint := serviceEndpoint s;
     attributes :=
       {| main :=
            {| main_name := name;
               main_creator := main_creator (main (attributes s));
               main_datePublished := main_datePublished (main (attributes s));
               main_cost := main_cost (main (attributes s));
               main_timeout := main_timeout (main (attributes s));
               main_files := main_files (main (attributes s));
               main_privacy := main_privacy (main (attributes s)) |};
          encryptedFiles := encryptedFiles (attributes s);
          curation := curation (attributes s);
          additionalInformation := additionalInformation (attributes s) |} |}.

(** A service with [attributes.additionalInformation] assigned. *)
Definition withInformation (s : Service) (info : option string) : Service :=
  {| type := type s;
     index := index s;
     serviceEndpoint := serviceEndpoint s;
     attributes :=
       {| main := main (attributes s);
          encryptedFiles := encryptedFiles (attributes s);
          curation := curation (attributes s);
          additionalInformation := info |} |}.

(** A service with [attributes.main.cost] assigned. *)
Definition withCost (s : Service) (cost : string) : Service :=
  {| type := type s;
     index := index s;
     serviceEndpoint := serviceEndpoint s;
     attributes :=
       {| main :=
            {| main_name := main_name (main (attributes s));
               main_creator := main_creator (main (attributes s));
               main_datePublished := main_datePublished (main (attributes s));
               main_cost := Some cost;
               main_timeout := main_timeout (main (attributes s));
               main_files := main_files (main (attributes s));
               main_privacy := main_privacy (main (attributes s)) |};
          encryptedFiles := encryptedFiles (attributes s);
          curation := curation (attributes s);
          additionalInformation := additionalInformation (attributes s) |} |}.

(** The body of the first loop of [editMetadata] (lines 248-257) for one
    service. *)
Definition editService (ops : InformationOps) (newMetadata : EditableMetadata)
    (s : Service) : Service :=
  if String.eqb (type s) "metadata" then
    let s1 :=
      if truthy (em_title newMetadata) then withName s (em_title newMetadata)
      else s in
    let information :=
      match additionalInformation (attributes s1) with
      | Some i => i
      | None => Object_new ops
      end in
    let information :=
      if truthy (em_description newMetadata)
      then set_description ops information (toString (em_description newMetadata))
      else information in
    let information :=
      match em_links newMetadata with
      | Some links => set_links ops information links
      | None => information
      end in
    withInformation s1 (Some information)
  else s.

(** [cost && serviceIndex] for a string and a number. *)
Definition priceApplies (p : ServicePrice) : bool :=
  truthy (Some (sp_cost p)) && negb (sp_serviceIndex p =? 0).

(** The second loop of [editMetadata] (lines 260-268):
    [oldDdo.service[serviceIndex].attributes.main.cost = cost] for every
    price with a truthy cost and a truthy index; reading [attributes] of a
    service that is not there throws. *)
Fixpoint applyServicePrices (prices : list ServicePrice)
    (services : list Service) : outcome (list Service) :=
  match prices with
  | [] => Ok services
  | p :: rest =>
      if priceApplies p then
        match service_at services (sp_serviceIndex p) with
        | Some s =>
            applyServicePrices rest
              (replace_at services (Z.to_nat (sp_serviceIndex p))
                 (withCost s (sp_cost p)))
        | None => Raise (TypeError "attributes")
        end
      else applyServicePrices rest services
  end.

(** A document with its services replaced. *)
Definition withServices (ddo : DDO) (services : list Service) : DDO :=
  {| id := id ddo;
     dataToken := dataToken ddo;
     authentication := authentication ddo;
     publicKey := publicKey ddo;
     service := services;
     proof := proof ddo |}.

Section AssetsEditing.

Context {W : Type}.
Variable ocean : Ocean W.
Variable ops : InformationOps.

(** [editMetadata] (lines 240-277). *)
Definition editMetadata (did : string) (newMetadata : EditableMetadata)
    (account : Account) : M W (option DDO) :=
  oldDdo <- call (metadatastore_retrieveDDO ocean did) (EvRetrieveDDO did) ;;
  oldDdo <- deref "service" oldDdo ;;
  let services := map (editService ops newMetadata) (service oldDdo) in
  services <-
    match em_servicePrices newMetadata with
    | Some prices =>
        match applyServicePrices prices services with
        | Ok services => ret services
        | Raise e => raise e
        end
    | None => ret services
    end ;;
  let oldDdo := withServices oldDdo services in
  storeTx <-
    call (onchain_update ocean (id oldDdo) oldDdo (getId account))
         (EvUpdate (id oldDdo) oldDdo (getId account)) ;;
  if (storeTx : bool) then ret (Some oldDdo) else ret None.

End AssetsEditing.

(** [createAccessServiceAttributes] (lines 394-414); [consumeEndpoint] is
    what [this.ocean.provider.getConsumeEndpoint()] returns, and [timeout]
    defaults to 0. *)
Definition createAccessServiceAttributes (consumeEndpoint : string)
    (creator : Account) (cost datePublished : string) (timeout : Z)
    : Service :=
  {| type := "access";
     index := 2;
     serviceEndpoint := Some consumeEndpoint;
     attributes :=
       {| main :=
            {| main_name := Some "dataAssetAccess";
               main_creator := Some (getId creator);
               main_datePublished := Some datePublished;
               main_cost := Some cost;
               main_timeout := Some timeout;
               main_files := None;
               main_privacy := None |};
          encryptedFiles := None;
          curation := None;
          additionalInformation := None |} |}.

(** The publish calls of a trace. *)
Definition is_publish (e : Event) : bool :=
  match e with
  | EvPublish _ _ _ _ => true
  | _ => false
  end.

(** The signature verifications of a trace. *)
Definition is_verifyText (e : Event) : bool :=
  match e with
  | EvVerifyText _ _ _ => true
  | _ => false
  end.

(** The signing calls of a trace. *)
Definition is_signText (e : Event) : bool :=
  match e with
  | EvSignText _ _ _ _ => true
  | _ => false
  end.

(** The six steps [create] emits once the token address is known. *)
Definition publishSteps : list CreateProgressStep :=
  [EncryptingFiles; FilesEncrypted; GeneratingProof; ProofGenerated;
   StoringDdo; DdoStored].

(** [l1] is an initial segment of [l2]. *)
Fixpoint isPrefix (l1 l2 : list CreateProgressStep) : Prop :=
  match l1, l2 with
  | [], _ => True
  | x :: r1, y :: r2 => x = y /\ isPrefix r1 r2
  | _ :: _, [] => False
  end.

(** A service without its [index]. *)
Definition content (s : Service) : string * option string * Attributes :=
  (type s, serviceEndpoint s, attributes s).

(* ------------------------------------------------------------------ *)
(** ** The pool factory (src/balancer/PoolFactory.ts) *)

Module PoolFactory.

(** A field of type [string] that can also hold [null], or be left
    [undefined] when nothing was assigned to it. *)
Inductive jsString : Type :=
| Undefined
| Null
| Str (s : string).

Section Factory.

(** [Web3] objects and ABIs are opaque; [jsonFactoryABI] is the ABI of
    [BFactory.json]. *)
Variables Web3 ABI : Type.
Variable jsonFactoryABI : ABI.

Record Instance : Type := mkInstance {
  GASLIMIT_DEFAULT : Z;
  web3 : option Web3;
  factoryABI : ABI;
  factoryAddress : jsString
}.

(** The constructor (lines 14-30).  The fields start as declared:
    [GASLIMIT_DEFAULT = 1000000], [web3 = null], [factoryAddress] without
    a value.  The parameters [factoryABI] and [factoryAddress] default to
    [null] ([None]); [gaslimit] is optional, [None] standing for its
    absence. *)
Definition new (web3_ : option Web3) (factoryABI_ : option ABI)
    (factoryAddress_ : option string) (gaslimit : option Z) : Instance :=
  {| GASLIMIT_DEFAULT :=
       match gaslimit with
       | Some g => if g =? 0 then 1000000 else g
       | None => 1000000
       end;
     web3 := web3_;
     factoryABI :=
       match factoryABI_ with
       | Some abi => abi
       | None => jsonFactoryABI
       end;
     factoryAddress :=
       if truthy factoryAddress_ then Str (toString factoryAddress_)
       else Undefined |}.

(** What [createPool] does, in order. *)
Inductive PoolEvent : Type :=
| LogError (message : string)
| NewContract (web3_ : Web3) (abi : ABI) (address : jsString)
    (from : string) (r : outcome unit)
| SendNewBPool (from : string) (gas : Z) (r : outcome TransactionReceipt).

(** The chain behind [web3]: building the contract object and sending the
    [newBPool] transaction may both throw, and may change the state [C]
    of the chain. *)
Variable C : Type.
Variable contract : Web3 -> ABI -> jsString -> string -> C -> outcome unit * C.
Variable send : string -> Z -> C -> outcome TransactionReceipt * C.

(** [e.message] of a thrown error. *)
Definition message (e : exn) : string :=
  match e with
  | TypeError m => m
  | Error m => m
  | Thrown m => m
  end.

(** [createPool] (lines 35-59). *)
Definition createPool (this : Instance) (account : string) (c : C)
    : outcome (option TransactionReceipt) * C * list PoolEvent :=
  match web3 this with
  | None => (Ok None, c, [LogError "ERROR: Web3 object is null"])
  | Some w =>
      match factoryAddress this with
      | Null => (Ok None, c, [LogError "ERROR: bfactoryAddress is null"])
      | address =>
          match contract w (factoryABI this) address account c with
          | (Raise e, c1) =>
              (Raise e, c1,
               [NewContract w (factoryABI this) address account (Raise e)])
          | (Ok tt, c1) =>
              match send account (GASLIMIT_DEFAULT this) c1 with
              | (Ok txid, c2) =>
                  (Ok (Some txid), c2,
                   [NewContract w (factoryABI this) address account (Ok tt);
                    SendNewBPool account (GASLIMIT_DEFAULT this) (Ok txid)])
              | (Raise e, c2) =>
                  (Ok None, c2,
                   [NewContract w (factoryABI this) address account (Ok tt);
                    SendNewBPool account (GASLIMIT_DEFAULT this) (Raise e);
                    LogError
                      ("ERROR: Failed to create new pool: " ++ message e)%string])
              end
          end
      end
  end.


End Factory.

End PoolFactory.

(* ------------------------------------------------------------------ *)
(** ** The document [create] assembles *)

(** The object handed to [new DDO] (lines 122-174), for the encrypted
    files [encrypted] and the declared [files]. *)
Definition assembledDDO {W : Type} (ocean : Ocean W) (metadata : Metadata)
    (publisher : Account) (services : list Service) (dtAddress : string)
    (encrypted : string) (files : list File) : DDO :=
  {| id := DID_getDid ocean dtAddress;
     dataToken := dtAddress;
     authentication :=
       [ {| auth_type := "RsaSignatureAuthentication2018";
            auth_publicKey := DID_getDid ocean dtAddress |} ];
     publicKey :=
       [ {| pk_id := DID_getDid ocean dtAddress;
            pk_type := "EthereumECDSAKey";
            pk_owner := getId publisher |} ];
     service :=
       buildServices
         (metadataService (metadataAttributes metadata encrypted files))
         services;
     proof := None |}.

(** A document with the proof [addProof] attaches for the signature
    [signature]. *)
Definition withProof {W : Type} (ocean : Ocean W) (ddo : DDO)
    (identity signature : string) : DDO :=
  {| id := id ddo;
     dataToken := dataToken ddo;
     authentication := authentication ddo;
     publicKey := publicKey ddo;
     service := service ddo;
     proof := Some {| proof_checksum := DDO_getChecksum ocean ddo;
                      proof_creator := identity;
                      signatureValue := signature |} |}.

(* ------------------------------------------------------------------ *)
(** ** More sample data *)

Module More.

(** A run of [create] for a supplied address, every collaborator
    succeeding. *)
Definition published : outcome (option (outcome (option DDO))) * unit
                       * list Event :=
  create (Sample.ocean 0) Sample.metadata Sample.publisher [Sample.access]
    (Some Sample.tokenAddress) None None None tt.

(** A metadata service of the caller's own, its file with a URL. *)
Definition ownMetadata : Service :=
  {| type := "metadata";
     index := 7;
     serviceEndpoint := None;
     attributes := Sample.metadata |}.

(** The same run with [ownMetadata] among the services. *)
Definition publishedOwn : outcome (option (outcome (option DDO))) * unit
                          * list Event :=
  create (Sample.ocean 0) Sample.metadata Sample.publisher
    [ownMetadata; Sample.access] (Some Sample.tokenAddress) None None None tt.

(** Collaborators whose metadata index throws on publish and update. *)
Definition oceanIndexDown : Ocean unit :=
  Sample.oceanOf
    {| Sample.ans_retrieveDDO := Ok (Some (Sample.document Sample.services));
       Sample.ans_create := Ok (Some Sample.tokenAddress);
       Sample.ans_previousOrder := Ok None;
       Sample.ans_balance := Ok 0%Q;
       Sample.ans_startOrder := Sample.paid;
       Sample.ans_initialize := Ok (Some "quote");
       Sample.ans_download := Ok tt;
       Sample.ans_publish := Raise (Thrown "index down");
       Sample.ans_update := Raise (Thrown "index down");
       Sample.ans_verifyText := Ok "0xpublisher" |}.

Definition rejected : outcome (option (outcome (option DDO))) * unit
                      * list Event :=
  create oceanIndexDown Sample.metadata Sample.publisher [Sample.access]
    (Some Sample.tokenAddress) None None None tt.

(** An order by a consumer who holds 101 tokens, for the access service. *)
Definition ordered : outcome (option string) * unit * list Event :=
  order (Sample.ocean 101) Sample.did "access" "0xconsumer" (-1) None tt.

(** An order for a type of service the document does not have. *)
Definition orderedCompute : outcome (option string) * unit * list Event :=
  order (Sample.ocean 101) Sample.did "compute" "0xconsumer" (-1) None tt.

(** A compute service with privacy settings [p]. *)
Definition computeWith (p : option ServiceComputePrivacy) : Service :=
  {| type := "compute";
     index := 1;
     serviceEndpoint := Some "https://provider.example/compute";
     attributes :=
       {| main :=
            {| main_name := Some "dataAssetComputingService";
               main_creator := Some "0xpublisher";
               main_datePublished := Some "2020-07-01";
               main_cost := Some "100";
               main_timeout := Some 3600;
               main_files := None;
               main_privacy := p |};
          encryptedFiles := None;
          curation := None;
          additionalInformation := None |} |}.

Definition strict : ServiceComputePrivacy :=
  {| allowRawAlgorithm := false;
     allowNetworkAccess := false;
     trustedAlgorithms := [] |}.

Definition privacy : ServiceComputePrivacy :=
  {| allowRawAlgorithm := true;
     allowNetworkAccess := false;
     trustedAlgorithms := ["did:op:algorithm"] |}.

(** Collaborators whose document has a metadata service and the compute
    service [computeWith p]. *)
Definition oceanCompute (p : option ServiceComputePrivacy) : Ocean unit :=
  Sample.oceanOf
    (Sample.answers [withIndex Sample.metadata0 0; computeWith p] 0
       Sample.paid true "0xpublisher").

Definition privacyUpdated : outcome (option DDO) * unit * list Event :=
  updateComputePrivacy (oceanCompute (Some strict)) Sample.did 1 privacy
    Sample.publisher tt.

(** The additional information as a text. *)
Definition ops : InformationOps :=
  {| Object_new := "{}";
     set_description := fun info d => (info ++ " description=" ++ d)%string;
     set_links := fun info _ => (info ++ " links")%string |}.

(** An edit of the title, the description and the price of the service at
    position [position]. *)
Definition edit (position : Z) : EditableMetadata :=
  {| em_title := Some "new title";
     em_description := Some "new description";
     em_links := None;
     em_servicePrices :=
       Some [ {| sp_serviceIndex := position; sp_cost := "250" |} ] |}.

Definition edited : outcome (option DDO) * unit * list Event :=
  editMetadata (Sample.ocean 0) ops Sample.did (edit 1) Sample.publisher tt.

(** The document [edited] sends to the metadata index. *)
Definition editedDocument : DDO :=
  withServices (Sample.document Sample.services)
    [ editService ops (edit 1) (withIndex Sample.metadata0 0);
      withCost (withIndex Sample.access 1) "250" ].

(** Asking for the creator of the sample document. *)
Definition asked : outcome string * unit * list Event :=
  creator (Sample.ocean 0) Sample.did tt.

Definition downloaded : outcome bool * unit * list Event :=
  download (Sample.ocean 0) Sample.did "0xpayment" Sample.tokenAddress
    Sample.consumer (Some "/tmp") tt.





End More.

(** How lines 460-466 of [order] resolve the service in a document: by
    type when [serviceIndex] is -1, by index otherwise; [target] is the
    pair of type and index used afterwards. *)
Definition resolved (ddo : DDO) (serviceType : string) (serviceIndex : Z)
    (target : string * Z) : Prop :=
  exists s,
    if serviceIndex =? -1 then
      lastMatching (fun serv => String.eqb (type serv) serviceType)
        (service ddo) = Some s /\
      target = (serviceType, index s)
    else
      lastMatching (fun serv => index serv =? serviceIndex) (service ddo)
      = Some s /\
      target = (type s, serviceIndex).

(** What an edit returns once the metadata index has answered the update
    call: [if (storeTx) return oldDdo; else return null]. *)
Definition storedResult (ddo : DDO) (answer : outcome bool)
    : outcome (option DDO) :=
  match answer with
  | Ok true => Ok (Some ddo)
  | Ok false => Ok None
  | Raise e => Raise e
  end.

(** The cost assigned to position [i] by the last price of the list that
    applies to it, if any. *)
Fixpoint lastPriceFor (prices : list ServicePrice) (i : Z) : option string :=
  match prices with
  | [] => None
  | p :: rest =>
      match lastPriceFor rest i with
      | Some c => Some c
      | None =>
          if priceApplies p && (sp_serviceIndex p =? i) then Some (sp_cost p)
          else None
      end
  end.

(** A service with the cost of a price, if there is one. *)
Definition repriced (s : Service) (cost : option string) : Service :=
  match cost with
  | Some c => withCost s c
  | None => s
  end.

(* ------------------------------------------------------------------ *)
(** * Properties *)

(** ** The service list of a new DDO *)

Section ServiceList.

Lemma sameType_refl (s : Service) : sameType s s = true.
Proof. apply String.eqb_refl. Qed.

Lemma sameType_true (s t : Service) : sameType s t = true <-> type t = type s.
Proof. apply String.eqb_eq. Qed.

Lemma existsb_sameType_false (s : Service) (l : list Service) :
  existsb (sameType s) l = false <-> forall t, In t l -> type t <> type s.
Proof.
  induction l as [|x l IH]; simpl.
  - split; [intros _ t [] | reflexivity].
  - rewrite orb_false_iff, IH. split.
    + intros [Hx Hl] t [<- | Ht]; [|now apply Hl].
      intro E. apply sameType_true in E. congruence.
    + intros H. split.
      * destruct (sameType s x) eqn:E; [|reflexivity].
        apply sameType_true in E. now apply H in E; [|left].
      * intros t Ht. apply H. now right.
Qed.

Lemma existsb_rev (A : Type) (p : A -> bool) (l : list A) :
  existsb p (rev l) = existsb p l.
Proof.
  induction l as [|x l IH]; simpl; [reflexivity|].
  rewrite existsb_app, IH. simpl. rewrite orb_false_r. apply orb_comm.
Qed.

(** [findIndex] stops inside a prefix that holds a match. *)
Lemma findIndex_from_seen (A : Type) (p : A -> bool) (pre rest : list A) (k : Z) :
  existsb p pre = true ->
  findIndex_from p (pre ++ rest) k < k + Z.of_nat (List.length pre).
Proof.
  revert k. induction pre as [|x pre IH]; simpl; intros k H; [discriminate|].
  destruct (p x); [lia|]. simpl in H. specialize (IH (k + 1) H). lia.
Qed.

(** [findIndex] walks through a prefix without a match. *)
Lemma findIndex_from_fresh (A : Type) (p : A -> bool) (pre : list A) (x : A)
    (rest : list A) (k : Z) :
  existsb p pre = false -> p x = true ->
  findIndex_from p (pre ++ x :: rest) k = k + Z.of_nat (List.length pre).
Proof.
  revert k. induction pre as [|y pre IH]; simpl; intros k H Hx.
  - rewrite Hx. lia.
  - apply orb_false_iff in H as [Hy H]. rewrite Hy, IH by assumption. lia.
Qed.

(** The callback of [filter] keeps exactly the first entry of each type. *)
Lemma filter_from_keepFirst (l seen : list Service) :
  filter_from
    (fun s i list =>
       findIndex (fun t => String.eqb (type t) (type s)) list =? i)
    (seen ++ l) l (Z.of_nat (List.length seen))
  = keepFirst seen l.
Proof.
  revert seen. induction l as [|x l IH]; intros seen; simpl; [reflexivity|].
  assert (Hnext : filter_from
            (fun s i list =>
               findIndex (fun t => String.eqb (type t) (type s)) list =? i)
            (seen ++ x :: l) l (Z.of_nat (List.length seen) + 1)
          = keepFirst (seen ++ [x]) l).
  { rewrite <- IH, <- app_assoc, length_app. simpl.
    f_equal. lia. }
  rewrite Hnext. unfold findIndex.
  destruct (existsb (sameType x) seen) eqn:E.
  - pose proof (findIndex_from_seen (sameType x) seen (x :: l) 0 E) as Hlt.
    unfold sameType in Hlt at 1.
    destruct (Z.eqb_spec
                (findIndex_from (fun t => String.eqb (type t) (type x))
                   (seen ++ x :: l) 0)
                (Z.of_nat (List.length seen))); [lia | reflexivity].
  - pose proof (findIndex_from_fresh (sameType x) seen x l 0 E
                  (sameType_refl x)) as Heq.
    unfold sameType in Heq at 1. rewrite Heq, Z.eqb_refl. reflexivity.
Qed.

Lemma keepFirst_snoc (l seen : list Service) (x : Service) :
  keepFirst seen (l ++ [x])
  = keepFirst seen l ++ (if existsb (sameType x) (seen ++ l) then [] else [x]).
Proof.
  revert seen. induction l as [|y l IH]; intros seen; simpl.
  - rewrite app_nil_r. now destruct (existsb (sameType x) seen).
  - rewrite IH, <- app_assoc. simpl.
    now destruct (existsb (sameType y) seen).
Qed.

(** Reversing, keeping the first of each type and reversing again keeps
    the last of each type. *)
Lemma removeDuplications_keepLast (l : list Service) :
  removeDuplications l = keepLast l.
Proof.
  unfold removeDuplications, filter_indexed.
  change (filter_from
            (fun s i list =>
               findIndex (fun t => String.eqb (type t) (type s)) list =? i)
            (rev l) (rev l) 0)
    with (filter_from
            (fun s i list =>
               findIndex (fun t => String.eqb (type t) (type s)) list =? i)
            ([] ++ rev l) (rev l) (Z.of_nat (List.length (@nil Service)))).
  rewrite filter_from_keepFirst.
  induction l as [|x l IH]; simpl; [reflexivity|].
  rewrite keepFirst_snoc, rev_app_distr, IH. simpl.
  rewrite existsb_rev. now destruct (existsb (sameType x) l).
Qed.

Lemma keepLast_Subseq (l : list Service) : Subseq (keepLast l) l.
Proof.
  induction l as [|x l IH]; simpl; [constructor|].
  destruct (existsb (sameType x) l); now constructor.
Qed.

Lemma Subseq_In (l1 l2 : list Service) (s : Service) :
  Subseq l1 l2 -> In s l1 -> In s l2.
Proof.
  induction 1; simpl; intuition.
Qed.

Lemma keepLast_In_iff (l : list Service) (s : Service) :
  In s (keepLast l) <-> LastOfType s l.
Proof.
  split.
  - induction l as [|x l IH]; simpl; [intros []|].
    destruct (existsb (sameType x) l) eqn:E.
    + intros H. destruct (IH H) as (b & a & -> & Ha).
      now exists (x :: b), a.
    + intros [<- | H].
      * exists [], l. split; [reflexivity|].
        now apply existsb_sameType_false.
      * destruct (IH H) as (b & a & -> & Ha). now exists (x :: b), a.
  - intros (b & a & -> & Ha).
    induction b as [|y b IH]; simpl.
    + apply existsb_sameType_false in Ha. rewrite Ha. now left.
    + destruct (existsb (sameType y) (b ++ s :: a)); [assumption | now right].
Qed.

Lemma keepLast_NoDup (l : list Service) : NoDup (map type (keepLast l)).
Proof.
  induction l as [|x l IH]; simpl; [constructor|].
  destruct (existsb (sameType x) l) eqn:E; [assumption|].
  simpl. constructor; [|assumption].
  intros H. apply in_map_iff in H as (t & Ht & Hin).
  apply (Subseq_In t (keepLast_Subseq l)) in Hin.
  rewrite existsb_sameType_false in E. now apply (E t).
Qed.

(** Every type of the candidate list has a survivor. *)
Lemma keepLast_types (l : list Service) (s : Service) :
  In s l -> exists t, In t (keepLast l) /\ type t = type s.
Proof.
  revert s. induction l as [|x l IH]; simpl; intros s; [intros []|].
  intros [<- | H].
  - destruct (existsb (sameType x) l) eqn:E.
    + apply existsb_exists in E as (t & Ht & E).
      apply sameType_true in E. destruct (IH t Ht) as (u & Hu & Eu).
      exists u. split; [assumption | congruence].
    + exists x. split; [now left | reflexivity].
  - destruct (IH s H) as (t & Ht & E). exists t.
    split; [|assumption].
    destruct (existsb (sameType x) l); [assumption | now right].
Qed.

Lemma addIndex_length (l : list Service) (k : Z) :
  List.length (addIndex l k) = List.length l.
Proof.
  revert k. induction l as [|x l IH]; intros k; simpl; [reflexivity|].
  now rewrite IH.
Qed.

(** [indexCount++] numbers the entries from [k] on. *)
Lemma addIndex_nth (l : list Service) (k : Z) (n : nat) (s : Service) :
  nth_error l n = Some s ->
  nth_error (addIndex l k) n = Some (withIndex s (k + Z.of_nat n)).
Proof.
  revert k n. induction l as [|x l IH]; intros k [|n]; simpl; try discriminate.
  - intros [= ->]. now rewrite Z.add_0_r.
  - intros H. rewrite (IH (k + 1) n H). do 2 f_equal. lia.
Qed.

Lemma addIndex_index (l : list Service) (k : Z) :
  map index (addIndex l k)
  = map (fun n => k + Z.of_nat n) (seq 0 (List.length l)).
Proof.
  revert k. induction l as [|x l IH]; intros k; simpl; [reflexivity|].
  rewrite Z.add_0_r. f_equal.
  rewrite IH, <- seq_shift, map_map.
  apply map_ext. intros n. lia.
Qed.

End ServiceList.

(** C1, as the specification states it, fails: on the candidate list
    [metadata, access, metadata] the builder returns
    [access, metadata(second payload)], whereas the specification asks for
    [metadata(second payload), access]. *)
Lemma buildServices_not_first_position :
  buildServices Sample.metadata0 [Sample.access; Sample.metadata2]
  = [withIndex Sample.access 0; withIndex Sample.metadata2 1]
  /\ specBuildServices Sample.metadata0 [Sample.access; Sample.metadata2]
     = [withIndex Sample.metadata2 0; withIndex Sample.access 1]
  /\ buildServices Sample.metadata0 [Sample.access; Sample.metadata2]
     <> specBuildServices Sample.metadata0 [Sample.access; Sample.metadata2].
Proof.
  split; [reflexivity|]. split; [reflexivity|].
  intros H. vm_compute in H. discriminate H.
Qed.

(** C1 (amended): for every candidate list
    [[defaultMetadataService, ...callerServices]] the builder keeps, for
    each service type, the last entry of that type and only that one; the
    survivors stand in the order they have in the candidate list, that is
    in the order of the last occurrences; the result carries the survivors
    unchanged but for their indices, which are 0..n-1.  In particular the
    types [metadata, access, metadata] yield [access, metadata] with
    indices 0 and 1, the metadata entry being the one of position 2. *)
Theorem buildServices_last_wins :
  (forall (metadataSvc : Service) (services : list Service),
      let candidates := metadataSvc :: services in
      let out := buildServices metadataSvc services in
      exists survivors,
        (forall s, In s survivors <-> LastOfType s candidates) /\
        NoDup (map type survivors) /\
        (forall s, In s candidates ->
                   exists t, In t survivors /\ type t = type s) /\
        Subseq survivors candidates /\
        List.length out = List.length survivors /\
        (forall n s, nth_error survivors n = Some s ->
                     nth_error out n = Some (withIndex s (Z.of_nat n))) /\
        map index out = map Z.of_nat (seq 0 (List.length out)))
  /\
  (forall (a0 : Attributes) (acc m2 : Service),
      type acc = "access" -> type m2 = "metadata" ->
      buildServices (metadataService a0) [acc; m2]
      = [withIndex acc 0; withIndex m2 1]).
Proof.
  split.
  - intros metadataSvc services candidates out.
    exists (keepLast candidates).
    assert (Hout : out = addIndex (keepLast candidates) 0).
    { unfold out, buildServices. now rewrite removeDuplications_keepLast. }
    split; [intros s; apply keepLast_In_iff|].
    split; [apply keepLast_NoDup|].
    split; [intros s; apply keepLast_types|].
    split; [apply keepLast_Subseq|].
    split; [rewrite Hout; apply addIndex_length|].
    split.
    + intros n s H. rewrite Hout. now apply addIndex_nth.
    + rewrite Hout, addIndex_index, addIndex_length. reflexivity.
  - intros a0 acc m2 Hacc Hm2.
    unfold buildServices. rewrite removeDuplications_keepLast.
    simpl. unfold sameType. simpl. rewrite Hacc, Hm2. reflexivity.
Qed.

Lemma buildServices_last_wins_witness :
  buildServices (metadataService (Sample.attributesNamed "first"))
    [Sample.access; Sample.metadata2]
  = [withIndex Sample.access 0; withIndex Sample.metadata2 1].
Proof.
  apply (proj2 buildServices_last_wins); reflexivity.
Defined.

(* ------------------------------------------------------------------ *)
(** ** Service lookups *)

Section Lookups.

Variable matches : Service -> bool.

Lemma lastMatching_snoc (l : list Service) (x : Service) :
  lastMatching matches (l ++ [x])
  = if matches x then Some x else lastMatching matches l.
Proof.
  unfold lastMatching. now rewrite fold_left_app.
Qed.

(** The callback of [forEach] leaves the last match in the variable. *)
Lemma lastMatching_Some (l : list Service) (s : Service) :
  lastMatching matches l = Some s ->
  exists before after,
    l = before ++ s :: after /\ matches s = true /\
    forall t, In t after -> matches t = false.
Proof.
  induction l as [|x l IH] using rev_ind; [discriminate|].
  rewrite lastMatching_snoc. destruct (matches x) eqn:E.
  - intros [= <-]. exists l, []. split; [reflexivity|].
    split; [assumption | intros t []].
  - intros H. destruct (IH H) as (b & a & -> & Hs & Ha).
    exists b, (a ++ [x]). split; [now rewrite <- app_assoc|].
    split; [assumption|].
    intros t Ht. apply in_app_or in Ht as [Ht | [<- | []]]; auto.
Qed.

(** The variable stays undefined when nothing matches. *)
Lemma lastMatching_None (l : list Service) :
  lastMatching matches l = None ->
  forall t, In t l -> matches t = false.
Proof.
  induction l as [|x l IH] using rev_ind; [intros _ t []|].
  rewrite lastMatching_snoc. destruct (matches x) eqn:E; [discriminate|].
  intros H t Ht. apply in_app_or in Ht as [Ht | [<- | []]]; auto.
Qed.

End Lookups.

(** C9: for every resolved document, [getServiceByType] and
    [getServiceByIndex] return the last descriptor in document order that
    matches the requested type or index when one or more match, and
    return undefined, without raising, when none matches. *)
Theorem service_lookups_return_last_match (W : Type) (ocean : Ocean W)
    (did : string) (ddo : DDO) (w w1 : W) :
  metadatastore_retrieveDDO ocean did w = (Ok (Some ddo), w1) ->
  (forall serviceType : string,
      exists found,
        getServiceByType ocean did serviceType w
        = (Ok found, w1, [EvRetrieveDDO did (Ok (Some ddo))]) /\
        match found with
        | Some s =>
            exists before after,
              service ddo = before ++ s :: after /\
              type s = serviceType /\
              forall t, In t after -> type t <> serviceType
        | None => forall t, In t (service ddo) -> type t <> serviceType
        end)
  /\
  (forall serviceIndex : Z,
      exists found,
        getServiceByIndex ocean did serviceIndex w
        = (Ok found, w1, [EvRetrieveDDO did (Ok (Some ddo))]) /\
        match found with
        | Some s =>
            exists before after,
              service ddo = before ++ s :: after /\
              index s = serviceIndex /\
              forall t, In t after -> index t <> serviceIndex
        | None => forall t, In t (service ddo) -> index t <> serviceIndex
        end).
Proof.
  intros Hdoc. split.
  - intros serviceType.
    exists (lastMatching (fun serv => String.eqb (type serv) serviceType)
              (service ddo)).
    split.
    + unfold getServiceByType, resolve, bind, call. rewrite Hdoc. reflexivity.
    + destruct (lastMatching _ (service ddo)) as [s|] eqn:E.
      * apply lastMatching_Some in E as (b & a & Hl & Hs & Ha).
        exists b, a. split; [assumption|].
        split; [now apply String.eqb_eq|].
        intros t Ht. apply String.eqb_neq. now apply Ha.
      * intros t Ht. apply String.eqb_neq.
        now apply (lastMatching_None _ _ E).
  - intros serviceIndex.
    exists (lastMatching (fun serv => index serv =? serviceIndex)
              (service ddo)).
    split.
    + unfold getServiceByIndex, resolve, bind, call. rewrite Hdoc. reflexivity.
    + destruct (lastMatching _ (service ddo)) as [s|] eqn:E.
      * apply lastMatching_Some in E as (b & a & Hl & Hs & Ha).
        exists b, a. split; [assumption|].
        split; [now apply Z.eqb_eq|].
        intros t Ht. apply Z.eqb_neq. now apply Ha.
      * intros t Ht. apply Z.eqb_neq.
        now apply (lastMatching_None _ _ E).
Qed.

Lemma service_lookups_return_last_match_witness :
  let ocean := Sample.ocean 0 in
  let ddo := Sample.document Sample.services in
  metadatastore_retrieveDDO ocean Sample.did tt = (Ok (Some ddo), tt) /\
  (forall serviceType : string,
      exists found,
        getServiceByType ocean Sample.did serviceType tt
        = (Ok found, tt, [EvRetrieveDDO Sample.did (Ok (Some ddo))]) /\
        match found with
        | Some s =>
            exists before after,
              service ddo = before ++ s :: after /\
              type s = serviceType /\
              forall t, In t after -> type t <> serviceType
        | None => forall t, In t (service ddo) -> type t <> serviceType
        end) /\
  (forall serviceIndex : Z,
      exists found,
        getServiceByIndex ocean Sample.did serviceIndex tt
        = (Ok found, tt, [EvRetrieveDDO Sample.did (Ok (Some ddo))]) /\
        match found with
        | Some s =>
            exists before after,
              service ddo = before ++ s :: after /\
              index s = serviceIndex /\
              forall t, In t after -> index t <> serviceIndex
        | None => forall t, In t (service ddo) -> index t <> serviceIndex
        end).
Proof.
  intros ocean ddo. split; [reflexivity|].
  apply (@service_lookups_return_last_match unit ocean Sample.did ddo tt tt).
  reflexivity.
Defined.

(* ------------------------------------------------------------------ *)
(** ** Editing the compute privacy *)

(** C10: when the service at the supplied [serviceIndex] is not of type
    [compute], [updateComputePrivacy] returns null; the only collaborator
    call of the run is the retrieval of the document, so the update
    operation of the metadata index is not called and the collaborators
    are left in the state the retrieval left them in. *)
Theorem updateComputePrivacy_not_compute (W : Type) (ocean : Ocean W)
    (did : string) (serviceIndex : Z) (computePrivacy : ServiceComputePrivacy)
    (account : Account) (ddo : DDO) (serv : Service) (w w1 : W) :
  metadatastore_retrieveDDO ocean did w = (Ok (Some ddo), w1) ->
  service_at (service ddo) serviceIndex = Some serv ->
  type serv <> "compute" ->
  exists trace,
    updateComputePrivacy ocean did serviceIndex computePrivacy account w
    = (Ok None, w1, trace) /\
    calls trace = [EvRetrieveDDO did (Ok (Some ddo))] /\
    existsb is_update trace = false.
Proof.
  intros Hdoc Hserv Htype.
  exists [EvRetrieveDDO did (Ok (Some ddo))].
  split; [|split; reflexivity].
  unfold updateComputePrivacy, bind, call. rewrite Hdoc. simpl.
  rewrite Hserv. simpl.
  apply String.eqb_neq in Htype. rewrite Htype. reflexivity.
Qed.

Lemma updateComputePrivacy_not_compute_witness :
  let ocean := Sample.ocean 0 in
  let privacy :=
    {| allowRawAlgorithm := true;
       allowNetworkAccess := false;
       trustedAlgorithms := [] |} in
  exists trace,
    updateComputePrivacy ocean Sample.did 1 privacy Sample.publisher tt
    = (Ok None, tt, trace) /\
    calls trace
    = [EvRetrieveDDO Sample.did (Ok (Some (Sample.document Sample.services)))]
    /\ existsb is_update trace = false.
Proof.
  intros ocean privacy.
  apply (@updateComputePrivacy_not_compute unit ocean Sample.did 1 privacy
           Sample.publisher (Sample.document Sample.services)
           (withIndex Sample.access 1) tt tt).
  - reflexivity.
  - reflexivity.
  - discriminate.
Defined.

(* ------------------------------------------------------------------ *)
(** ** The creator of an asset *)

(** C8: [creator] returns the creator field of the proof whatever
    identity the signature verification recovers.  When the recovered
    identity differs from the creator field the mismatch is logged as a
    warning and nothing is raised; when they agree nothing is logged. *)
Theorem creator_returns_proof_creator (W : Type) (ocean : Ocean W)
    (did : string) (ddo : DDO) (p : ProofRecord) (signer : string)
    (w w1 w2 : W) :
  metadatastore_retrieveDDO ocean did w = (Ok (Some ddo), w1) ->
  proof ddo = Some p ->
  signature_verifyText ocean (DDO_getChecksum ocean ddo) (signatureValue p) w1
  = (Ok signer, w2) ->
  let resolved := EvRetrieveDDO did (Ok (Some ddo)) in
  let verified :=
    EvVerifyText (DDO_getChecksum ocean ddo) (signatureValue p) (Ok signer) in
  let warning :=
    EvLog LoggerWarn (OwnerDoesNotMatch (id ddo) (proof_creator p) signer) in
  (toLowerCase signer <> toLowerCase (proof_creator p) ->
   creator ocean did w
   = (Ok (proof_creator p), w2, [resolved; verified; warning]))
  /\
  (toLowerCase signer = toLowerCase (proof_creator p) ->
   creator ocean did w = (Ok (proof_creator p), w2, [resolved; verified])).
Proof.
  intros Hdoc Hproof Hverify resolved verified warning.
  unfold creator, resolve, bind, call. rewrite Hdoc. simpl.
  rewrite Hproof. simpl. rewrite Hverify. simpl.
  split; intros H.
  - apply String.eqb_neq in H. rewrite H. reflexivity.
  - apply String.eqb_eq in H. rewrite H. reflexivity.
Qed.

Lemma creator_returns_proof_creator_witness :
  (let ocean :=
     Sample.oceanOf
       (Sample.answers Sample.services 0 Sample.paid true "0xintruder") in
   creator ocean Sample.did tt
   = (Ok "0xPublisher", tt,
      [EvRetrieveDDO Sample.did (Ok (Some (Sample.document Sample.services)));
       EvVerifyText "checksum" "signature" (Ok "0xintruder");
       EvLog LoggerWarn
         (OwnerDoesNotMatch Sample.did "0xPublisher" "0xintruder")]))
  /\
  (creator (Sample.ocean 0) Sample.did tt
   = (Ok "0xPublisher", tt,
      [EvRetrieveDDO Sample.did (Ok (Some (Sample.document Sample.services)));
       EvVerifyText "checksum" "signature" (Ok "0xpublisher")])).
Proof.
  split.
  - apply (@creator_returns_proof_creator unit
             (Sample.oceanOf
                (Sample.answers Sample.services 0 Sample.paid true
                   "0xintruder"))
             Sample.did (Sample.document Sample.services)
             (Sample.proofBy "0xPublisher") "0xintruder" tt tt tt
             eq_refl eq_refl eq_refl).
    discriminate.
  - apply (@creator_returns_proof_creator unit (Sample.ocean 0)
             Sample.did (Sample.document Sample.services)
             (Sample.proofBy "0xPublisher") "0xpublisher" tt tt tt
             eq_refl eq_refl eq_refl).
    reflexivity.
Defined.

(* ------------------------------------------------------------------ *)
(** ** Consuming an asset *)

(** C6: when the access service of the resolved document has no
    [serviceEndpoint] (the field is undefined, or an empty string, which
    [!serviceEndpoint] treats alike), [download] raises [MissingEndpoint]
    and the run has made no provider call, only the resolution of the
    document; when the endpoint is present the provider's download
    operation is invoked, and [download] returns [true] unless the
    provider throws. *)
Theorem download_requires_endpoint (W : Type) (ocean : Ocean W)
    (did txId tokenAddress : string) (consumerAccount : Account)
    (destination : option string) (ddo : DDO)
    (metadataSvc accessSvc : Service) (w w1 : W) :
  metadatastore_retrieveDDO ocean did w = (Ok (Some ddo), w1) ->
  findServiceByType ddo "metadata" = Some metadataSvc ->
  findServiceByType ddo "access" = Some accessSvc ->
  (truthy (serviceEndpoint accessSvc) = false ->
   download ocean did txId tokenAddress consumerAccount destination w
   = (Raise MissingEndpoint, w1, [EvRetrieveDDO did (Ok (Some ddo))])
   /\ existsb is_download [EvRetrieveDDO did (Ok (Some ddo))] = false)
  /\
  (truthy (serviceEndpoint accessSvc) = true ->
   exists folder answer w2 trace,
     download ocean did txId tokenAddress consumerAccount destination w
     = (match answer with Ok _ => Ok true | Raise e => Raise e end,
        w2, trace) /\
     provider_download ocean did txId tokenAddress (type accessSvc)
       (Z_toString (index accessSvc)) folder consumerAccount
       (main_files (main (attributes metadataSvc))) w1
     = (answer, w2) /\
     In (EvDownload did txId tokenAddress (type accessSvc)
           (Z_toString (index accessSvc)) folder consumerAccount
           (main_files (main (attributes metadataSvc))) answer)
        trace).
Proof.
  intros Hdoc Hmeta Haccess. split; intros Hendpoint.
  - split; [|reflexivity].
    unfold download, resolve, bind, call. rewrite Hdoc. simpl.
    rewrite Hmeta. simpl. rewrite Haccess. simpl.
    rewrite Hendpoint. reflexivity.
  - unfold download, resolve, bind, call. rewrite Hdoc. simpl.
    rewrite Hmeta. simpl. rewrite Haccess. simpl.
    rewrite Hendpoint. simpl.
    match goal with
    | |- context [provider_download ocean _ _ _ _ _ ?d _ _ w1] =>
        exists d;
        destruct (provider_download ocean did txId tokenAddress
                    (type accessSvc) (Z_toString (index accessSvc)) d
                    consumerAccount
                    (main_files (main (attributes metadataSvc))) w1)
          as [answer w2] eqn:E
    end.
    exists answer, w2. destruct answer as [[]|e]; simpl.
    + eexists. split; [reflexivity|]. split; [reflexivity|].
      simpl. auto.
    + eexists. split; [reflexivity|]. split; [reflexivity|].
      simpl. auto.
Qed.

Lemma download_requires_endpoint_witness :
  (let ocean :=
     Sample.oceanOf
       (Sample.answers
          [withIndex Sample.metadata0 0; Sample.accessWithoutEndpoint]
          0 Sample.paid true "0xpublisher") in
   let ddo :=
     Sample.document
       [withIndex Sample.metadata0 0; Sample.accessWithoutEndpoint] in
   download ocean Sample.did "0xpayment" Sample.tokenAddress Sample.consumer
     (Some "/tmp") tt
   = (Raise MissingEndpoint, tt, [EvRetrieveDDO Sample.did (Ok (Some ddo))])
   /\ existsb is_download [EvRetrieveDDO Sample.did (Ok (Some ddo))] = false)
  /\
  (exists folder answer w2 trace,
     download (Sample.ocean 0) Sample.did "0xpayment" Sample.tokenAddress
       Sample.consumer (Some "/tmp") tt
     = (match answer with Ok _ => Ok true | Raise e => Raise e end,
        w2, trace) /\
     provider_download (Sample.ocean 0) Sample.did "0xpayment"
       Sample.tokenAddress "access" "1" folder Sample.consumer None tt
     = (answer, w2) /\
     In (EvDownload Sample.did "0xpayment" Sample.tokenAddress "access" "1"
           folder Sample.consumer None answer)
        trace).
Proof.
  split.
  - intros ocean ddo.
    apply (@download_requires_endpoint unit ocean Sample.did "0xpayment"
             Sample.tokenAddress Sample.consumer (Some "/tmp") ddo
             (withIndex Sample.metadata0 0) Sample.accessWithoutEndpoint
             tt tt eq_refl eq_refl eq_refl).
    reflexivity.
  - apply (@download_requires_endpoint unit (Sample.ocean 0) Sample.did
             "0xpayment" Sample.tokenAddress Sample.consumer (Some "/tmp")
             (Sample.document Sample.services)
             (withIndex Sample.metadata0 0) (withIndex Sample.access 1)
             tt tt eq_refl eq_refl eq_refl).
    reflexivity.
Defined.

(* ------------------------------------------------------------------ *)
(** ** Runs of the monad *)

Section Runs.

Context {W : Type}.

Lemma ret_run (A : Type) (a : A) (w w' : W) (r : outcome A)
    (trace : list Event) :
  ret a w = (r, w', trace) -> r = Ok a /\ w' = w /\ trace = [].
Proof. now intros [= <- <- <-]. Qed.

Lemma raise_run (A : Type) (e : exn) (w w' : W) (r : outcome A)
    (trace : list Event) :
  raise e w = (r, w', trace) -> r = Raise e /\ w' = w /\ trace = [].
Proof. now intros [= <- <- <-]. Qed.

Lemma emit_run (ev : Event) (w w' : W) (r : outcome unit)
    (trace : list Event) :
  emit ev w = (r, w', trace) -> r = Ok tt /\ w' = w /\ trace = [ev].
Proof. now intros [= <- <- <-]. Qed.

Lemma call_run (A : Type) (op : W -> outcome A * W) (ev : outcome A -> Event)
    (w w' : W) (r : outcome A) (trace : list Event) :
  call op ev w = (r, w', trace) -> op w = (r, w') /\ trace = [ev r].
Proof.
  unfold call. destruct (op w) as [r0 w0]. now intros [= <- <- <-].
Qed.

(** A sequence either runs its first part to a value and continues, or
    stops where the first part throws. *)
Lemma bind_run (A B : Type) (m : M W A) (f : A -> M W B) (w w' : W)
    (r : outcome B) (trace : list Event) :
  bind m f w = (r, w', trace) ->
  (exists a w1 t1 t2,
      m w = (Ok a, w1, t1) /\ f a w1 = (r, w', t2) /\ trace = t1 ++ t2)
  \/ (exists e, m w = (Raise e, w', trace) /\ r = Raise e).
Proof.
  unfold bind. destruct (m w) as [[[a|e] w1] t1].
  - destruct (f a w1) as [[r2 w2] t2] eqn:E. intros [= <- <- <-].
    left. now exists a, w1, t1, t2.
  - intros [= <- <- <-]. right. now exists e.
Qed.

Lemma try_catch_run (A : Type) (m : M W A) (h : exn -> M W A) (w w' : W)
    (r : outcome A) (trace : list Event) :
  try_catch m h w = (r, w', trace) ->
  (exists a, m w = (Ok a, w', trace) /\ r = Ok a)
  \/ (exists e w1 t1 t2,
         m w = (Raise e, w1, t1) /\ h e w1 = (r, w', t2) /\
         trace = t1 ++ t2).
Proof.
  unfold try_catch. destruct (m w) as [[[a|e] w1] t1].
  - intros [= <- <- <-]. left. now exists a.
  - destruct (h e w1) as [[r2 w2] t2] eqn:E. intros [= <- <- <-].
    right. now exists e, w1, t1, t2.
Qed.

Lemma SubscribablePromise_run (A : Type) (executor : M W A) (w w' : W)
    (r : outcome (outcome A)) (trace : list Event) :
  SubscribablePromise executor w = (r, w', trace) ->
  exists terminal, executor w = (terminal, w', trace) /\ r = Ok terminal.
Proof.
  unfold SubscribablePromise. destruct (executor w) as [[r0 w0] t0].
  intros [= <- <- <-]. now exists r0.
Qed.

End Runs.

(** Splitting the equation of a run along the structure of the code. *)
Ltac invert_run_step :=
  match goal with
  | H : ret _ _ = (_, _, _) |- _ =>
      apply ret_run in H; destruct H as (? & ? & ?); subst
  | H : raise _ _ = (_, _, _) |- _ =>
      apply raise_run in H; destruct H as (? & ? & ?); subst
  | H : emit _ _ = (_, _, _) |- _ =>
      apply emit_run in H; destruct H as (? & ? & ?); subst
  | H : call _ _ _ = (_, _, _) |- _ =>
      apply call_run in H; destruct H as (H & ?); subst
  | H : SubscribablePromise _ _ = (_, _, _) |- _ =>
      apply SubscribablePromise_run in H; destruct H as (? & H & ?); subst
  | H : bind _ _ _ = (_, _, _) |- _ =>
      let H1 := fresh "Hrun" in
      let H2 := fresh "Hrun" in
      apply bind_run in H;
      destruct H as [(? & ? & ? & ? & H1 & H2 & ?) | (? & H1 & ?)];
      [cbv beta in H2 | ]; subst
  | H : try_catch _ _ _ = (_, _, _) |- _ =>
      let H1 := fresh "Hrun" in
      let H2 := fresh "Hrun" in
      apply try_catch_run in H;
      destruct H as [(? & H1 & ?) | (? & ? & ? & ? & H1 & H2 & ?)];
      [ | cbv beta in H2]; subst
  | H : (if ?b then _ else _) _ = (_, _, _) |- _ => destruct b eqn:?
  | H : match ?x with _ => _ end _ = (_, _, _) |- _ => destruct x eqn:?
  | H : Ok _ = Ok _ |- _ => injection H as H; subst
  | H : Ok _ = Raise _ |- _ => discriminate H
  | H : Raise _ = Ok _ |- _ => discriminate H
  | H : Raise _ = Raise _ |- _ => injection H as H; subst
  end.

Ltac invert_run := repeat invert_run_step.

(** Deciding membership of an entry in an explicit trace. *)
Ltac trace_cases H :=
  rewrite ?app_nil_r in H; simpl in H;
  repeat match type of H with
         | _ \/ _ => destruct H as [H | H]
         | False => contradiction
         | In _ (_ ++ _) => apply in_app_or in H; simpl in H
         end;
  try discriminate H.

Lemma calls_app (l1 l2 : list Event) :
  calls (l1 ++ l2) = calls l1 ++ calls l2.
Proof. apply filter_app. Qed.

Lemma ends_with_cons (x y : Event) (l : list Event) :
  (exists before, l = before ++ [y]) ->
  exists before, x :: l = before ++ [y].
Proof. intros [b ->]. now exists (x :: b). Qed.

(** An explicit list of calls ends with a given call. *)
Ltac ends_with :=
  first [ exists []; reflexivity
        | eexists; eassumption
        | apply ends_with_cons; ends_with ].

(* ------------------------------------------------------------------ *)
(** ** Publishing *)

Section Publish.

Context {W : Type}.
Variable ocean : Ocean W.

(** An undefined address is not an address: the pattern is tested against
    the string [undefined]. *)
Lemma isAddress_undefined : isAddress ocean None = false.
Proof. reflexivity. Qed.

(** An address is a non-empty string. *)
Lemma isAddress_truthy (address : option string) :
  isAddress ocean address = true -> truthy address = true.
Proof.
  destruct address as [[|c s]|]; [discriminate | reflexivity | discriminate].
Qed.

End Publish.

Lemma create_ddo_no_token_creation (W : Type) (ocean : Ocean W)
    (metadata : Metadata) (publisher : Account) (services : list Service)
    (dtAddress : string) (w w' : W) (r : outcome (option DDO))
    (trace : list Event) :
  create_ddo ocean metadata publisher services dtAddress w = (r, w', trace) ->
  existsb is_tokenCreation trace = false.
Proof.
  intros Hrun.
  unfold create_ddo, addProof, log, next, deref in Hrun.
  invert_run; reflexivity.
Qed.

(** The branch of [create] that asks the ledger for a new token is never
    taken: it needs a falsy address, and the guard of line 70 has let only
    addresses through. *)
Lemma create_never_creates_token (W : Type) (ocean : Ocean W)
    (metadata : Metadata) (publisher : Account) (services : list Service)
    (dtAddress cap name symbol : option string) (w w' : W)
    (r : outcome (option (outcome (option DDO)))) (trace : list Event) :
  create ocean metadata publisher services dtAddress cap name symbol w
  = (r, w', trace) ->
  existsb is_tokenCreation trace = false.
Proof.
  intros Hrun.
  unfold create, create_executor, log, next in Hrun.
  invert_run; try reflexivity.
  all: try match goal with
       | H1 : negb (isAddress _ ?a) = false, H2 : negb (truthy ?a) = true
         |- _ =>
           apply negb_false_iff, isAddress_truthy in H1;
           rewrite H1 in H2; discriminate H2
       end.
  all: rewrite ?app_nil_r, ?existsb_app; simpl.
  all: match goal with
       | H : create_ddo _ _ _ _ _ _ = _ |- _ =>
           now rewrite (@create_ddo_no_token_creation _ _ _ _ _ _ _ _ _ _ H)
       end.
Qed.

(** C2: evaluation of [create] on a fresh publish.  With no token address
    supplied the guard of line 70 fails, since [isAddress(undefined)] is
    false: [create] logs the error and returns null; no token is
    requested from the ledger and no progress step is emitted. *)
Theorem create_without_address_aborts (W : Type) (ocean : Ocean W)
    (metadata : Metadata) (publisher : Account) (services : list Service)
    (cap name symbol : option string) (w : W) :
  create ocean metadata publisher services None cap name symbol w
  = (Ok None, w, [EvLog LoggerError (PassedAddressNotValid None)])
  /\ progress [EvLog LoggerError (PassedAddressNotValid None)] = []
  /\ calls [EvLog LoggerError (PassedAddressNotValid None)] = [].
Proof.
  repeat split.
Qed.

(** Once the files are encrypted and the proof attached, a publish call
    that reports failure ends the run: the terminal value is null and
    nothing is asked of any collaborator afterwards. *)
Lemma create_ddo_publish_failure (W : Type) (ocean : Ocean W)
    (metadata : Metadata) (publisher : Account) (services : list Service)
    (dtAddress : string) (w w' : W) (r : outcome (option DDO))
    (trace : list Event) (did : string) (ddo : DDO) (owner : string) :
  create_ddo ocean metadata publisher services dtAddress w = (r, w', trace) ->
  In (EvPublish did ddo owner (Ok false)) trace ->
  r = Ok None /\
  exists before, calls trace = before ++ [EvPublish did ddo owner (Ok false)].
Proof.
  intros Hrun Hin.
  unfold create_ddo, addProof, log, next, deref in Hrun.
  invert_run; trace_cases Hin; inversion Hin; subst.
  all: split; [reflexivity|].
  all: simpl; ends_with.
Qed.

(** C7: in every run of [create] in which the publish call of the
    metadata index reports failure, whether the token was created in the
    run or supplied by the caller, the terminal value of the promise is
    null and the publish call is the last call made to any collaborator:
    no compensating call follows, the token contract stays. *)
Theorem create_publish_failure (W : Type) (ocean : Ocean W)
    (metadata : Metadata) (publisher : Account) (services : list Service)
    (dtAddress cap name symbol : option string) (w w' : W)
    (r : outcome (option (outcome (option DDO)))) (trace : list Event)
    (did : string) (ddo : DDO) (owner : string) :
  create ocean metadata publisher services dtAddress cap name symbol w
  = (r, w', trace) ->
  In (EvPublish did ddo owner (Ok false)) trace ->
  r = Ok (Some (Ok None)) /\
  exists before, calls trace = before ++ [EvPublish did ddo owner (Ok false)].
Proof.
  intros Hrun Hin.
  unfold create, create_executor, log, next in Hrun.
  invert_run; trace_cases Hin.
  all: match goal with
       | H : create_ddo _ _ _ _ _ _ = _ |- _ =>
           destruct (@create_ddo_publish_failure _ _ _ _ _ _ _ _ _ _ _ _ _
                       H Hin) as [-> [b Hb]]
       end.
  all: split; [reflexivity|].
  all: rewrite ?app_nil_r, ?calls_app; simpl; rewrite ?calls_app; simpl.
  all: ends_with.
Qed.

Lemma create_publish_failure_witness :
  let ocean :=
    Sample.oceanOf
      (Sample.answers Sample.services 0 Sample.paid false "0xpublisher") in
  let run :=
    create ocean Sample.metadata Sample.publisher [Sample.access]
      (Some Sample.tokenAddress) None None None tt in
  exists did ddo owner,
    In (EvPublish did ddo owner (Ok false)) (snd run) /\
    fst (fst run) = Ok (Some (Ok None)) /\
    exists before,
      calls (snd run) = before ++ [EvPublish did ddo owner (Ok false)].
Proof.
  intros ocean run. do 3 eexists. split.
  - vm_compute. do 13 right. left. reflexivity.
  - apply (@create_publish_failure unit ocean Sample.metadata
             Sample.publisher [Sample.access] (Some Sample.tokenAddress)
             None None None tt (snd (fst run)) (fst (fst run)) (snd run)).
    + reflexivity.
    + vm_compute. do 13 right. left. reflexivity.
Defined.

(** A publish call that throws is no report of failure: the error
    rejects the promise.  No call follows it either. *)
Lemma create_ddo_publish_throws (W : Type) (ocean : Ocean W)
    (metadata : Metadata) (publisher : Account) (services : list Service)
    (dtAddress : string) (w w' : W) (r : outcome (option DDO))
    (trace : list Event) (did : string) (ddo : DDO) (owner : string)
    (e : exn) :
  create_ddo ocean metadata publisher services dtAddress w = (r, w', trace) ->
  In (EvPublish did ddo owner (Raise e)) trace ->
  r = Raise e /\
  exists before, calls trace = before ++ [EvPublish did ddo owner (Raise e)].
Proof.
  intros Hrun Hin.
  unfold create_ddo, addProof, log, next, deref in Hrun.
  invert_run; trace_cases Hin; inversion Hin; subst.
  split; [reflexivity|].
  simpl; ends_with.
Qed.

(** With a token address supplied and every collaborator succeeding, the
    steps emitted are the six that follow the creation of the token. *)
Example create_with_address_progress :
  let run :=
    create (Sample.ocean 0) Sample.metadata Sample.publisher [Sample.access]
      (Some Sample.tokenAddress) None None None tt in
  progress (snd run)
  = [EncryptingFiles; FilesEncrypted; GeneratingProof; ProofGenerated;
     StoringDdo; DdoStored]
  /\ exists ddo, fst (fst run) = Ok (Some (Ok (Some ddo))).
Proof.
  split; [vm_compute; reflexivity|].
  eexists. vm_compute. reflexivity.
Qed.

(* ------------------------------------------------------------------ *)
(** ** Ordering *)

Section Order.

Context {W : Type}.
Variable ocean : Ocean W.

(** The balance test inside the [try] block. *)
Lemma order_try_balance
    (did serviceType consumerAddress : string) (serviceIndex : Z)
    (mpAddress : option string) (w w' : W) (r : outcome (option string))
    (trace : list Event)
    (did' ty c res : string) (idx : Z) (quote : ProviderData)
    (tok d0x c2 : string) (amount i : Z) (timeout : option Z)
    (previous : option string) (tok' account : string) (balance : Q) :
  order_try ocean did serviceType consumerAddress serviceIndex mpAddress w
  = (r, w', trace) ->
  In (EvInitialize did' idx ty c (Ok (Some res))) trace ->
  JSON_parse ocean res = Ok (Some quote) ->
  In (EvGetPreviousValidOrders tok amount d0x i timeout c2 (Ok previous))
     trace ->
  truthy previous = false ->
  In (EvBalance tok' account (Ok balance)) trace ->
  (Qle_bool balance (fromWei (numTokens quote)) = true ->
   r = Ok None /\
   existsb is_startOrder trace = false /\
   In (EvLog ConsoleError
         (NotEnoughFunds (fromWei (numTokens quote)) balance)) trace)
  /\
  (Qle_bool balance (fromWei (numTokens quote)) = false ->
   exists answer,
     In (EvStartOrder (pd_dataToken quote) (fromWei (numTokens quote))
           (didZeroX ocean did) idx mpAddress consumerAddress answer) trace
     /\ r = paymentResult answer).
Proof.
  intros Hrun Hinit Hparse Hprev Hfalsy Hbal.
  unfold order_try, initialize, getServiceByIndex, resolve, log, deref in Hrun.
  invert_run; trace_cases Hinit; trace_cases Hprev; trace_cases Hbal.
  all: inversion Hinit; inversion Hprev; inversion Hbal; subst.
  all: try congruence.
  all: match goal with
       | H1 : JSON_parse ocean ?s = Ok (Some ?p), H2 : JSON_parse ocean ?s = _
         |- _ => rewrite H1 in H2; injection H2 as H2; subst
       end.
  all: split; intros Hle; try congruence.
  - repeat split. simpl. auto 10.
  - eexists. split; [simpl; auto 10 | reflexivity].
  - eexists. split; [simpl; auto 10 | reflexivity].
  - eexists. split; [simpl; auto 10 | reflexivity].
Qed.




(** A run of [order] either fails to resolve the service, having asked
    only for the document, or enters the [try] block; what the block
    returns is returned, what it throws is logged and replaced by null. *)
Lemma order_run
    (did serviceType consumerAddress : string) (serviceIndex : Z)
    (mpAddress : option string) (w w' : W) (r : outcome (option string))
    (trace : list Event) :
  order ocean did serviceType consumerAddress serviceIndex mpAddress w
  = (r, w', trace) ->
  (exists e answer, r = Raise e /\ trace = [EvRetrieveDDO did answer])
  \/
  (exists target w1 rb tb answer,
      order_try ocean did (fst target) consumerAddress (snd target)
        mpAddress w1 = (rb, w', tb) /\
      ((exists v, rb = Ok v /\ r = Ok v /\
                  trace = EvRetrieveDDO did answer :: tb)
       \/
       (exists e, rb = Raise e /\ r = Ok None /\
                  trace = EvRetrieveDDO did answer
                          :: tb ++ [EvLog ConsoleError (Caught e)]))).
Proof.
  intros Hrun.
  unfold order, order_target, getServiceByType, getServiceByIndex, resolve,
      log, deref
    in Hrun.
  invert_run.
  all: try (left; do 2 eexists; split; reflexivity).
  all: right.
  all: match goal with
       | H : order_try _ _ ?ty' _ ?ix _ ?w1 = (?rb, _, ?tb) |- _ =>
           exists (ty', ix), w1, rb, tb
       end.
  all: eexists; split; [eassumption|].
  all: first [ left; eexists; repeat split; rewrite ?app_nil_r; reflexivity
             | right; eexists; repeat split;
               rewrite ?app_nil_r; reflexivity ].
Qed.

(** Whatever a ledger call throws inside the [try] block leaves the
    block. *)
Lemma order_try_ledger_throw
    (did serviceType consumerAddress : string) (serviceIndex : Z)
    (mpAddress : option string) (w w' : W) (r : outcome (option string))
    (trace : list Event) (ev : Event) (e : exn) :
  order_try ocean did serviceType consumerAddress serviceIndex mpAddress w
  = (r, w', trace) ->
  In ev trace -> is_ledger ev = true -> thrown ev = Some e ->
  r = Raise e.
Proof.
  intros Hrun Hin Hledger Hthrown.
  unfold order_try, initialize, getServiceByIndex, resolve, log, deref in Hrun.
  invert_run; trace_cases Hin; subst; simpl in *; congruence.
Qed.

(** Without a quote the block returns null before any ledger call. *)
Lemma order_try_no_quote
    (did serviceType consumerAddress : string) (serviceIndex : Z)
    (mpAddress : option string) (w w' : W) (r : outcome (option string))
    (trace : list Event) (did' ty c : string) (idx : Z)
    (answer : option string) :
  order_try ocean did serviceType consumerAddress serviceIndex mpAddress w
  = (r, w', trace) ->
  In (EvInitialize did' idx ty c (Ok answer)) trace ->
  match answer with
  | None => True
  | Some res => JSON_parse ocean res = Ok None
  end ->
  r = Ok None /\ existsb is_ledger trace = false.
Proof.
  intros Hrun Hin Hquote.
  unfold order_try, initialize, getServiceByIndex, resolve, log, deref in Hrun.
  invert_run; trace_cases Hin; inversion Hin; subst.
  all: try (split; reflexivity).
  all: congruence.
Qed.


(** C3 (amended): in every run of [order], an error thrown by a ledger
    call is caught, logged with [console.error] and reported by returning
    null: it does not reach the caller.  The business-rule failures
    QuoteUnavailable (the provider answers null, or its answer parses to
    a falsy value) and InsufficientBalance (the balance does not exceed
    the cost of the quote) are reported by returning null as well, the
    first before any ledger call and the second without a payment
    call. *)
Theorem order_failures_return_null
    (did serviceType consumerAddress : string) (serviceIndex : Z)
    (mpAddress : option string) (w w' : W) (r : outcome (option string))
    (trace : list Event) :
  order ocean did serviceType consumerAddress serviceIndex mpAddress w
  = (r, w', trace) ->
  (forall ev e,
      In ev trace -> is_ledger ev = true -> thrown ev = Some e ->
      r = Ok None /\ In (EvLog ConsoleError (Caught e)) trace)
  /\
  (forall did' idx ty c,
      In (EvInitialize did' idx ty c (Ok None)) trace ->
      r = Ok None /\ existsb is_ledger trace = false)
  /\
  (forall did' idx ty c res,
      In (EvInitialize did' idx ty c (Ok (Some res))) trace ->
      JSON_parse ocean res = Ok None ->
      r = Ok None /\ existsb is_ledger trace = false)
  /\
  (forall did' idx ty c res quote tok amount d0x i timeout c2 previous
          tok' account balance,
      In (EvInitialize did' idx ty c (Ok (Some res))) trace ->
      JSON_parse ocean res = Ok (Some quote) ->
      In (EvGetPreviousValidOrders tok amount d0x i timeout c2 (Ok previous))
         trace ->
      truthy previous = false ->
      In (EvBalance tok' account (Ok balance)) trace ->
      (balance <= fromWei (numTokens quote))%Q ->
      r = Ok None /\ existsb is_startOrder trace = false).
Proof.
  intros Hrun.
  destruct (order_run _ _ _ _ _ _ Hrun)
    as [(e0 & a & -> & ->)
       | (target & w1 & rb & tb & a & Hbody
          & [(v & -> & -> & ->) | (e0 & -> & -> & ->)])].
  - repeat split; intros; repeat match goal with
                                 | H : In _ [_] |- _ => trace_cases H
                                 end; subst; simpl in *; discriminate.
  - split; [|split; [|split]].
    + intros ev e Hin Hledger Hthrown.
      destruct Hin as [<- | Hin]; [discriminate|].
      pose proof (@order_try_ledger_throw _ _ _ _ _ _ _ _ _ _ _ Hbody Hin
                    Hledger Hthrown).
      discriminate.
    + intros did' idx ty c [Hin | Hin]; [discriminate|].
      destruct (@order_try_no_quote _ _ _ _ _ _ _ _ _ _ _ _ _ None Hbody
                  Hin I)
        as [[= ->] Hnone].
      split; [reflexivity | exact Hnone].
    + intros did' idx ty c res [Hin | Hin] Hparse; [discriminate|].
      destruct (@order_try_no_quote _ _ _ _ _ _ _ _ _ _ _ _ _ (Some res)
                  Hbody Hin Hparse) as [[= ->] Hnone].
      split; [reflexivity | exact Hnone].
    + intros did' idx ty c res quote tok amount d0x i timeout c2 previous
        tok' account balance [Hi | Hi] Hparse [Hp | Hp] Hfalsy [Hb | Hb] Hle;
        try discriminate.
      apply Qle_bool_iff in Hle.
      destruct (proj1 (@order_try_balance _ _ _ _ _ _ _ _ _ _ _ _ _ _ _ _
                         _ _ _ _ _ _ _ _ _ Hbody Hi Hparse Hp Hfalsy Hb)
                  Hle) as ([= ->] & Hnone & _).
      split; [reflexivity | exact Hnone].
  - split; [|split; [|split]].
    + intros ev e Hin Hledger Hthrown.
      destruct Hin as [<- | Hin]; [discriminate|].
      apply in_app_or in Hin as [Hin | [<- | []]]; [|discriminate].
      pose proof (@order_try_ledger_throw _ _ _ _ _ _ _ _ _ _ _ Hbody Hin
                    Hledger Hthrown) as [= ->].
      split; [reflexivity|].
      right. apply in_or_app. right. now left.
    + intros did' idx ty c [Hin | Hin]; [discriminate|].
      apply in_app_or in Hin as [Hin | [Hin | []]]; [|discriminate].
      destruct (@order_try_no_quote _ _ _ _ _ _ _ _ _ _ _ _ _ None Hbody
                  Hin I)
        as [[=] _].
    + intros did' idx ty c res [Hin | Hin] Hparse; [discriminate|].
      apply in_app_or in Hin as [Hin | [Hin | []]]; [|discriminate].
      destruct (@order_try_no_quote _ _ _ _ _ _ _ _ _ _ _ _ _ (Some res)
                  Hbody Hin Hparse) as [[=] _].
    + intros did' idx ty c res quote tok amount d0x i timeout c2 previous
        tok' account balance [Hi | Hi] Hparse [Hp | Hp] Hfalsy [Hb | Hb] Hle;
        try discriminate.
      apply in_app_or in Hi as [Hi | [Hi | []]]; [|discriminate].
      apply in_app_or in Hp as [Hp | [Hp | []]]; [|discriminate].
      apply in_app_or in Hb as [Hb | [Hb | []]]; [|discriminate].
      apply Qle_bool_iff in Hle.
      destruct (proj1 (@order_try_balance _ _ _ _ _ _ _ _ _ _ _ _ _ _ _ _
                         _ _ _ _ _ _ _ _ _ Hbody Hi Hparse Hp Hfalsy Hb)
                  Hle) as ([=] & _).
Qed.


(** A previous order reported by the ledger ends the [try] block: it is
    returned, and the ledger is not asked for a payment. *)
Lemma order_try_reuses_previous_order
    (did serviceType consumerAddress : string) (serviceIndex : Z)
    (mpAddress : option string) (w w' : W) (r : outcome (option string))
    (trace : list Event) (tok d0x c : string) (amount i : Z)
    (timeout : option Z) (previous : option string) :
  order_try ocean did serviceType consumerAddress serviceIndex mpAddress w
  = (r, w', trace) ->
  In (EvGetPreviousValidOrders tok amount d0x i timeout c (Ok previous))
     trace ->
  truthy previous = true ->
  r = Ok previous /\ existsb is_startOrder trace = false.
Proof.
  intros Hrun Hin Htruthy.
  unfold order_try, initialize, getServiceByIndex, resolve, log, deref in Hrun.
  invert_run; trace_cases Hin; inversion Hin; subst.
  all: try congruence.
  split; reflexivity.
Qed.

(** The same for [order]: lines 477-485. *)
Lemma order_reuses_previous_order
    (did serviceType consumerAddress : string) (serviceIndex : Z)
    (mpAddress : option string) (w w' : W) (r : outcome (option string))
    (trace : list Event) (tok d0x c : string) (amount i : Z)
    (timeout : option Z) (previous : option string) :
  order ocean did serviceType consumerAddress serviceIndex mpAddress w
  = (r, w', trace) ->
  In (EvGetPreviousValidOrders tok amount d0x i timeout c (Ok previous))
     trace ->
  truthy previous = true ->
  r = Ok previous /\ existsb is_startOrder trace = false.
Proof.
  intros Hrun Hin Htruthy.
  destruct (order_run _ _ _ _ _ _ Hrun)
    as [(e0 & a & -> & ->)
       | (target & w1 & rb & tb & a & Hbody
          & [(v & -> & -> & ->) | (e0 & -> & -> & ->)])].
  - trace_cases Hin.
  - destruct Hin as [Hin | Hin]; [discriminate|].
    destruct (@order_try_reuses_previous_order _ _ _ _ _ _ _ _ _ _ _ _ _ _
                _ _ Hbody Hin Htruthy) as [[= ->] Hnone].
    split; [reflexivity | exact Hnone].
  - destruct Hin as [Hin | Hin]; [discriminate|].
    apply in_app_or in Hin as [Hin | [Hin | []]]; [|discriminate].
    destruct (@order_try_reuses_previous_order _ _ _ _ _ _ _ _ _ _ _ _ _ _
                _ _ Hbody Hin Htruthy) as [[=] _].
Qed.

End Order.


Lemma order_failures_return_null_witness :
  let run :=
    order Sample.oceanFailingPayment Sample.did "access" "0xconsumer" (-1)
      None tt in
  let payment :=
    EvStartOrder Sample.tokenAddress (fromWei (100 * 10 ^ 18))
      "0xdid:op:asset" 1 None "0xconsumer" (Raise (Thrown "revert")) in
  In payment (snd run) /\
  fst (fst run) = Ok None /\
  In (EvLog ConsoleError (Caught (Thrown "revert"))) (snd run).
Proof.
  intros run payment.
  assert (Hin : In payment (snd run)) by (vm_compute; tauto).
  split; [exact Hin|].
  apply (proj1 (@order_failures_return_null unit Sample.oceanFailingPayment
                  Sample.did "access" "0xconsumer" (-1) None tt
                  (snd (fst run)) (fst (fst run)) (snd run) eq_refl)
           payment (Thrown "revert") Hin eq_refl eq_refl).
Defined.

(** C3, as the specification states it, fails in two ways.  When the
    ledger throws on the payment call, [order] catches the error and
    returns null instead of raising; and when the document has no service
    of the requested type, [order] raises a [TypeError] instead of
    returning null. *)
Lemma order_swallows_ledger_failure :
  (let run :=
     order Sample.oceanFailingPayment Sample.did "access" "0xconsumer" (-1)
       None tt in
   In (EvStartOrder Sample.tokenAddress (fromWei (100 * 10 ^ 18))
         "0xdid:op:asset" 1 None "0xconsumer" (Raise (Thrown "revert")))
      (snd run) /\
   fst (fst run) = Ok None)
  /\
  (let run :=
     order (Sample.ocean 101) Sample.did "compute" "0xconsumer" (-1) None tt in
   lastMatching (fun serv => String.eqb (type serv) "compute") Sample.services
   = None /\
   fst (fst run) = Raise (TypeError "index")).
Proof.
  split; intros run.
  - split; [vm_compute; tauto | reflexivity].
  - split; reflexivity.
Qed.

(* ------------------------------------------------------------------ *)
(** ** Ordering twice *)

Section OrderTwice.

Variable hash : nat -> string.
Variable base : Ocean unit.

(** The ledger never hands out an empty transaction identifier. *)
Hypothesis hash_nonempty : forall n, hash n <> EmptyString.

Lemma truthy_Some (s : string) : s <> EmptyString -> truthy (Some s) = true.
Proof. destruct s; [congruence | reflexivity]. Qed.

Lemma truthy_nonempty (s : string) :
  truthy (Some s) = true -> s <> EmptyString.
Proof. destruct s; discriminate. Qed.

(** The receipt found at one time is still the one found later, as long
    as its own window is open: the receipts passed over are of another
    order or have expired, and stay so. *)
Lemma find_reusable_later (did : string) (idx : Z) (c : string)
    (t t1 later : Z) (rs : list Ledger.OrderReceipt)
    (o : Ledger.OrderReceipt) :
  find (Ledger.reusable did idx c (Some t) t1) rs = Some o ->
  t1 <= later -> later < Ledger.or_timestamp o + t ->
  find (Ledger.reusable did idx c (Some t) later) rs = Some o.
Proof.
  intros Hfind Hle Hlive.
  induction rs as [|x rs IH]; simpl in *; [discriminate|].
  unfold Ledger.reusable in *.
  destruct (String.eqb (Ledger.or_did x) did
            && (Ledger.or_serviceIndex x =? idx)
            && String.eqb (Ledger.or_consumer x) c) eqn:Ekey; simpl in *.
  - destruct (t1 <? Ledger.or_timestamp x + t) eqn:E1.
    + injection Hfind as ->.
      apply Z.ltb_lt in Hlive. now rewrite Hlive.
    + apply Z.ltb_ge in E1.
      assert (E2 : (later <? Ledger.or_timestamp x + t) = false)
        by (apply Z.ltb_ge; lia).
      rewrite E2. now apply IH.
  - now apply IH.
Qed.

(** The run of the [try] block when the ledger holds a reusable receipt. *)
Lemma order_try_reuse_run (did ty c : string) (idx : Z) (mp : option string)
    (l : Ledger.State) (res : string) (p : ProviderData) (d : DDO)
    (s : Service) (tx : string) :
  fst (provider_initialize base did idx ty c tt) = Ok (Some res) ->
  JSON_parse base res = Ok (Some p) ->
  fst (metadatastore_retrieveDDO base did tt) = Ok (Some d) ->
  lastMatching (fun serv => index serv =? idx) (service d) = Some s ->
  Ledger.getPreviousValidOrders (didZeroX base did) idx
    (main_timeout (main (attributes s))) c l = Some tx ->
  tx <> EmptyString ->
  exists trace,
    order_try (Ledger.withLedger hash base) did ty c idx mp l
    = (Ok (Some tx), l, trace) /\
    existsb is_startOrder trace = false.
Proof.
  intros Hinit Hparse Hdoc Hserv Hprev Htx.
  eexists.
  unfold order_try, initialize, getServiceByIndex, resolve, bind, call, deref.
  simpl. unfold Ledger.stateless. rewrite Hinit. simpl. rewrite Hparse. simpl.
  rewrite Hdoc. simpl. rewrite Hserv. simpl. rewrite Hprev.
  rewrite (@truthy_Some tx Htx). simpl. split; reflexivity.
Qed.

(** Two runs of the [try] block: the second finds the receipt of the
    first. *)
Lemma order_try_twice (did ty c : string) (idx : Z) (mp : option string)
    (l0 l1 : Ledger.State) (tx : string) (trace1 : list Event) (later : Z)
    (tok d0x c2 : string) (amount i timeout : Z)
    (answer : outcome (option string)) :
  order_try (Ledger.withLedger hash base) did ty c idx mp l0
  = (Ok (Some tx), l1, trace1) ->
  In (EvGetPreviousValidOrders tok amount d0x i (Some timeout) c2 answer)
     trace1 ->
  Ledger.now l0 <= later ->
  (forall o, In o (Ledger.receipts l1) -> Ledger.or_transactionHash o = tx ->
             later < Ledger.or_timestamp o + timeout) ->
  exists trace2,
    order_try (Ledger.withLedger hash base) did ty c idx mp
      (Ledger.tick later l1)
    = (Ok (Some tx), Ledger.tick later l1, trace2) /\
    existsb is_startOrder trace2 = false.
Proof.
  intros Hrun Hin Hlater Hlive.
  unfold order_try, initialize, getServiceByIndex, resolve, log, deref in Hrun.
  invert_run; try discriminate; trace_cases Hin; inversion Hin; subst;
    clear Hin.
  all: try match goal with H : None = Some _ |- _ => discriminate H end.
  all: unfold Ledger.withLedger, Ledger.stateless in * |-; simpl in * |-.
  all: repeat match goal with
         | H : (_, _) = (_, _) |- _ => injection H as ? ?; subst
         end.
  all: match goal with
       | H : main_timeout _ = Some _ |- _ => rename H into Htimeout
       end.
  - (* the first run reused an earlier receipt *)
    match goal with
    | H : Ledger.getPreviousValidOrders _ _ _ _ _ = Some _ |- _ =>
        unfold Ledger.getPreviousValidOrders in H;
        destruct (find _ _) as [o|] eqn:Efind in H; [|discriminate H];
        injection H as H
    end.
    rewrite Htimeout in Efind.
    eapply order_try_reuse_run; eauto.
    + unfold Ledger.getPreviousValidOrders. simpl. rewrite Htimeout.
      rewrite (@find_reusable_later _ _ _ _ _ _ _ _ Efind Hlater);
        [simpl; congruence|].
      apply Hlive; [|assumption]. now apply find_some in Efind.
    + now apply truthy_nonempty.
  - (* the first run paid: its receipt heads the list *)
    match goal with
    | H : match ?a with _ => _ end = (_, _) |- _ =>
        destruct a as [[receipt|]|e]; try discriminate H;
        injection H as <- <-
    end.
    match type of Hlater with
    | Ledger.now ?l <= _ =>
        assert (Hnew : later < Ledger.now l + timeout)
          by (apply (Hlive
                       {| Ledger.or_transactionHash :=
                            hash (List.length (Ledger.receipts l));
                          Ledger.or_did := didZeroX base did;
                          Ledger.or_serviceIndex := i;
                          Ledger.or_consumer := c2;
                          Ledger.or_timestamp := Ledger.now l |});
              [now left | reflexivity])
    end.
    eapply order_try_reuse_run; eauto.
    unfold Ledger.getPreviousValidOrders, Ledger.reusable. simpl.
    rewrite Htimeout, !String.eqb_refl, Z.eqb_refl. simpl.
    apply Z.ltb_lt in Hnew. rewrite Hnew. reflexivity.
Qed.

(** Looking the service up neither changes the ledger nor depends on
    it. *)
Lemma order_target_stateless (did ty : string) (idx : Z)
    (l l' l2 : Ledger.State) (r : outcome (string * Z)) (trace : list Event) :
  order_target (Ledger.withLedger hash base) did ty idx l = (r, l', trace) ->
  l' = l /\
  existsb is_ledger trace = false /\
  order_target (Ledger.withLedger hash base) did ty idx l2 = (r, l2, trace).
Proof.
  unfold order_target, getServiceByType, getServiceByIndex, resolve, bind,
    call, deref.
  simpl. unfold Ledger.stateless.
  destruct (idx =? -1);
    destruct (fst (metadatastore_retrieveDDO base did tt)) as [[d|]|e];
    simpl.
  all: try (intros [= <- <- <-]; repeat split).
  all: destruct (lastMatching _ (service d)); simpl.
  all: intros [= <- <- <-]; repeat split.
Qed.

(** C4: two invocations of [order] in immediate succession for the same
    DID, service and consumer, against a ledger that keeps its receipts.
    When the first invocation has obtained the transaction identifier
    [tx], and at the time [later] of the second the timeout of the service
    has not elapsed for the receipt carrying [tx], the second invocation
    returns [tx] again, leaves the ledger as it is, and does not call the
    ledger's [startOrder]. *)
Theorem order_twice_reuses_receipt
    (did serviceType consumerAddress : string) (serviceIndex : Z)
    (mpAddress : option string) (l0 l1 : Ledger.State) (tx : string)
    (trace1 : list Event) (later : Z)
    (tok d0x c : string) (amount i timeout : Z)
    (answer : outcome (option string)) :
  order (Ledger.withLedger hash base) did serviceType consumerAddress
    serviceIndex mpAddress l0
  = (Ok (Some tx), l1, trace1) ->
  In (EvGetPreviousValidOrders tok amount d0x i (Some timeout) c answer)
     trace1 ->
  Ledger.now l0 <= later ->
  (forall o, In o (Ledger.receipts l1) -> Ledger.or_transactionHash o = tx ->
             later < Ledger.or_timestamp o + timeout) ->
  exists trace2,
    order (Ledger.withLedger hash base) did serviceType consumerAddress
      serviceIndex mpAddress (Ledger.tick later l1)
    = (Ok (Some tx), Ledger.tick later l1, trace2) /\
    existsb is_startOrder trace2 = false.
Proof.
  intros Hrun Hin Hlater Hlive.
  unfold order in Hrun.
  apply bind_run in Hrun
    as [(target & la & t1 & t2 & Htarget & Htry & ->) | (e & _ & [=])].
  cbv beta in Htry.
  destruct (@order_target_stateless did serviceType serviceIndex l0 la
              (Ledger.tick later l1) (Ok target) t1 Htarget)
    as (-> & Hquiet & Htarget2).
  apply in_app_or in Hin as [Hin | Hin].
  { exfalso. clear - Hin Hquiet.
    induction t1 as [|x t1 IH]; [contradiction|].
    simpl in Hquiet. apply orb_false_iff in Hquiet as [Hx Ht].
    destruct Hin as [-> | Hin]; [discriminate | auto]. }
  apply try_catch_run in Htry
    as [(v & Hbody & [= <-]) | (e & lb & tb & tc & _ & Hcatch & _)].
  - destruct (@order_try_twice did (fst target) consumerAddress (snd target)
                mpAddress l0 l1 tx t2 later tok d0x c amount i timeout answer
                Hbody Hin Hlater Hlive) as (tb2 & Hbody2 & Hnone).
    exists (t1 ++ tb2). split.
    + unfold order, bind, try_catch. rewrite Htarget2, Hbody2. reflexivity.
    + rewrite existsb_app, Hnone, orb_false_r.
      clear - Hquiet. induction t1 as [|x t1 IH]; [reflexivity|].
      simpl in *. apply orb_false_iff in Hquiet as [Hx Ht].
      rewrite (IH Ht), orb_false_r. now destruct x.
  - unfold log in Hcatch. invert_run. discriminate.
Qed.

End OrderTwice.

Lemma order_twice_reuses_receipt_witness :
  let ocean := Ledger.withLedger Ledger.sampleHash (Sample.ocean 101) in
  let paid :=
    {| Ledger.now := 1000;
       Ledger.receipts :=
         [ {| Ledger.or_transactionHash := "0xorder0";
              Ledger.or_did := "0xdid:op:asset";
              Ledger.or_serviceIndex := 1;
              Ledger.or_consumer := "0xconsumer";
              Ledger.or_timestamp := 1000 |} ] |} in
  (forall n, Ledger.sampleHash n <> EmptyString) /\
  (exists trace1,
     order ocean Sample.did "access" "0xconsumer" (-1) None Ledger.empty
     = (Ok (Some "0xorder0"), paid, trace1) /\
     existsb is_startOrder trace1 = true) /\
  (exists trace2,
     order ocean Sample.did "access" "0xconsumer" (-1) None
       (Ledger.tick 2000 paid)
     = (Ok (Some "0xorder0"), Ledger.tick 2000 paid, trace2) /\
     existsb is_startOrder trace2 = false).
Proof.
  intros ocean paid.
  pose (trace1 :=
          snd (order ocean Sample.did "access" "0xconsumer" (-1) None
                 Ledger.empty)).
  assert (Hhash : forall n, Ledger.sampleHash n <> EmptyString)
    by (intros n; discriminate).
  assert (Hrun : order ocean Sample.did "access" "0xconsumer" (-1) None
                   Ledger.empty
                 = (Ok (Some "0xorder0"), paid, trace1))
    by (vm_compute; reflexivity).
  split; [exact Hhash|].
  split; [exists trace1; split; [exact Hrun | vm_compute; reflexivity]|].
  apply (@order_twice_reuses_receipt Ledger.sampleHash (Sample.ocean 101)
           Hhash Sample.did "access" "0xconsumer" (-1) None Ledger.empty
           paid "0xorder0" trace1 2000
           Sample.tokenAddress "0xdid:op:asset" "0xconsumer"
           (100 * 10 ^ 18) 1 3600 (Ok None) Hrun).
  - vm_compute. tauto.
  - vm_compute. discriminate.
  - intros o Ho _. destruct Ho as [<- | []]. reflexivity.
Defined.

(* ------------------------------------------------------------------ *)
(** * Further properties *)

(** ** The service list: what deduplication and indexing keep *)

Section ServiceListMore.

Lemma keepLast_NoDup_id (l : list Service) :
  NoDup (map type l) -> keepLast l = l.
Proof.
  induction l as [|x l IH]; simpl; [reflexivity|].
  intros H. apply NoDup_cons_iff in H as [Hx Hl].
  assert (E : existsb (sameType x) l = false).
  { apply existsb_sameType_false. intros t Ht Heq.
    apply Hx. rewrite <- Heq. now apply in_map. }
  rewrite E, IH by assumption. reflexivity.
Qed.

(** X1: when the entries handed to [create] have pairwise distinct
    types, none of them the type of the metadata entry, nothing is
    removed: the metadata entry comes first with index 0 and the caller's
    entries follow in their order with indices 1, 2, ..., whatever
    [index] they carried.  So the access service built by
    [createAccessServiceAttributes], which carries index 2, is published
    with index 1 when it is the only one. *)
Theorem buildServices_without_duplicates :
  (forall (metadataSvc : Service) (services : list Service),
      NoDup (map type services) ->
      ~ In (type metadataSvc) (map type services) ->
      buildServices metadataSvc services
      = withIndex metadataSvc 0 :: addIndex services 1)
  /\
  (forall (a : Attributes) (endpoint : string) (creator : Account)
          (cost datePublished : string) (timeout : Z),
      let access :=
        createAccessServiceAttributes endpoint creator cost datePublished
          timeout in
      buildServices (metadataService a) [access]
      = [withIndex (metadataService a) 0; withIndex access 1]
      /\ lastMatching (fun serv => index serv =? 2)
           (buildServices (metadataService a) [access]) = None).
Proof.
  split.
  - intros m services Hnodup Hm.
    unfold buildServices. rewrite removeDuplications_keepLast.
    rewrite keepLast_NoDup_id; [reflexivity|].
    simpl. now constructor.
  - intros a endpoint creator cost datePublished timeout access.
    split; reflexivity.
Qed.

Lemma buildServices_without_duplicates_witness :
  buildServices Sample.metadata0 [Sample.access]
  = withIndex Sample.metadata0 0 :: addIndex [Sample.access] 1.
Proof.
  apply (proj1 buildServices_without_duplicates).
  - repeat constructor. intros [].
  - intros [H | []]. discriminate H.
Defined.

Lemma lastMatching_cons (p : Service -> bool) (x : Service)
    (l : list Service) :
  lastMatching p (x :: l)
  = match lastMatching p l with
    | Some s => Some s
    | None => if p x then Some x else None
    end.
Proof.
  revert x. induction l as [|y l IH] using rev_ind; intros x.
  - unfold lastMatching. simpl. now destruct (p x).
  - rewrite app_comm_cons, !lastMatching_snoc.
    destruct (p y); [reflexivity | apply IH].
Qed.

(** A match with no match after it is the one found. *)
Lemma lastMatching_intro (p : Service -> bool) (before after : list Service)
    (s : Service) :
  p s = true -> (forall t, In t after -> p t = false) ->
  lastMatching p (before ++ s :: after) = Some s.
Proof.
  intros Hs Hafter. induction before as [|x b IH]; simpl.
  - rewrite lastMatching_cons.
    destruct (lastMatching p after) as [t|] eqn:E.
    + apply lastMatching_Some in E as (b' & a' & -> & Ht & _).
      rewrite Hafter in Ht; [discriminate|].
      apply in_or_app. right. now left.
    + now rewrite Hs.
  - rewrite lastMatching_cons, IH. reflexivity.
Qed.

Lemma lastMatching_none (p : Service -> bool) (l : list Service) :
  (forall t, In t l -> p t = false) -> lastMatching p l = None.
Proof.
  intros H. destruct (lastMatching p l) as [s|] eqn:E; [|reflexivity].
  apply lastMatching_Some in E as (b & a & -> & Hs & _).
  rewrite H in Hs; [discriminate|]. apply in_or_app. right. now left.
Qed.

Lemma addIndex_In (l : list Service) (k : Z) (t : Service) :
  In t (addIndex l k) -> k <= index t < k + Z.of_nat (List.length l).
Proof.
  revert k. induction l as [|x l IH]; intros k; simpl; [intros []|].
  intros [<- | H]; simpl; [lia|].
  apply IH in H. lia.
Qed.

Lemma addIndex_split (l : list Service) (k : Z) (n : nat) (s : Service) :
  nth_error (addIndex l k) n = Some s ->
  exists before after,
    addIndex l k = before ++ s :: after /\
    index s = k + Z.of_nat n /\
    forall t, In t after -> index t <> index s.
Proof.
  revert k n. induction l as [|x l IH]; intros k [|n]; simpl; try discriminate.
  - intros [= <-]. exists [], (addIndex l (k + 1)).
    split; [reflexivity|]. split; [simpl; lia|].
    intros t Ht. apply addIndex_In in Ht. simpl. lia.
  - intros H. destruct (IH _ _ H) as (b & a & -> & Hidx & Ha).
    exists (withIndex x k :: b), a. split; [reflexivity|].
    split; [lia | assumption].
Qed.

(** X2: in the service list of a new DDO the index of an entry is its
    position, so the lookup by index of [getServiceByIndex] finds, for
    every position of the list, exactly the entry at that position, and
    finds nothing for any other number. *)
Theorem buildServices_lookup_by_index (metadataSvc : Service)
    (services : list Service) :
  let out := buildServices metadataSvc services in
  (forall n s,
      nth_error out n = Some s ->
      lastMatching (fun serv => index serv =? Z.of_nat n) out = Some s)
  /\
  (forall i,
      i < 0 \/ Z.of_nat (List.length out) <= i ->
      lastMatching (fun serv => index serv =? i) out = None).
Proof.
  intros out. unfold out, buildServices. split.
  - intros n s H.
    destruct (addIndex_split _ _ _ H) as (b & a & E & Hidx & Ha).
    rewrite E. apply lastMatching_intro.
    + apply Z.eqb_eq. lia.
    + intros t Ht. apply Z.eqb_neq. intros Heq. apply (Ha t Ht). lia.
  - intros i Hi. apply lastMatching_none. intros t Ht.
    apply Z.eqb_neq. apply addIndex_In in Ht.
    rewrite addIndex_length in Hi. lia.
Qed.

Lemma buildServices_lookup_by_index_witness :
  let out := buildServices Sample.metadata0 [Sample.access] in
  nth_error out 1 = Some (withIndex Sample.access 1) /\
  lastMatching (fun serv => index serv =? Z.of_nat 1) out
  = Some (withIndex Sample.access 1) /\
  lastMatching (fun serv => index serv =? 2) out = None.
Proof.
  intros out. split; [reflexivity|]. split.
  - apply (proj1 (buildServices_lookup_by_index Sample.metadata0
                    [Sample.access]) 1%nat).
    reflexivity.
  - apply (proj2 (buildServices_lookup_by_index Sample.metadata0
                    [Sample.access]) 2).
    right. simpl. lia.
Defined.

Lemma lastMatching_keepLast (t : string) (l : list Service) :
  lastMatching (fun serv => String.eqb (type serv) t) (keepLast l)
  = lastMatching (fun serv => String.eqb (type serv) t) l.
Proof.
  induction l as [|x l IH]; simpl; [reflexivity|].
  destruct (existsb (sameType x) l) eqn:E.
  - rewrite lastMatching_cons, IH.
    destruct (lastMatching (fun serv => String.eqb (type serv) t) l)
      as [s|] eqn:El; [reflexivity|].
    destruct (String.eqb (type x) t) eqn:Ex; [|reflexivity].
    exfalso. apply existsb_exists in E as (y & Hy & Hxy).
    apply sameType_true in Hxy. apply String.eqb_eq in Ex.
    pose proof (lastMatching_None _ _ El y Hy) as Hno.
    apply String.eqb_neq in Hno. congruence.
  - rewrite !lastMatching_cons, IH. reflexivity.
Qed.

Lemma lastMatching_addIndex (t : string) (l : list Service) (k : Z) :
  option_map content
    (lastMatching (fun serv => String.eqb (type serv) t) (addIndex l k))
  = option_map content
      (lastMatching (fun serv => String.eqb (type serv) t) l).
Proof.
  revert k. induction l as [|x l IH]; intros k; simpl; [reflexivity|].
  rewrite !lastMatching_cons. specialize (IH (k + 1)).
  destruct (lastMatching _ (addIndex l (k + 1))) as [s|],
           (lastMatching _ l) as [s'|]; simpl in *; try discriminate.
  - assumption.
  - now destruct (String.eqb (type x) t).
Qed.

(** The builder and the lookup by type. *)
Lemma lastMatching_buildServices (metadataSvc : Service)
    (services : list Service) (serviceType : string) :
  option_map content
    (lastMatching (fun serv => String.eqb (type serv) serviceType)
       (buildServices metadataSvc services))
  = option_map content
      (lastMatching (fun serv => String.eqb (type serv) serviceType)
         (metadataSvc :: services)).
Proof.
  unfold buildServices.
  rewrite lastMatching_addIndex, removeDuplications_keepLast.
  now rewrite lastMatching_keepLast.
Qed.

(** X3: looking a type up in the service list of a new DDO, as
    [getServiceByType] does, gives the content (type, endpoint and
    attributes) of the last entry of that type in the candidate list
    [[metadataService, ...services]], and nothing when the candidates
    have no entry of the type. *)
Theorem buildServices_lookup_by_type (metadataSvc : Service)
    (services : list Service) (serviceType : string) :
  option_map content
    (lastMatching (fun serv => String.eqb (type serv) serviceType)
       (buildServices metadataSvc services))
  = option_map content
      (lastMatching (fun serv => String.eqb (type serv) serviceType)
         (metadataSvc :: services)).
Proof. apply lastMatching_buildServices. Qed.

End ServiceListMore.

(* ------------------------------------------------------------------ *)
(** ** What [create] publishes *)

Section PublishMore.

Context {W : Type}.
Variable ocean : Ocean W.

(** The document of a publish call, read back from the trace. *)
Lemma create_ddo_publish_inv (metadata : Metadata) (publisher : Account)
    (services : list Service) (dtAddress : string) (w w' : W)
    (r : outcome (option DDO)) (trace : list Event)
    (did : string) (ddo : DDO) (owner : string) (answer : outcome bool) :
  create_ddo ocean metadata publisher services dtAddress w = (r, w', trace) ->
  In (EvPublish did ddo owner answer) trace ->
  exists encrypted files signature,
    let assembled :=
      assembledDDO ocean metadata publisher services dtAddress encrypted
        files in
    main_files (main metadata) = Some files /\
    In (EvEncrypt (DID_getId ocean dtAddress) (Some files) publisher
          (Ok encrypted)) trace /\
    In (EvSignText (DDO_getChecksum ocean assembled) (getId publisher)
          (getPassword publisher) (Ok signature)) trace /\
    ddo = withProof ocean assembled (getId publisher) signature /\
    did = id ddo /\ owner = getId publisher.
Proof.
  intros Hrun Hin.
  unfold create_ddo, addProof, log, next, deref in Hrun.
  invert_run; trace_cases Hin; inversion Hin; subst.
  all: match goal with
       | He : provider_encrypt _ _ _ _ _ = (Ok ?enc, _),
         Hf : main_files _ = Some ?fs,
         Hs : signature_signText _ _ _ _ _ = (Ok ?sig, _) |- _ =>
           exists enc, fs, sig
       end.
  all: cbv zeta; unfold assembledDDO, withProof; simpl.
  all: repeat split; auto 25.
Qed.

(** A run of [create] that reaches [create_ddo] does so with the address
    it was given. *)
Lemma create_run (metadata : Metadata) (publisher : Account)
    (services : list Service) (dtAddress cap name symbol : option string)
    (w w' : W) (r : outcome (option (outcome (option DDO))))
    (trace : list Event) :
  create ocean metadata publisher services dtAddress cap name symbol w
  = (r, w', trace) ->
  (isAddress ocean dtAddress = false /\ r = Ok None /\
   trace = [EvLog LoggerError (PassedAddressNotValid dtAddress)])
  \/
  (isAddress ocean dtAddress = true /\
   exists rd td before,
     create_ddo ocean metadata publisher services (toString dtAddress) w
     = (rd, w', td) /\
     r = Ok (Some rd) /\
     trace = before ++ td /\
     (before = [EvLog LoggerLog CreatingAsset]
      \/ before = [EvLog LoggerLog CreatingAsset; EvLog LoggerLog NoServices])).
Proof.
  intros Hrun.
  unfold create, create_executor, log, next in Hrun.
  invert_run.
  all: try match goal with
       | H1 : negb (isAddress _ ?a) = false, H2 : negb (truthy ?a) = true
         |- _ =>
           apply negb_false_iff, isAddress_truthy in H1;
           rewrite H1 in H2; discriminate H2
       end.
  - left. apply negb_true_iff in Heqb. repeat split; assumption.
  - right. apply negb_false_iff in Heqb. split; [assumption|].
    do 3 eexists. split; [eassumption|]. split; [reflexivity|].
    split; [|right; reflexivity]. rewrite app_nil_r. reflexivity.
  - right. apply negb_false_iff in Heqb. split; [assumption|].
    do 3 eexists. split; [eassumption|]. split; [reflexivity|].
    split; [|left; reflexivity]. rewrite app_nil_r. reflexivity.
Qed.

(** X4: whatever [create] hands to the metadata index is a signed
    document for the address it was given.  In every run, a publish call
    has a valid supplied address as [dataToken], the DID derived from it
    as [id] and as key, the publisher as owner, and a proof whose creator
    is the publisher, whose checksum is that of the document before the
    proof was attached, and whose signature is the answer the signing
    collaborator gave in this run for that checksum. *)
Theorem create_publishes_signed_document (metadata : Metadata)
    (publisher : Account) (services : list Service)
    (dtAddress cap name symbol : option string) (w w' : W)
    (r : outcome (option (outcome (option DDO)))) (trace : list Event)
    (did : string) (ddo : DDO) (owner : string) (answer : outcome bool) :
  create ocean metadata publisher services dtAddress cap name symbol w
  = (r, w', trace) ->
  In (EvPublish did ddo owner answer) trace ->
  isAddress ocean dtAddress = true /\
  dataToken ddo = toString dtAddress /\
  id ddo = DID_getDid ocean (toString dtAddress) /\
  did = id ddo /\
  owner = getId publisher /\
  exists p,
    proof ddo = Some p /\
    proof_creator p = getId publisher /\
    proof_checksum p
    = DDO_getChecksum ocean
        {| id := id ddo;
           dataToken := dataToken ddo;
           authentication := authentication ddo;
           publicKey := publicKey ddo;
           service := service ddo;
           proof := None |} /\
    In (EvSignText (proof_checksum p) (getId publisher)
          (getPassword publisher) (Ok (signatureValue p))) trace.
Proof.
  intros Hrun Hin.
  destruct (@create_run _ _ _ _ _ _ _ _ _ _ _ Hrun)
    as [(_ & _ & ->) | (Haddr & rd & td & before & Hddo & -> & -> & Hb)].
  { trace_cases Hin. }
  assert (Hin' : In (EvPublish did ddo owner answer) td).
  { apply in_app_or in Hin as [Hin | Hin]; [|assumption].
    destruct Hb as [-> | ->]; trace_cases Hin. }
  destruct (@create_ddo_publish_inv _ _ _ _ _ _ _ _ _ _ _ _ Hddo Hin')
    as (enc & files & sig & Hfiles & Henc & Hsig & -> & -> & ->).
  repeat split; try assumption.
  eexists. repeat split.
  apply in_or_app. right. exact Hsig.
Qed.

Lemma create_publish_inv (metadata : Metadata)
    (publisher : Account) (services : list Service)
    (dtAddress cap name symbol : option string) (w w' : W)
    (r : outcome (option (outcome (option DDO)))) (trace : list Event)
    (did : string) (ddo : DDO) (owner : string) (answer : outcome bool) :
  create ocean metadata publisher services dtAddress cap name symbol w
  = (r, w', trace) ->
  In (EvPublish did ddo owner answer) trace ->
  exists encrypted files signature,
    main_files (main metadata) = Some files /\
    In (EvEncrypt (DID_getId ocean (toString dtAddress)) (Some files)
          publisher (Ok encrypted)) trace /\
    ddo = withProof ocean
            (assembledDDO ocean metadata publisher services
               (toString dtAddress) encrypted files)
            (getId publisher) signature.
Proof.
  intros Hrun Hin.
  destruct (@create_run _ _ _ _ _ _ _ _ _ _ _ Hrun)
    as [(_ & _ & ->) | (Haddr & rd & td & before & Hddo & -> & -> & Hb)].
  { trace_cases Hin. }
  assert (Hin' : In (EvPublish did ddo owner answer) td).
  { apply in_app_or in Hin as [Hin | Hin]; [|assumption].
    destruct Hb as [-> | ->]; trace_cases Hin. }
  destruct (@create_ddo_publish_inv _ _ _ _ _ _ _ _ _ _ _ _ Hddo Hin')
    as (enc & files & sig & Hfiles & Henc & Hsig & -> & _ & _).
  exists enc, files, sig. split; [assumption|]. split; [|reflexivity].
  apply in_or_app. now right.
Qed.

Lemma cleanFiles_url (files : list File) (k : Z) (f : File) :
  In f (cleanFiles files k) -> file_url f = None.
Proof.
  revert k. induction files as [|x files IH]; intros k; simpl; [intros []|].
  intros [<- | H]; [reflexivity | now apply (IH (k + 1))].
Qed.

Lemma addIndex_In_type (l : list Service) (k : Z) (s : Service) :
  In s (addIndex l k) -> exists s0, In s0 l /\ type s = type s0.
Proof.
  revert k. induction l as [|x l IH]; intros k; simpl; [intros []|].
  intros [<- | H].
  - exists x. split; [now left | reflexivity].
  - destruct (IH _ H) as (s0 & Hs0 & E). exists s0. split; [now right | exact E].
Qed.

(** X5: when the caller hands [create] no service of type [metadata],
    the published document starts with the metadata service the workflow
    built, at index 0: it carries the blob the provider returned in this
    run as [encryptedFiles], its files are the declared ones with their
    position as [index] and no [url] at all, and no other service of the
    document has the type [metadata]. *)
Theorem create_strips_file_urls (metadata : Metadata)
    (publisher : Account) (services : list Service)
    (dtAddress cap name symbol : option string) (w w' : W)
    (r : outcome (option (outcome (option DDO)))) (trace : list Event)
    (did : string) (ddo : DDO) (owner : string) (answer : outcome bool) :
  create ocean metadata publisher services dtAddress cap name symbol w
  = (r, w', trace) ->
  In (EvPublish did ddo owner answer) trace ->
  (forall s, In s services -> type s <> "metadata") ->
  exists m rest encrypted files,
    service ddo = m :: rest /\
    type m = "metadata" /\ index m = 0 /\
    main_files (main metadata) = Some files /\
    In (EvEncrypt (DID_getId ocean (toString dtAddress)) (Some files)
          publisher (Ok encrypted)) trace /\
    encryptedFiles (attributes m) = Some encrypted /\
    main_files (main (attributes m)) = Some (cleanFiles files 0) /\
    (forall f, In f (cleanFiles files 0) -> file_url f = None) /\
    (forall s, In s rest -> type s <> "metadata").
Proof.
  intros Hrun Hin Hnone.
  destruct (@create_publish_inv _ _ _ _ _ _ _ _ _ _ _ _ _ _ _ Hrun Hin)
    as (enc & files & sig & Hfiles & Henc & ->).
  set (m := metadataService (metadataAttributes metadata enc files)).
  assert (E : existsb (sameType m) services = false).
  { apply existsb_sameType_false. exact Hnone. }
  exists (withIndex m 0), (addIndex (keepLast services) 1), enc, files.
  split.
  { simpl. unfold buildServices. rewrite removeDuplications_keepLast.
    fold m. simpl. now rewrite E. }
  repeat split; try assumption.
  - intros f. apply cleanFiles_url.
  - intros s Hs. apply addIndex_In_type in Hs as (s0 & Hs0 & ->).
    apply Hnone. now apply (Subseq_In s0 (keepLast_Subseq services)).
Qed.

(** X6: a service of type [metadata] among the caller's services
    replaces the metadata service the workflow built.  The published
    document then has, as its entry of type [metadata], the content of
    the last such service of the caller, attributes unchanged: neither
    the provider's encrypted blob nor the removal of the file URLs
    applies to it. *)
Theorem create_caller_metadata_wins (metadata : Metadata)
    (publisher : Account) (services : list Service)
    (dtAddress cap name symbol : option string) (w w' : W)
    (r : outcome (option (outcome (option DDO)))) (trace : list Event)
    (did : string) (ddo : DDO) (owner : string) (answer : outcome bool)
    (own : Service) :
  create ocean metadata publisher services dtAddress cap name symbol w
  = (r, w', trace) ->
  In (EvPublish did ddo owner answer) trace ->
  lastMatching (fun serv => String.eqb (type serv) "metadata") services
  = Some own ->
  exists found,
    lastMatching (fun serv => String.eqb (type serv) "metadata") (service ddo)
    = Some found /\
    content found = content own /\
    (forall s, In s (service ddo) -> type s = "metadata" -> s = found).
Proof.
  intros Hrun Hin Hown.
  destruct (@create_publish_inv _ _ _ _ _ _ _ _ _ _ _ _ _ _ _ Hrun Hin)
    as (enc & files & sig & Hfiles & Henc & ->).
  simpl.
  pose proof (lastMatching_buildServices
                (metadataService (metadataAttributes metadata enc files))
                services "metadata") as Hlookup.
  rewrite lastMatching_cons, Hown in Hlookup.
  destruct (lastMatching _ (buildServices _ services)) as [found|] eqn:E;
    [|discriminate].
  assert (Hcontent : content found = content own)
    by (unfold content in *; simpl in Hlookup; congruence).
  exists found. split; [reflexivity|]. split; [assumption|].
  intros s Hs Htype.
  apply lastMatching_Some in E as (b & a & Eq & Hf & Ha).
  apply String.eqb_eq in Hf.
  assert (Hnodup : NoDup (map type (b ++ found :: a))).
  { rewrite <- Eq. unfold buildServices.
    rewrite removeDuplications_keepLast.
    assert (Hmap : forall l k, map type (addIndex l k) = map type l).
    { induction l as [|x l IH]; intros k0; simpl; [reflexivity|].
      now rewrite IH. }
    rewrite Hmap. apply keepLast_NoDup. }
  rewrite Eq in Hs.
  rewrite map_app in Hnodup. simpl in Hnodup.
  apply NoDup_remove_2 in Hnodup.
  apply in_app_or in Hs as [Hs | [Hs | Hs]]; [|now symmetry|].
  - exfalso. apply Hnodup. apply in_or_app. left.
    rewrite Hf, <- Htype. now apply in_map.
  - exfalso. apply Hnodup. apply in_or_app. right.
    rewrite Hf, <- Htype. now apply in_map.
Qed.

Lemma create_ddo_throw (metadata : Metadata) (publisher : Account)
    (services : list Service) (dtAddress : string) (w w' : W)
    (r : outcome (option DDO)) (trace : list Event) (ev : Event) (e : exn) :
  create_ddo ocean metadata publisher services dtAddress w = (r, w', trace) ->
  In ev trace -> thrown ev = Some e ->
  r = Raise e /\ exists before, calls trace = before ++ [ev].
Proof.
  intros Hrun Hin Hthrown.
  unfold create_ddo, addProof, log, next, deref in Hrun.
  invert_run; trace_cases Hin; subst; simpl in Hthrown;
    try discriminate Hthrown.
  all: injection Hthrown as ->.
  all: split; [reflexivity|].
  all: simpl; ends_with.
Qed.

(** X7: [create] has no error handling of its own.  In every run, when a
    collaborator throws on a call (the provider on encryption, the signer
    on the proof, the metadata index on publish), the promise is rejected
    with that very error and the failed call is the last call of the run:
    in particular nothing is published after a failed encryption or a
    failed signature. *)
Theorem create_collaborator_failure (metadata : Metadata)
    (publisher : Account) (services : list Service)
    (dtAddress cap name symbol : option string) (w w' : W)
    (r : outcome (option (outcome (option DDO)))) (trace : list Event)
    (ev : Event) (e : exn) :
  create ocean metadata publisher services dtAddress cap name symbol w
  = (r, w', trace) ->
  In ev trace -> thrown ev = Some e ->
  r = Ok (Some (Raise e)) /\
  exists before, calls trace = before ++ [ev].
Proof.
  intros Hrun Hin Hthrown.
  destruct (@create_run _ _ _ _ _ _ _ _ _ _ _ Hrun)
    as [(_ & _ & ->) | (Haddr & rd & td & before & Hddo & -> & -> & Hb)].
  { trace_cases Hin. subst. discriminate Hthrown. }
  assert (Hin' : In ev td).
  { apply in_app_or in Hin as [Hin | Hin]; [|assumption].
    destruct Hb as [-> | ->]; trace_cases Hin; subst; discriminate Hthrown. }
  destruct (@create_ddo_throw _ _ _ _ _ _ _ _ _ _ Hddo Hin' Hthrown)
    as (-> & b & Hcalls).
  split; [reflexivity|].
  exists b. rewrite calls_app, Hcalls.
  destruct Hb as [-> | ->]; reflexivity.
Qed.

Lemma progress_app (l1 l2 : list Event) :
  progress (l1 ++ l2) = progress l1 ++ progress l2.
Proof.
  induction l1 as [|x l1 IH]; simpl; [reflexivity|].
  destruct x; simpl; now rewrite IH.
Qed.

Lemma create_ddo_progress (metadata : Metadata) (publisher : Account)
    (services : list Service) (dtAddress : string) (w w' : W)
    (r : outcome (option DDO)) (trace : list Event) :
  create_ddo ocean metadata publisher services dtAddress w = (r, w', trace) ->
  isPrefix (progress trace) publishSteps /\
  (forall v, r = Ok v -> progress trace = publishSteps) /\
  (forall e, r = Raise e -> ~ In DdoStored (progress trace)).
Proof.
  intros Hrun.
  unfold create_ddo, addProof, log, next, deref in Hrun.
  invert_run; simpl.
  all: repeat split; try tauto; try discriminate.
  all: intros e0 _ H; simpl in H; intuition discriminate.
Qed.

(** X8: the progress steps of [create].  Every run emits an initial
    segment of EncryptingFiles, FilesEncrypted, GeneratingProof,
    ProofGenerated, StoringDdo, DdoStored, each step at most once and in
    this order, and never a step of the token creation.  No step is
    emitted when [create] returns null for an invalid address; all six
    are emitted whenever the promise resolves, also when it resolves to
    null because the index refused the document; DdoStored is not emitted
    when the promise is rejected. *)
Theorem create_progress (metadata : Metadata)
    (publisher : Account) (services : list Service)
    (dtAddress cap name symbol : option string) (w w' : W)
    (r : outcome (option (outcome (option DDO)))) (trace : list Event) :
  create ocean metadata publisher services dtAddress cap name symbol w
  = (r, w', trace) ->
  isPrefix (progress trace) publishSteps /\
  (r = Ok None -> progress trace = []) /\
  (forall v, r = Ok (Some (Ok v)) -> progress trace = publishSteps) /\
  (forall e, r = Ok (Some (Raise e)) -> ~ In DdoStored (progress trace)).
Proof.
  intros Hrun.
  destruct (@create_run _ _ _ _ _ _ _ _ _ _ _ Hrun)
    as [(_ & -> & ->) | (Haddr & rd & td & before & Hddo & -> & -> & Hb)].
  { simpl. repeat split; discriminate. }
  assert (Hp : progress (before ++ td) = progress td).
  { rewrite progress_app. destruct Hb as [-> | ->]; reflexivity. }
  rewrite Hp.
  destruct (@create_ddo_progress _ _ _ _ _ _ _ _ Hddo) as (H1 & H2 & H3).
  split; [assumption|]. split; [discriminate|]. split.
  - intros v [= ->]. now apply (H2 v).
  - intros e [= ->]. now apply (H3 e).
Qed.

End PublishMore.

(** The publish call is the fourteenth entry of the sample traces. *)
Ltac sample_publish := vm_compute; do 13 right; left; reflexivity.

Lemma create_publishes_signed_document_witness :
  exists did ddo owner answer,
    In (EvPublish did ddo owner answer) (snd More.published) /\
    dataToken ddo = Sample.tokenAddress /\
    exists p, proof ddo = Some p /\ proof_creator p = "0xpublisher".
Proof.
  do 4 eexists. split; [sample_publish|].
  destruct (@create_publishes_signed_document unit (Sample.ocean 0)
              Sample.metadata Sample.publisher [Sample.access]
              (Some Sample.tokenAddress) None None None tt
              (snd (fst More.published)) (fst (fst More.published))
              (snd More.published) _ _ _ _ eq_refl
              ltac:(sample_publish))
    as (_ & Htoken & _ & _ & _ & p & Hp & Hcreator & _).
  split; [exact Htoken|]. exists p. split; [exact Hp | exact Hcreator].
Defined.

Lemma create_strips_file_urls_witness :
  exists did ddo owner answer,
    In (EvPublish did ddo owner answer) (snd More.published) /\
    exists m rest,
      service ddo = m :: rest /\
      main_files (main (attributes m)) = Some (cleanFiles [Sample.file] 0) /\
      forall f, In f (cleanFiles [Sample.file] 0) -> file_url f = None.
Proof.
  do 4 eexists. split; [sample_publish|].
  destruct (@create_strips_file_urls unit (Sample.ocean 0)
              Sample.metadata Sample.publisher [Sample.access]
              (Some Sample.tokenAddress) None None None tt
              (snd (fst More.published)) (fst (fst More.published))
              (snd More.published) _ _ _ _ eq_refl
              ltac:(sample_publish))
    as (m & rest & enc & files & Hs & _ & _ & Hfiles & _ & _ & Hmain & Hurl & _).
  - intros s [<- | []]. discriminate.
  - injection Hfiles as <-. exists m, rest.
    split; [exact Hs|]. split; [exact Hmain | exact Hurl].
Defined.

Lemma create_caller_metadata_wins_witness :
  exists did ddo owner answer found,
    In (EvPublish did ddo owner answer) (snd More.publishedOwn) /\
    lastMatching (fun serv => String.eqb (type serv) "metadata") (service ddo)
    = Some found /\
    content found = content More.ownMetadata /\
    main_files (main (attributes found)) = Some [Sample.file].
Proof.
  do 4 eexists.
  destruct (@create_caller_metadata_wins unit (Sample.ocean 0)
              Sample.metadata Sample.publisher
              [More.ownMetadata; Sample.access]
              (Some Sample.tokenAddress) None None None tt
              (snd (fst More.publishedOwn)) (fst (fst More.publishedOwn))
              (snd More.publishedOwn) _ _ _ _ More.ownMetadata eq_refl
              ltac:(sample_publish) eq_refl)
    as (found & Hfound & Hcontent & _).
  exists found. split; [sample_publish|].
  split; [exact Hfound|]. split; [exact Hcontent|].
  unfold content in Hcontent. injection Hcontent as _ _ ->. reflexivity.
Defined.

Lemma create_collaborator_failure_witness :
  exists ev,
    In ev (snd More.rejected) /\
    thrown ev = Some (Thrown "index down") /\
    fst (fst More.rejected) = Ok (Some (Raise (Thrown "index down"))) /\
    exists before, calls (snd More.rejected) = before ++ [ev].
Proof.
  eexists. split; [sample_publish|]. split; [reflexivity|].
  apply (@create_collaborator_failure unit More.oceanIndexDown
           Sample.metadata Sample.publisher [Sample.access]
           (Some Sample.tokenAddress) None None None tt
           (snd (fst More.rejected)) (fst (fst More.rejected))
           (snd More.rejected)).
  - reflexivity.
  - sample_publish.
  - reflexivity.
Defined.

Lemma create_progress_witness :
  isPrefix (progress (snd More.published)) publishSteps /\
  (fst (fst More.published) = Ok None -> progress (snd More.published) = []) /\
  (forall v, fst (fst More.published) = Ok (Some (Ok v)) ->
             progress (snd More.published) = publishSteps) /\
  (forall e, fst (fst More.published) = Ok (Some (Raise e)) ->
             ~ In DdoStored (progress (snd More.published))).
Proof.
  apply (@create_progress unit (Sample.ocean 0) Sample.metadata
           Sample.publisher [Sample.access] (Some Sample.tokenAddress)
           None None None tt (snd (fst More.published))).
  reflexivity.
Defined.

(* ------------------------------------------------------------------ *)
(** ** More on [order] *)

Section OrderMore.

Context {W : Type}.
Variable ocean : Ocean W.

Lemma order_target_run (did serviceType : string) (serviceIndex : Z)
    (w w' : W) (r : outcome (string * Z)) (trace : list Event) :
  order_target ocean did serviceType serviceIndex w = (r, w', trace) ->
  exists answer,
    trace = [EvRetrieveDDO did answer] /\
    match r with
    | Ok target =>
        exists ddo, answer = Ok (Some ddo) /\
                    resolved ddo serviceType serviceIndex target
    | Raise e => answer = Raise e \/ exists what, e = TypeError what
    end.
Proof.
  intros Hrun.
  unfold order_target, getServiceByType, getServiceByIndex, resolve, deref
    in Hrun.
  invert_run; eexists; (split; [reflexivity|]).
  all: try (left; reflexivity).
  all: try (right; eexists; reflexivity).
  all: eexists; (split; [reflexivity|]); unfold resolved.
  all: match goal with
       | H : (?i =? -1) = _ |- _ => rewrite H
       end.
  all: eexists; split; [symmetry; eassumption | reflexivity].
Qed.

(** A run of [order], with the document the service was resolved in. *)
Lemma order_run_resolved
    (did serviceType consumerAddress : string) (serviceIndex : Z)
    (mpAddress : option string) (w w' : W) (r : outcome (option string))
    (trace : list Event) :
  order ocean did serviceType consumerAddress serviceIndex mpAddress w
  = (r, w', trace) ->
  exists answer,
    (exists e, r = Raise e /\ trace = [EvRetrieveDDO did answer] /\
               (answer = Raise e \/ exists what, e = TypeError what))
    \/
    (exists ddo target w1 rb tb,
        answer = Ok (Some ddo) /\
        resolved ddo serviceType serviceIndex target /\
        order_try ocean did (fst target) consumerAddress (snd target)
          mpAddress w1 = (rb, w', tb) /\
        ((exists v, rb = Ok v /\ r = Ok v /\
                    trace = EvRetrieveDDO did answer :: tb)
         \/
         (exists e, rb = Raise e /\ r = Ok None /\
                    trace = EvRetrieveDDO did answer
                            :: tb ++ [EvLog ConsoleError (Caught e)]))).
Proof.
  intros Hrun. unfold order in Hrun.
  apply bind_run in Hrun
    as [(target & w1 & t1 & t2 & Htarget & Htry & ->) | (e & Htarget & ->)].
  - cbv beta in Htry.
    destruct (@order_target_run _ _ _ _ _ _ _ Htarget)
      as (answer & -> & ddo & -> & Hres).
    exists (Ok (Some ddo)). right. exists ddo, target, w1.
    apply try_catch_run in Htry
      as [(v & Hbody & ->) | (e & lb & tb & tc & Hbody & Hcatch & ->)].
    + exists (Ok v), t2. repeat split; try assumption.
      left. exists v. repeat split.
    + unfold log in Hcatch. invert_run.
      exists (Raise e), tb. repeat split; try assumption.
      right. exists e. repeat split.
  - destruct (@order_target_run _ _ _ _ _ _ _ Htarget) as (answer & -> & Hcase).
    exists answer. left. exists e. repeat split. exact Hcase.
Qed.

(** The [try] block pays at most once. *)
Lemma order_try_pays_once
    (did serviceType consumerAddress : string) (serviceIndex : Z)
    (mpAddress : option string) (w w' : W) (r : outcome (option string))
    (trace : list Event) :
  order_try ocean did serviceType consumerAddress serviceIndex mpAddress w
  = (r, w', trace) ->
  (List.length (filter is_startOrder trace) <= 1)%nat.
Proof.
  intros Hrun.
  unfold order_try, initialize, getServiceByIndex, resolve, log, deref in Hrun.
  invert_run; simpl; lia.
Qed.

(** The quote is asked for the resolved service. *)
Lemma order_try_initialize
    (did serviceType consumerAddress : string) (serviceIndex : Z)
    (mpAddress : option string) (w w' : W) (r : outcome (option string))
    (trace : list Event) (did' ty c : string) (idx : Z)
    (answer : outcome (option string)) :
  order_try ocean did serviceType consumerAddress serviceIndex mpAddress w
  = (r, w', trace) ->
  In (EvInitialize did' idx ty c answer) trace ->
  did' = did /\ idx = serviceIndex /\ ty = serviceType /\
  c = consumerAddress.
Proof.
  intros Hrun Hin.
  unfold order_try, initialize, getServiceByIndex, resolve, log, deref in Hrun.
  invert_run; trace_cases Hin; inversion Hin; repeat split.
Qed.

(** The conditions under which the [try] block pays. *)
Lemma order_try_payment
    (did serviceType consumerAddress : string) (serviceIndex : Z)
    (mpAddress : option string) (w w' : W) (r : outcome (option string))
    (trace : list Event) (tok d0x c : string) (amount : Q) (idx : Z)
    (mp : option string) (answer : outcome (option TransactionReceipt)) :
  order_try ocean did serviceType consumerAddress serviceIndex mpAddress w
  = (r, w', trace) ->
  In (EvStartOrder tok amount d0x idx mp c answer) trace ->
  r = paymentResult answer /\
  exists res quote timeout previous balance,
    In (EvInitialize did serviceIndex serviceType consumerAddress
          (Ok (Some res))) trace /\
    JSON_parse ocean res = Ok (Some quote) /\
    tok = pd_dataToken quote /\
    amount = fromWei (numTokens quote) /\
    d0x = didZeroX ocean did /\ idx = serviceIndex /\
    mp = mpAddress /\ c = consumerAddress /\
    In (EvGetPreviousValidOrders tok (numTokens quote) d0x idx timeout c
          (Ok previous)) trace /\
    truthy previous = false /\
    In (EvBalance tok c (Ok balance)) trace /\
    Qle_bool balance amount = false.
Proof.
  intros Hrun Hin.
  unfold order_try, initialize, getServiceByIndex, resolve, log, deref in Hrun.
  invert_run; trace_cases Hin; inversion Hin; subst.
  all: try match goal with
       | H : Some _ = None |- _ => discriminate H
       | H : None = Some _ |- _ => discriminate H
       end.
  all: split; [reflexivity|].
  all: do 5 eexists.
  all: split; [simpl; left; reflexivity|].
  all: split; [eassumption|].
  all: do 6 (split; [reflexivity|]).
  all: split; [simpl; do 2 right; left; reflexivity|].
  all: split; [eassumption|].
  all: split; [simpl; do 3 right; left; reflexivity|].
  all: assumption.
Qed.


(** X9: [order] raises only when the first lookup of the service fails.
    If a run of [order] ends in an error, the run consists of the single
    retrieval of the document, and the error is the one the retrieval
    threw or a [TypeError] (no document, or no matching service).  Errors
    of the provider, of [JSON.parse] and of the ledger never reach the
    caller. *)
Theorem order_raises_only_on_lookup
    (did serviceType consumerAddress : string) (serviceIndex : Z)
    (mpAddress : option string) (w w' : W) (e : exn) (trace : list Event) :
  order ocean did serviceType consumerAddress serviceIndex mpAddress w
  = (Raise e, w', trace) ->
  exists answer,
    trace = [EvRetrieveDDO did answer] /\
    (answer = Raise e \/ exists what, e = TypeError what).
Proof.
  intros Hrun.
  destruct (@order_run_resolved _ _ _ _ _ _ _ _ _ Hrun)
    as (answer & [(e0 & [= <-] & -> & Hcase)
                 | (ddo & target & w1 & rb & tb & _ & _ & _
                    & [(v & _ & [=] & _) | (e0 & _ & [=] & _)])]).
  exists answer. split; [reflexivity | exact Hcase].
Qed.

(** X10: [order] pays at most once, and only with funds.  Every run
    contains at most one [startOrder] call; when it contains one, the
    call is made for the token and the cost of the quote obtained in this
    run, for the resolved service, the given fee collector and consumer,
    after the ledger has answered that there is no previous valid order
    and has reported a balance strictly greater than the cost. *)
Theorem order_payment_guarded
    (did serviceType consumerAddress : string) (serviceIndex : Z)
    (mpAddress : option string) (w w' : W) (r : outcome (option string))
    (trace : list Event) :
  order ocean did serviceType consumerAddress serviceIndex mpAddress w
  = (r, w', trace) ->
  (List.length (filter is_startOrder trace) <= 1)%nat /\
  (forall tok amount d0x idx mp c answer,
      In (EvStartOrder tok amount d0x idx mp c answer) trace ->
      exists ty res quote timeout previous balance,
        In (EvInitialize did idx ty consumerAddress (Ok (Some res))) trace /\
        JSON_parse ocean res = Ok (Some quote) /\
        tok = pd_dataToken quote /\
        amount = fromWei (numTokens quote) /\
        d0x = didZeroX ocean did /\
        mp = mpAddress /\ c = consumerAddress /\
        In (EvGetPreviousValidOrders tok (numTokens quote) d0x idx timeout c
              (Ok previous)) trace /\
        truthy previous = false /\
        In (EvBalance tok c (Ok balance)) trace /\
        (amount < balance)%Q).
Proof.
  intros Hrun.
  destruct (@order_run_resolved _ _ _ _ _ _ _ _ _ Hrun)
    as (answer & [(e0 & -> & -> & _)
                 | (ddo & target & w1 & rb & tb & -> & _ & Hbody & Hcase)]).
  { split; [simpl; lia|]. intros * Hin. trace_cases Hin. }
  pose proof (@order_try_pays_once _ _ _ _ _ _ _ _ _ Hbody) as Honce.
  assert (Hlift : forall ev, In ev tb -> In ev trace).
  { intros ev Hev.
    destruct Hcase as [(v & _ & _ & ->) | (e0 & _ & _ & ->)].
    - now right.
    - right. apply in_or_app. now left. }
  split.
  - destruct Hcase as [(v & _ & _ & ->) | (e0 & _ & _ & ->)]; simpl.
    + exact Honce.
    + rewrite filter_app. simpl. rewrite app_nil_r. exact Honce.
  - intros tok amount d0x idx mp c answer0 Hin.
    assert (Hin' : In (EvStartOrder tok amount d0x idx mp c answer0) tb).
    { destruct Hcase as [(v & _ & _ & ->) | (e0 & _ & _ & ->)].
      - destruct Hin as [Hin | Hin]; [discriminate | assumption].
      - destruct Hin as [Hin | Hin]; [discriminate|].
        apply in_app_or in Hin as [Hin | [Hin | []]];
          [assumption | discriminate]. }
    destruct (@order_try_payment _ _ _ _ _ _ _ _ _ _ _ _ _ _ _ _ Hbody Hin')
      as (_ & res & quote & timeout & previous & balance & Hi & Hparse
          & -> & -> & -> & -> & -> & -> & Hp & Hfalsy & Hb & Hq).
    exists (fst target), res, quote, timeout, previous, balance.
    repeat split; auto.
    destruct (Qlt_le_dec (fromWei (numTokens quote)) balance) as [Hlt | Hle];
      [assumption|].
    apply Qle_bool_iff in Hle. congruence.
Qed.


(** X12: which service the quote is asked for.  Every [initialize] call
    of a run of [order] is made for the given DID and consumer and for
    the service resolved in the document retrieved first: with
    [serviceIndex] -1, the given type and the index of the last service
    of that type; with any other [serviceIndex], that index and the type
    of the last service carrying it, the [serviceType] argument being
    ignored. *)
Theorem order_quote_target
    (did serviceType consumerAddress : string) (serviceIndex : Z)
    (mpAddress : option string) (w w' : W) (r : outcome (option string))
    (trace : list Event) (did' ty c : string) (idx : Z)
    (answer : outcome (option string)) :
  order ocean did serviceType consumerAddress serviceIndex mpAddress w
  = (r, w', trace) ->
  In (EvInitialize did' idx ty c answer) trace ->
  did' = did /\ c = consumerAddress /\
  exists ddo rest,
    trace = EvRetrieveDDO did (Ok (Some ddo)) :: rest /\
    resolved ddo serviceType serviceIndex (ty, idx).
Proof.
  intros Hrun Hin.
  destruct (@order_run_resolved _ _ _ _ _ _ _ _ _ Hrun)
    as (a & [(e0 & -> & -> & _)
            | (ddo & target & w1 & rb & tb & -> & Hres & Hbody & Hcase)]).
  { trace_cases Hin. }
  assert (Hin' : In (EvInitialize did' idx ty c answer) tb).
  { destruct Hcase as [(v & _ & _ & ->) | (e0 & _ & _ & ->)].
    - destruct Hin as [Hin | Hin]; [discriminate | assumption].
    - destruct Hin as [Hin | Hin]; [discriminate|].
      apply in_app_or in Hin as [Hin | [Hin | []]];
        [assumption | discriminate]. }
  destruct (@order_try_initialize _ _ _ _ _ _ _ _ _ _ _ _ _ _ Hbody Hin')
    as (-> & -> & -> & ->).
  split; [reflexivity|]. split; [reflexivity|].
  exists ddo.
  destruct Hcase as [(v & _ & _ & ->) | (e0 & _ & _ & ->)];
    eexists; (split; [reflexivity|]); now destruct target.
Qed.

End OrderMore.

(* ------------------------------------------------------------------ *)
(** ** Editing a stored document *)

Section Lists.

Lemma service_at_None (services : list Service) (i : Z) :
  service_at services i = None <->
  i < 0 \/ Z.of_nat (List.length services) <= i.
Proof.
  unfold service_at. destruct (Z.ltb_spec i 0) as [Hneg | Hpos].
  - split; [intros _; now left | reflexivity].
  - rewrite nth_error_None. split.
    + intros H. right. lia.
    + intros [H | H]; lia.
Qed.

Lemma service_at_Some (services : list Service) (i : Z) (s : Service) :
  service_at services i = Some s ->
  0 <= i /\ nth_error services (Z.to_nat i) = Some s.
Proof.
  unfold service_at. destruct (Z.ltb_spec i 0) as [Hneg | Hpos];
    [discriminate|].
  intros Hnth. split; [assumption | exact Hnth].
Qed.

Lemma replace_at_length (services : list Service) (n : nat) (s : Service) :
  List.length (replace_at services n s) = List.length services.
Proof.
  revert n. induction services as [|x l IH]; intros [|n]; simpl;
    try reflexivity.
  now rewrite IH.
Qed.

Lemma replace_at_same (services : list Service) (n : nat) (s old : Service) :
  nth_error services n = Some old ->
  nth_error (replace_at services n s) n = Some s.
Proof.
  revert n. induction services as [|x l IH]; intros [|n]; simpl;
    try discriminate; [reflexivity | apply IH].
Qed.

Lemma replace_at_other (services : list Service) (n m : nat) (s : Service) :
  n <> m ->
  nth_error (replace_at services n s) m = nth_error services m.
Proof.
  revert n m. induction services as [|x l IH]; intros [|n] [|m] H; simpl;
    try reflexivity; try congruence.
  apply IH. congruence.
Qed.

(** Replacing a service by one that agrees with it under [f] does not
    change the list under [f]. *)
Lemma replace_at_map (A : Type) (f : Service -> A) (services : list Service)
    (n : nat) (s old : Service) :
  nth_error services n = Some old -> f s = f old ->
  map f (replace_at services n s) = map f services.
Proof.
  revert n. induction services as [|x l IH]; intros [|n]; simpl;
    try discriminate.
  - intros [= ->] ->. reflexivity.
  - intros H E. now rewrite (IH _ H E).
Qed.

Lemma service_at_replace_other (services : list Service) (i j : Z)
    (s : Service) :
  0 <= i -> i <> j ->
  service_at (replace_at services (Z.to_nat i) s) j = service_at services j.
Proof.
  intros Hi Hij. unfold service_at. destruct (Z.ltb_spec j 0); [reflexivity|].
  apply replace_at_other. lia.
Qed.

End Lists.

Section EditMore.

Context {W : Type}.
Variable ocean : Ocean W.

(** X13: what [updateComputePrivacy] sends to the metadata index.  In
    every run, an update call is made only for a document that was
    retrieved in the run and whose service at position [serviceIndex] is
    of type [compute]; the document sent keeps the DID, the token
    address and the proof of the stored one (no new proof is requested),
    keeps the type, index and endpoint of every service, differs from the
    stored one at position [serviceIndex] only, and carries the three
    privacy settings given; the result is that document when the index
    accepts it and null when it does not. *)
Theorem updateComputePrivacy_layout (did : string) (serviceIndex : Z)
    (computePrivacy : ServiceComputePrivacy) (account : Account) (w w' : W)
    (r : outcome (option DDO)) (trace : list Event)
    (did' : string) (ddo' : DDO) (owner : string) (answer : outcome bool) :
  updateComputePrivacy ocean did serviceIndex computePrivacy account w
  = (r, w', trace) ->
  In (EvUpdate did' ddo' owner answer) trace ->
  exists ddo serv serv',
    In (EvRetrieveDDO did (Ok (Some ddo))) trace /\
    service_at (service ddo) serviceIndex = Some serv /\
    type serv = "compute" /\
    did' = id ddo /\ owner = getId account /\
    ddo' = withServices ddo (service ddo') /\
    map type (service ddo') = map type (service ddo) /\
    map index (service ddo') = map index (service ddo) /\
    map serviceEndpoint (service ddo') = map serviceEndpoint (service ddo) /\
    (forall i, i <> serviceIndex ->
               service_at (service ddo') i = service_at (service ddo) i) /\
    service_at (service ddo') serviceIndex = Some serv' /\
    main_privacy (main (attributes serv')) = Some computePrivacy /\
    existsb is_signText trace = false /\
    r = storedResult ddo' answer.
Proof.
  intros Hrun Hin.
  unfold updateComputePrivacy, deref in Hrun.
  invert_run; trace_cases Hin; inversion Hin; subst; clear Hin.
  all: match goal with
       | H : service_at (service ?d) _ = Some ?s |- _ =>
           exists d, s;
           destruct (service_at_Some _ _ H) as [Hpos Hnth]
       end.
  all: eexists.
  all: split; [simpl; auto|].
  all: split; [assumption|].
  all: split; [apply String.eqb_eq; now apply negb_false_iff|].
  all: do 3 (split; [reflexivity|]).
  all: simpl.
  all: split; [now apply (replace_at_map type _ _ _ Hnth)|].
  all: split; [now apply (replace_at_map index _ _ _ Hnth)|].
  all: split; [now apply (replace_at_map serviceEndpoint _ _ _ Hnth)|].
  all: split; [intros i Hi; apply service_at_replace_other; congruence|].
  all: split;
    [unfold service_at;
     destruct (Z.ltb_spec serviceIndex 0); [lia|];
     apply (replace_at_same _ _ _ Hnth)|].
  all: split; [simpl; now destruct computePrivacy|].
  all: split; reflexivity.
Qed.

(** X14: [updateComputePrivacy] throws instead of returning null when
    there is nothing to edit.  For a retrieved document, a
    [serviceIndex] that is negative or not below the number of services
    raises a [TypeError], and so does a service of type [compute] without
    [privacy] settings; in both cases the retrieval is the only call of
    the run and nothing is sent to the metadata index. *)
Theorem updateComputePrivacy_type_errors (did : string) (serviceIndex : Z)
    (computePrivacy : ServiceComputePrivacy) (account : Account)
    (ddo : DDO) (w w1 : W) :
  metadatastore_retrieveDDO ocean did w = (Ok (Some ddo), w1) ->
  (serviceIndex < 0 \/ Z.of_nat (List.length (service ddo)) <= serviceIndex ->
   updateComputePrivacy ocean did serviceIndex computePrivacy account w
   = (Raise (TypeError "type"), w1, [EvRetrieveDDO did (Ok (Some ddo))]))
  /\
  (forall serv,
      service_at (service ddo) serviceIndex = Some serv ->
      type serv = "compute" ->
      main_privacy (main (attributes serv)) = None ->
      updateComputePrivacy ocean did serviceIndex computePrivacy account w
      = (Raise (TypeError "allowRawAlgorithm"), w1,
         [EvRetrieveDDO did (Ok (Some ddo))])).
Proof.
  intros Hdoc. split.
  - intros Hrange. apply service_at_None in Hrange.
    unfold updateComputePrivacy, bind, call. rewrite Hdoc. simpl.
    rewrite Hrange. reflexivity.
  - intros serv Hserv Htype Hprivacy.
    unfold updateComputePrivacy, bind, call. rewrite Hdoc. simpl.
    rewrite Hserv. simpl. rewrite Htype. simpl. rewrite Hprivacy.
    reflexivity.
Qed.

Variable ops : InformationOps.

Lemma editService_layout (newMetadata : EditableMetadata) (s : Service) :
  type (editService ops newMetadata s) = type s /\
  index (editService ops newMetadata s) = index s /\
  serviceEndpoint (editService ops newMetadata s) = serviceEndpoint s.
Proof.
  unfold editService.
  destruct (String.eqb (type s) "metadata"); [|repeat split].
  destruct (truthy (em_title newMetadata)); repeat split.
Qed.

Lemma editService_information (newMetadata : EditableMetadata) (s : Service) :
  type s = "metadata" ->
  additionalInformation (attributes (editService ops newMetadata s)) <> None.
Proof.
  intros Htype. unfold editService. rewrite Htype. simpl. discriminate.
Qed.

Lemma withCost_withCost (s : Service) (c1 c2 : string) :
  withCost (withCost s c1) c2 = withCost s c2.
Proof. reflexivity. Qed.

(** The prices leave everything but [cost] as it is. *)
Lemma applyServicePrices_map (A : Type) (f : Service -> A)
    (prices : list ServicePrice) (services out : list Service) :
  (forall s c, f (withCost s c) = f s) ->
  applyServicePrices prices services = Ok out ->
  map f out = map f services.
Proof.
  intros Hf. revert services.
  induction prices as [|p rest IH]; intros services; simpl.
  - now intros [= ->].
  - destruct (priceApplies p); [|apply IH].
    destruct (service_at services (sp_serviceIndex p)) as [s|] eqn:E;
      [|discriminate].
    intros H. rewrite (IH _ H).
    destruct (service_at_Some _ _ E) as [_ Hnth].
    apply (replace_at_map f _ _ _ Hnth). apply Hf.
Qed.

(** Position by position, the prices assign the cost of the last price
    that applies. *)
Lemma applyServicePrices_at (prices : list ServicePrice)
    (services out : list Service) (i : Z) :
  applyServicePrices prices services = Ok out ->
  service_at out i
  = option_map (fun s => repriced s (lastPriceFor prices i))
      (service_at services i).
Proof.
  revert services.
  induction prices as [|p rest IH]; intros services; simpl.
  - intros [= ->]. now destruct (service_at out i).
  - destruct (priceApplies p) eqn:Ha; simpl.
    + destruct (service_at services (sp_serviceIndex p)) as [s|] eqn:E;
        [|discriminate].
      intros H. rewrite (IH _ H).
      destruct (service_at_Some _ _ E) as [Hpos Hnth].
      destruct (Z.eqb_spec (sp_serviceIndex p) i) as [<- | Hne].
      * assert (Hat : service_at
                        (replace_at services (Z.to_nat (sp_serviceIndex p))
                           (withCost s (sp_cost p))) (sp_serviceIndex p)
                      = Some (withCost s (sp_cost p))).
        { unfold service_at.
          destruct (Z.ltb_spec (sp_serviceIndex p) 0); [lia|].
          apply (replace_at_same _ _ _ Hnth). }
        rewrite Hat, E. simpl.
        now destruct (lastPriceFor rest (sp_serviceIndex p)).
      * rewrite service_at_replace_other by assumption.
        destruct (service_at services i); simpl; [|reflexivity].
        now destruct (lastPriceFor rest i).
    + intros H. rewrite (IH _ H).
      destruct (service_at services i); simpl; [|reflexivity].
      now destruct (lastPriceFor rest i).
Qed.

(** No price applies to position 0: its index is falsy. *)
Lemma lastPriceFor_zero (prices : list ServicePrice) :
  lastPriceFor prices 0 = None.
Proof.
  induction prices as [|p rest IH]; simpl; [reflexivity|].
  rewrite IH. unfold priceApplies.
  destruct (truthy (Some (sp_cost p))), (sp_serviceIndex p =? 0);
    reflexivity.
Qed.

(** A price that applies to a position outside the list makes the loop
    throw, wherever it stands in the list of prices. *)
Lemma applyServicePrices_out_of_range (prices : list ServicePrice)
    (services : list Service) (p : ServicePrice) :
  In p prices -> priceApplies p = true ->
  sp_serviceIndex p < 0
  \/ Z.of_nat (List.length services) <= sp_serviceIndex p ->
  applyServicePrices prices services = Raise (TypeError "attributes").
Proof.
  revert services.
  induction prices as [|q rest IH]; intros services; simpl; [intros []|].
  intros [-> | Hin] Ha Hrange.
  - rewrite Ha. apply service_at_None in Hrange. now rewrite Hrange.
  - destruct (priceApplies q); [|now apply IH].
    destruct (service_at services (sp_serviceIndex q)); [|reflexivity].
    apply IH; try assumption. now rewrite replace_at_length.
Qed.

(** The document of an update call of [editMetadata], read back from
    the trace. *)
Lemma editMetadata_update_inv (did : string) (newMetadata : EditableMetadata)
    (account : Account) (w w' : W) (r : outcome (option DDO))
    (trace : list Event) (did' : string) (ddo' : DDO) (owner : string)
    (answer : outcome bool) :
  editMetadata ocean ops did newMetadata account w = (r, w', trace) ->
  In (EvUpdate did' ddo' owner answer) trace ->
  exists ddo services,
    In (EvRetrieveDDO did (Ok (Some ddo))) trace /\
    match em_servicePrices newMetadata with
    | Some prices =>
        applyServicePrices prices
          (map (editService ops newMetadata) (service ddo)) = Ok services
    | None => services = map (editService ops newMetadata) (service ddo)
    end /\
    ddo' = withServices ddo services /\
    did' = id ddo /\ owner = getId account /\
    existsb is_signText trace = false /\
    r = storedResult ddo' answer.
Proof.
  intros Hrun Hin.
  unfold editMetadata, deref in Hrun.
  invert_run; trace_cases Hin; inversion Hin; subst; clear Hin.
  all: match goal with
       | H : metadatastore_retrieveDDO _ _ _ = (Ok (Some ?d), _) |- _ =>
           exists d
       end.
  all: eexists; split; [simpl; auto|].
  all: split; [first [eassumption | reflexivity]|].
  all: repeat split.
Qed.

(** X15: [editMetadata] keeps the layout of the document.  In every run,
    the document sent to the metadata index is the one retrieved in the
    run with the same DID, token address and proof (no new proof is
    requested) and with the same number of services, each with its type,
    index and endpoint; every service of type [metadata] has an
    [additionalInformation] afterwards, even when the edit names none;
    the result is that document when the index accepts it and null when
    it does not. *)
Theorem editMetadata_layout (did : string) (newMetadata : EditableMetadata)
    (account : Account) (w w' : W) (r : outcome (option DDO))
    (trace : list Event) (did' : string) (ddo' : DDO) (owner : string)
    (answer : outcome bool) :
  editMetadata ocean ops did newMetadata account w = (r, w', trace) ->
  In (EvUpdate did' ddo' owner answer) trace ->
  exists ddo,
    In (EvRetrieveDDO did (Ok (Some ddo))) trace /\
    did' = id ddo /\ owner = getId account /\
    ddo' = withServices ddo (service ddo') /\
    map type (service ddo') = map type (service ddo) /\
    map index (service ddo') = map index (service ddo) /\
    map serviceEndpoint (service ddo') = map serviceEndpoint (service ddo) /\
    (forall s, In s (service ddo') -> type s = "metadata" ->
               additionalInformation (attributes s) <> None) /\
    existsb is_signText trace = false /\
    r = storedResult ddo' answer.
Proof.
  intros Hrun Hin.
  destruct (@editMetadata_update_inv _ _ _ _ _ _ _ _ _ _ _ Hrun Hin)
    as (ddo & services & Hdoc & Hservices & -> & -> & -> & Hsign & ->).
  exists ddo. simpl.
  assert (Hmap : forall (A : Type) (f : Service -> A),
             (forall s c, f (withCost s c) = f s) ->
             map f services
             = map f (map (editService ops newMetadata) (service ddo))).
  { intros A f Hf. destruct (em_servicePrices newMetadata) as [prices|].
    - now apply (applyServicePrices_map f prices).
    - now subst. }
  assert (Hedit : forall (A : Type) (f : Service -> A),
             (forall s, f (editService ops newMetadata s) = f s) ->
             map f (map (editService ops newMetadata) (service ddo))
             = map f (service ddo)).
  { intros A f Hf. rewrite map_map. apply map_ext. exact Hf. }
  repeat split; try assumption.
  - rewrite (Hmap _ type) by reflexivity.
    apply Hedit. intros s. apply editService_layout.
  - rewrite (Hmap _ index) by reflexivity.
    apply Hedit. intros s. apply editService_layout.
  - rewrite (Hmap _ serviceEndpoint) by reflexivity.
    apply Hedit. intros s. apply editService_layout.
  - intros s Hs Htype.
    pose proof (Hmap _ (fun x => (type x, additionalInformation (attributes x)))
                  (fun _ _ => eq_refl)) as Hinfo.
    apply (in_map (fun x => (type x, additionalInformation (attributes x))))
      in Hs.
    rewrite Hinfo, map_map in Hs.
    apply in_map_iff in Hs as (s0 & E & Hs0).
    injection E as Et Ei. rewrite <- Ei.
    apply editService_information.
    rewrite <- (proj1 (editService_layout newMetadata s0)). congruence.
Qed.

(** X16: what [editMetadata] does to each service.  In the document sent
    to the metadata index, the service at every position is the stored
    one, edited if it is of type [metadata] (and only then), with the
    cost of the last price entry that applies to the position: an entry
    applies when its cost is a non-empty string and its [serviceIndex] is
    not 0.  The service at position 0 is therefore never re-priced, and a
    service that is neither of type [metadata] nor named by a price is
    left as it is. *)
Theorem editMetadata_services (did : string) (newMetadata : EditableMetadata)
    (account : Account) (w w' : W) (r : outcome (option DDO))
    (trace : list Event) (did' : string) (ddo' : DDO) (owner : string)
    (answer : outcome bool) :
  editMetadata ocean ops did newMetadata account w = (r, w', trace) ->
  In (EvUpdate did' ddo' owner answer) trace ->
  exists ddo,
    In (EvRetrieveDDO did (Ok (Some ddo))) trace /\
    let priceFor i :=
      match em_servicePrices newMetadata with
      | Some prices => lastPriceFor prices i
      | None => None
      end in
    (forall i,
        service_at (service ddo') i
        = option_map
            (fun s => repriced (editService ops newMetadata s) (priceFor i))
            (service_at (service ddo) i)) /\
    service_at (service ddo') 0
    = option_map (editService ops newMetadata) (service_at (service ddo) 0) /\
    (forall i s,
        service_at (service ddo) i = Some s ->
        type s <> "metadata" -> priceFor i = None ->
        service_at (service ddo') i = Some s).
Proof.
  intros Hrun Hin.
  destruct (@editMetadata_update_inv _ _ _ _ _ _ _ _ _ _ _ Hrun Hin)
    as (ddo & services & Hdoc & Hservices & -> & -> & -> & Hsign & ->).
  exists ddo. split; [assumption|]. intros priceFor.
  change (service (withServices ddo services)) with services.
  assert (Hedit : forall i,
             service_at (map (editService ops newMetadata) (service ddo)) i
             = option_map (editService ops newMetadata)
                 (service_at (service ddo) i)).
  { intros i. unfold service_at. destruct (i <? 0); [reflexivity|].
    apply nth_error_map. }
  assert (Hat : forall i,
             service_at services i
             = option_map
                 (fun s => repriced (editService ops newMetadata s)
                             (priceFor i))
                 (service_at (service ddo) i)).
  { intros i. unfold priceFor.
    destruct (em_servicePrices newMetadata) as [prices|].
    - rewrite (applyServicePrices_at _ _ i Hservices), Hedit.
      now destruct (service_at (service ddo) i).
    - subst services. rewrite Hedit.
      now destruct (service_at (service ddo) i). }
  split; [exact Hat|]. split.
  - rewrite Hat. unfold priceFor.
    destruct (em_servicePrices newMetadata) as [prices|];
      [rewrite lastPriceFor_zero|];
      now destruct (service_at (service ddo) 0).
  - intros i s Hs Htype Hprice. rewrite Hat, Hs, Hprice. simpl.
    unfold editService. apply String.eqb_neq in Htype. now rewrite Htype.
Qed.

(** X17: a price entry for a position that does not exist makes
    [editMetadata] throw.  For a retrieved document, when some entry of
    [servicePrices] applies (non-empty cost, [serviceIndex] not 0) and
    names a position that is negative or not below the number of
    services, the run ends in a [TypeError] after the retrieval alone:
    nothing is sent to the metadata index, whatever the other entries
    and fields of the edit are. *)
Theorem editMetadata_price_out_of_range (did : string)
    (newMetadata : EditableMetadata) (account : Account) (ddo : DDO)
    (prices : list ServicePrice) (p : ServicePrice) (w w1 : W) :
  metadatastore_retrieveDDO ocean did w = (Ok (Some ddo), w1) ->
  em_servicePrices newMetadata = Some prices ->
  In p prices -> priceApplies p = true ->
  sp_serviceIndex p < 0
  \/ Z.of_nat (List.length (service ddo)) <= sp_serviceIndex p ->
  editMetadata ocean ops did newMetadata account w
  = (Raise (TypeError "attributes"), w1, [EvRetrieveDDO did (Ok (Some ddo))]).
Proof.
  intros Hdoc Hprices Hin Ha Hrange.
  unfold editMetadata, bind, call. rewrite Hdoc. simpl. rewrite Hprices.
  rewrite (@applyServicePrices_out_of_range prices _ p Hin Ha);
    [reflexivity|].
  now rewrite length_map.
Qed.

End EditMore.

(* ------------------------------------------------------------------ *)
(** ** Consuming, continued *)

Section ConsumeMore.

Context {W : Type}.
Variable ocean : Ocean W.

(** X18: what [download] answers.  In every run, the result is [true]
    exactly when the trace holds a provider download call that succeeded;
    [download] never answers [false]; a run makes at most one provider
    call; and the folder handed to the provider is undefined when the
    caller's [destination] is undefined or empty. *)
Theorem download_result (did txId tokenAddress : string)
    (consumerAccount : Account) (destination : option string)
    (w w' : W) (r : outcome bool) (trace : list Event) :
  download ocean did txId tokenAddress consumerAccount destination w
  = (r, w', trace) ->
  r <> Ok false /\
  (r = Ok true <->
   exists serviceType serviceIndex folder files,
     In (EvDownload did txId tokenAddress serviceType serviceIndex folder
           consumerAccount files (Ok tt)) trace) /\
  (List.length (filter is_download trace) <= 1)%nat /\
  (forall did' txId' token' serviceType serviceIndex folder account files
          answer,
      In (EvDownload did' txId' token' serviceType serviceIndex folder
            account files answer) trace ->
      truthy destination = false -> folder = None).
Proof.
  intros Hrun.
  unfold download, resolve, deref, log in Hrun.
  invert_run.
  all: split; [discriminate|].
  all: split;
    [split;
     [intros E;
      try discriminate E;
      match goal with
      | H : provider_download _ _ _ _ _ _ _ _ _ _ = (Ok ?u, _) |- _ =>
          destruct u; do 4 eexists; rewrite ?app_nil_r; simpl;
          right; right; left; reflexivity
      end
     |intros (t & i & f & fs & Hin); trace_cases Hin; try reflexivity;
      inversion Hin]|].
  all: split; [rewrite ?app_nil_r; simpl; lia|].
  all: intros did' txId' token' t i f a fs answer Hin Hd;
    trace_cases Hin; inversion Hin; subst; rewrite Hd; reflexivity.
Qed.

(** X21: what [creator] needs before it answers.  In every run, an
    answer is the creator field of the proof of the document retrieved in
    the run, given only after the verification of that proof's signature
    against the document's checksum has returned; a document without a
    proof makes the run end in a [TypeError] before any verification; and
    no run calls the ledger or the metadata index's update. *)
Theorem creator_answer (did : string) (w w' : W) (r : outcome string)
    (trace : list Event) :
  creator ocean did w = (r, w', trace) ->
  (forall c, r = Ok c ->
     exists ddo p signer,
       In (EvRetrieveDDO did (Ok (Some ddo))) trace /\
       proof ddo = Some p /\ c = proof_creator p /\
       In (EvVerifyText (DDO_getChecksum ocean ddo) (signatureValue p)
             (Ok signer)) trace) /\
  (forall ddo, In (EvRetrieveDDO did (Ok (Some ddo))) trace ->
               proof ddo = None ->
               r = Raise (TypeError "creator") /\
               existsb is_verifyText trace = false) /\
  existsb is_ledger trace = false /\
  existsb is_update trace = false.
Proof.
  intros Hrun.
  unfold creator, resolve, deref, log in Hrun.
  invert_run.
  all: split;
    [intros c E;
     first [discriminate E
           |injection E as <-;
            do 3 eexists; split; [simpl; left; reflexivity|];
            split; [eassumption|]; split; [reflexivity|];
            rewrite ?app_nil_r; simpl; auto]|].
  all: split; [|split; rewrite ?app_nil_r; reflexivity].
  all: intros ddo Hin Hp; trace_cases Hin; inversion Hin; subst;
    try congruence; split; reflexivity.
Qed.

End ConsumeMore.

(* ------------------------------------------------------------------ *)
(** ** The pool factory *)

Section PoolFactoryMore.

Import PoolFactory.

Variables Web3 ABI C : Type.
Variable jsonFactoryABI : ABI.
Variable contract : Web3 -> ABI -> jsString -> string -> C -> outcome unit * C.
Variable send : string -> Z -> C -> outcome TransactionReceipt * C.


(** X20: the address guard of [createPool] cannot fire on an instance
    the constructor built.  The constructor leaves [factoryAddress]
    without a value when it is given none, null or the empty string, and
    never stores null; so for every instance built with a [web3] object,
    [createPool] starts by building the contract object, with an
    undefined address in those cases, with the ABI of [BFactory.json]
    when no ABI was given, and it sends the transaction with the default
    gas limit 1000000 when no (or a zero) limit was given. *)
Theorem createPool_after_new (w : Web3) (abi : option ABI)
    (address : option string) (gaslimit : option Z) (account : string)
    (c : C) :
  let this := new jsonFactoryABI (Some w) abi address gaslimit in
  exists r rest,
    snd (createPool contract send this account c)
    = NewContract w
        (match abi with Some given => given | None => jsonFactoryABI end)
        (if truthy address then Str (toString address) else Undefined)
        account r :: rest /\
    factoryAddress this <> Null /\
    ~ In (@LogError _ _ "ERROR: bfactoryAddress is null") rest /\
    (forall from gas answer,
        In (@SendNewBPool _ _ from gas answer) rest ->
        from = account /\
        gas = match gaslimit with
              | Some g => if g =? 0 then 1000000 else g
              | None => 1000000
              end).
Proof.
  intros this. unfold createPool, this, new. simpl.
  set (g := match gaslimit with
            | Some g => if g =? 0 then 1000000 else g
            | None => 1000000
            end).
  set (abi' := match abi with Some given => given | None => jsonFactoryABI end).
  destruct (truthy address);
    match goal with
    | |- context [contract w abi' ?a account c] =>
        destruct (contract w abi' a account c) as [[[]|e] c1];
        [destruct (send account g c1) as [[tx|e] c2]|]
    end.
  all: simpl; do 2 eexists; split; [reflexivity|].
  all: split; [discriminate|].
  all: split; [intros Hin; trace_cases Hin|].
  all: intros from gas answer Hin; trace_cases Hin; inversion Hin; subst;
    split; reflexivity.
Qed.

End PoolFactoryMore.

(* ------------------------------------------------------------------ *)
(** ** The properties above on the sample runs *)

Lemma order_raises_only_on_lookup_witness :
  exists answer,
    snd More.orderedCompute = [EvRetrieveDDO Sample.did answer] /\
    (answer = Raise (TypeError "index")
     \/ exists what, TypeError "index" = TypeError what).
Proof.
  apply (@order_raises_only_on_lookup unit (Sample.ocean 101) Sample.did
           "compute" "0xconsumer" (-1) None tt tt (TypeError "index")
           (snd More.orderedCompute)).
  reflexivity.
Defined.

Lemma order_payment_guarded_witness :
  (List.length (filter is_startOrder (snd More.ordered)) <= 1)%nat /\
  (forall tok amount d0x idx mp c answer,
      In (EvStartOrder tok amount d0x idx mp c answer) (snd More.ordered) ->
      exists ty res quote timeout previous balance,
        In (EvInitialize Sample.did idx ty "0xconsumer" (Ok (Some res)))
           (snd More.ordered) /\
        JSON_parse (Sample.ocean 101) res = Ok (Some quote) /\
        tok = pd_dataToken quote /\
        amount = fromWei (numTokens quote) /\
        d0x = didZeroX (Sample.ocean 101) Sample.did /\
        mp = None /\ c = "0xconsumer" /\
        In (EvGetPreviousValidOrders tok (numTokens quote) d0x idx timeout c
              (Ok previous)) (snd More.ordered) /\
        truthy previous = false /\
        In (EvBalance tok c (Ok balance)) (snd More.ordered) /\
        (amount < balance)%Q).
Proof.
  apply (@order_payment_guarded unit (Sample.ocean 101) Sample.did "access"
           "0xconsumer" (-1) None tt (snd (fst More.ordered))
           (fst (fst More.ordered)) (snd More.ordered)).
  reflexivity.
Defined.


Lemma order_quote_target_witness :
  Sample.did = Sample.did /\ "0xconsumer" = "0xconsumer" /\
  exists ddo rest,
    snd More.ordered = EvRetrieveDDO Sample.did (Ok (Some ddo)) :: rest /\
    resolved ddo "access" (-1) ("access", 1).
Proof.
  apply (@order_quote_target unit (Sample.ocean 101) Sample.did "access"
           "0xconsumer" (-1) None tt (snd (fst More.ordered))
           (fst (fst More.ordered)) (snd More.ordered) Sample.did "access"
           "0xconsumer" 1 (Ok (Some "quote"))).
  - reflexivity.
  - vm_compute; tauto.
Defined.

Lemma updateComputePrivacy_layout_witness :
  let sent :=
    withServices
      (Sample.document
         [withIndex Sample.metadata0 0; More.computeWith (Some More.strict)])
      [withIndex Sample.metadata0 0; More.computeWith (Some More.privacy)] in
  exists ddo serv serv',
    In (EvRetrieveDDO Sample.did (Ok (Some ddo))) (snd More.privacyUpdated) /\
    service_at (service ddo) 1 = Some serv /\
    type serv = "compute" /\
    Sample.did = id ddo /\ "0xpublisher" = getId Sample.publisher /\
    sent = withServices ddo (service sent) /\
    map type (service sent) = map type (service ddo) /\
    map index (service sent) = map index (service ddo) /\
    map serviceEndpoint (service sent) = map serviceEndpoint (service ddo) /\
    (forall i, i <> 1 ->
               service_at (service sent) i = service_at (service ddo) i) /\
    service_at (service sent) 1 = Some serv' /\
    main_privacy (main (attributes serv')) = Some More.privacy /\
    existsb is_signText (snd More.privacyUpdated) = false /\
    fst (fst More.privacyUpdated) = storedResult sent (Ok true).
Proof.
  intros sent.
  apply (@updateComputePrivacy_layout unit
           (More.oceanCompute (Some More.strict)) Sample.did 1 More.privacy
           Sample.publisher tt (snd (fst More.privacyUpdated))
           (fst (fst More.privacyUpdated)) (snd More.privacyUpdated)
           Sample.did sent "0xpublisher" (Ok true)).
  - reflexivity.
  - vm_compute; tauto.
Defined.

Lemma updateComputePrivacy_type_errors_witness :
  let ocean := More.oceanCompute None in
  let ddo :=
    Sample.document
      [withIndex Sample.metadata0 0; More.computeWith None] in
  updateComputePrivacy ocean Sample.did 5 More.privacy Sample.publisher tt
  = (Raise (TypeError "type"), tt, [EvRetrieveDDO Sample.did (Ok (Some ddo))])
  /\
  updateComputePrivacy ocean Sample.did 1 More.privacy Sample.publisher tt
  = (Raise (TypeError "allowRawAlgorithm"), tt,
     [EvRetrieveDDO Sample.did (Ok (Some ddo))]).
Proof.
  intros ocean ddo. split.
  - apply (proj1 (@updateComputePrivacy_type_errors unit ocean Sample.did 5
                    More.privacy Sample.publisher ddo tt tt eq_refl)).
    right. simpl. lia.
  - apply (proj2 (@updateComputePrivacy_type_errors unit ocean Sample.did 1
                    More.privacy Sample.publisher ddo tt tt eq_refl)
             (More.computeWith None)).
    + reflexivity.
    + reflexivity.
    + reflexivity.
Defined.

Lemma editMetadata_layout_witness :
  exists ddo,
    In (EvRetrieveDDO Sample.did (Ok (Some ddo))) (snd More.edited) /\
    Sample.did = id ddo /\ "0xpublisher" = getId Sample.publisher /\
    More.editedDocument = withServices ddo (service More.editedDocument) /\
    map type (service More.editedDocument) = map type (service ddo) /\
    map index (service More.editedDocument) = map index (service ddo) /\
    map serviceEndpoint (service More.editedDocument)
    = map serviceEndpoint (service ddo) /\
    (forall s, In s (service More.editedDocument) -> type s = "metadata" ->
               additionalInformation (attributes s) <> None) /\
    existsb is_signText (snd More.edited) = false /\
    fst (fst More.edited) = storedResult More.editedDocument (Ok true).
Proof.
  apply (@editMetadata_layout unit (Sample.ocean 0) More.ops Sample.did
           (More.edit 1) Sample.publisher tt (snd (fst More.edited))
           (fst (fst More.edited)) (snd More.edited) Sample.did
           More.editedDocument "0xpublisher" (Ok true)).
  - reflexivity.
  - vm_compute; tauto.
Defined.

Lemma editMetadata_services_witness :
  exists ddo,
    In (EvRetrieveDDO Sample.did (Ok (Some ddo))) (snd More.edited) /\
    let priceFor i :=
      match em_servicePrices (More.edit 1) with
      | Some prices => lastPriceFor prices i
      | None => None
      end in
    (forall i,
        service_at (service More.editedDocument) i
        = option_map
            (fun s => repriced (editService More.ops (More.edit 1) s)
                        (priceFor i))
            (service_at (service ddo) i)) /\
    service_at (service More.editedDocument) 0
    = option_map (editService More.ops (More.edit 1))
        (service_at (service ddo) 0) /\
    (forall i s,
        service_at (service ddo) i = Some s ->
        type s <> "metadata" -> priceFor i = None ->
        service_at (service More.editedDocument) i = Some s).
Proof.
  apply (@editMetadata_services unit (Sample.ocean 0) More.ops Sample.did
           (More.edit 1) Sample.publisher tt (snd (fst More.edited))
           (fst (fst More.edited)) (snd More.edited) Sample.did
           More.editedDocument "0xpublisher" (Ok true)).
  - reflexivity.
  - vm_compute; tauto.
Defined.

Lemma editMetadata_price_out_of_range_witness :
  editMetadata (Sample.ocean 0) More.ops Sample.did (More.edit 5)
    Sample.publisher tt
  = (Raise (TypeError "attributes"), tt,
     [EvRetrieveDDO Sample.did (Ok (Some (Sample.document Sample.services)))]).
Proof.
  apply (@editMetadata_price_out_of_range unit (Sample.ocean 0) More.ops
           Sample.did (More.edit 5) Sample.publisher
           (Sample.document Sample.services)
           [ {| sp_serviceIndex := 5; sp_cost := "250" |} ]
           {| sp_serviceIndex := 5; sp_cost := "250" |} tt tt).
  - reflexivity.
  - reflexivity.
  - simpl. auto.
  - reflexivity.
  - right. simpl. lia.
Defined.

Lemma download_result_witness :
  fst (fst More.downloaded) <> Ok false /\
  (fst (fst More.downloaded) = Ok true <->
   exists serviceType serviceIndex folder files,
     In (EvDownload Sample.did "0xpayment" Sample.tokenAddress serviceType
           serviceIndex folder Sample.consumer files (Ok tt))
        (snd More.downloaded)) /\
  (List.length (filter is_download (snd More.downloaded)) <= 1)%nat /\
  (forall did' txId' token' serviceType serviceIndex folder account files
          answer,
      In (EvDownload did' txId' token' serviceType serviceIndex folder
            account files answer) (snd More.downloaded) ->
      truthy (Some "/tmp") = false -> folder = None).
Proof.
  apply (@download_result unit (Sample.ocean 0) Sample.did "0xpayment"
           Sample.tokenAddress Sample.consumer (Some "/tmp") tt
           (snd (fst More.downloaded)) (fst (fst More.downloaded))
           (snd More.downloaded)).
  reflexivity.
Defined.


Lemma creator_answer_witness :
  (forall c, fst (fst More.asked) = Ok c ->
     exists ddo p signer,
       In (EvRetrieveDDO Sample.did (Ok (Some ddo))) (snd More.asked) /\
       proof ddo = Some p /\ c = proof_creator p /\
       In (EvVerifyText (DDO_getChecksum (Sample.ocean 0) ddo)
             (signatureValue p) (Ok signer)) (snd More.asked)) /\
  (forall ddo, In (EvRetrieveDDO Sample.did (Ok (Some ddo))) (snd More.asked) ->
               proof ddo = None ->
               fst (fst More.asked) = Raise (TypeError "creator") /\
               existsb is_verifyText (snd More.asked) = false) /\
  existsb is_ledger (snd More.asked) = false /\
  existsb is_update (snd More.asked) = false.
Proof.
  apply (@creator_answer unit (Sample.ocean 0) Sample.did tt
           (snd (fst More.asked)) (fst (fst More.asked)) (snd More.asked)).
  reflexivity.
Defined.
